(** * AgentClient (src/js/agent-client.js): request gate and text formatter

    A shallow embedding of the [AgentClient] class: [callAgent] (the
    single-flight request gate around one [fetch]) and [formatResponse]
    (an ordered pipeline of regular-expression substitutions).

    JavaScript strings are sequences of UTF-16 code units; they are
    modelled as lists of [N].  The regular expressions of the source are
    values of an abstract syntax interpreted by a backtracking matcher
    that follows the ECMAScript matching order (greedy and lazy
    quantifiers, capture groups, multiline anchors). *)

From Stdlib Require Import String Ascii.
From Stdlib Require Import NArith ZArith Arith Bool Lia List.
Import ListNotations.


(** ** Strings and character classes *)

Definition code_unit := N.
Definition jsstring := list code_unit.

(** An ASCII literal of the source, as a string of code units. *)
Definition lit (s : string) : jsstring :=
  List.map N_of_ascii (list_ascii_of_string s).

Definition NL : code_unit := 10%N.
Definition DQUOTE : code_unit := 34%N.
Definition BACKTICK : code_unit := 96%N.

Definition in_range (lo hi c : N) : bool := (N.leb lo c && N.leb c hi)%bool.

(** ECMAScript LineTerminator: LF, CR, LS, PS. *)
Definition isLineTerminator (c : code_unit) : bool :=
  (N.eqb c 10 || N.eqb c 13 || N.eqb c 8232 || N.eqb c 8233)%N%bool.

(** ECMAScript WhiteSpace: TAB, VT, FF, SP, NBSP, ZWNBSP and category Zs. *)
Definition isWhiteSpace (c : code_unit) : bool :=
  (N.eqb c 9 || N.eqb c 11 || N.eqb c 12 || N.eqb c 32 || N.eqb c 160
   || N.eqb c 5760 || in_range 8192 8202 c || N.eqb c 8239
   || N.eqb c 8287 || N.eqb c 12288 || N.eqb c 65279)%N%bool.

(** The class [\s], also the set that [String.prototype.trim] strips. *)
Definition isSpace (c : code_unit) : bool :=
  (isWhiteSpace c || isLineTerminator c)%bool.

(** The class [\d]. *)
Definition isDigit (c : code_unit) : bool := in_range 48 57 c.

(** The class [\w]: ASCII letters, digits and underscore. *)
Definition isWord (c : code_unit) : bool :=
  (in_range 97 122 c || in_range 65 90 c || isDigit c || N.eqb c 95)%N%bool.

(** The atom [.] without the s flag. *)
Definition isDot (c : code_unit) : bool := negb (isLineTerminator c).

(** The class [[\s\S]]. *)
Definition isAny (c : code_unit) : bool := (isSpace c || negb (isSpace c))%bool.

Definition isChar (x : code_unit) (c : code_unit) : bool := N.eqb c x.
Definition isNot (x : code_unit) (c : code_unit) : bool := negb (N.eqb c x).

Fixpoint dropWhile (p : code_unit -> bool) (s : jsstring) : jsstring :=
  match s with
  | [] => []
  | c :: s' => if p c then dropWhile p s' else s
  end.

(** [String.prototype.trim]. *)
Definition trim (s : jsstring) : jsstring :=
  rev (dropWhile isSpace (rev (dropWhile isSpace s))).

(** ** Regular expressions

    The constructs that the patterns of the source use.  A group inside
    a quantifier keeps the capture of its last iteration; in every
    pattern of the source such a group takes part in each iteration, so
    that the reset of captures at the start of an iteration is not
    observable and is left out. *)

Inductive regex : Type :=
| Eps
| Chr (p : code_unit -> bool)
| Seq (r1 r2 : regex)
| Opt (r : regex)
| Star (greedy : bool) (r : regex)
| Plus (greedy : bool) (r : regex)
| Group (i : nat) (r : regex)
| Bol
| Eol.

(** A literal string as a regular expression. *)
Fixpoint Lit (s : jsstring) : regex :=
  match s with
  | [] => Eps
  | c :: s' => Seq (Chr (isChar c)) (Lit s')
  end.

Definition captures := list (nat * jsstring).

Fixpoint get_cap (i : nat) (cs : captures) : option jsstring :=
  match cs with
  | [] => None
  | (j, v) :: cs' => if Nat.eqb i j then Some v else get_cap i cs'
  end.

(** Matcher state: the code unit before the current position (for [^]),
    the input from the current position on, and the captures so far. *)
Record mstate : Type := MState {
  prev : option code_unit;
  rest : jsstring;
  caps : captures
}.

Definition cont := mstate -> option mstate.

(** The part of [s] consumed when [s'] is what remains. *)
Definition consumed (s s' : jsstring) : jsstring :=
  firstn (length s - length s') s.

Definition progress (st st' : mstate) : bool :=
  Nat.ltb (length (rest st')) (length (rest st)).

(** The iteration of [r*] / [r*?]: a greedy quantifier tries one more
    iteration before the continuation, a lazy one the continuation first;
    an iteration that consumes nothing is rejected. *)
Fixpoint star_loop (body : mstate -> cont -> option mstate) (greedy : bool)
    (k : cont) (fuel : nat) (st : mstate) : option mstate :=
  match fuel with
  | O => k st
  | S fuel' =>
      let again (_ : unit) :=
        body st (fun st' =>
          if progress st st' then star_loop body greedy k fuel' st' else None) in
      if greedy then
        match again tt with Some x => Some x | None => k st end
      else
        match k st with Some x => Some x | None => again tt end
  end.

Fixpoint rmatch (r : regex) (st : mstate) (k : cont) {struct r} : option mstate :=
  match r with
  | Eps => k st
  | Chr p =>
      match rest st with
      | c :: s => if p c then k (MState (Some c) s (caps st)) else None
      | [] => None
      end
  | Seq r1 r2 => rmatch r1 st (fun st' => rmatch r2 st' k)
  | Opt r1 =>
      match rmatch r1 st (fun st' => if progress st st' then k st' else None) with
      | Some x => Some x
      | None => k st
      end
  | Star g r1 => star_loop (rmatch r1) g k (length (rest st)) st
  | Plus g r1 =>
      rmatch r1 st (fun st' => star_loop (rmatch r1) g k (length (rest st')) st')
  | Group i r1 =>
      rmatch r1 st (fun st' =>
        k (MState (prev st') (rest st')
             ((i, consumed (rest st) (rest st')) :: caps st')))
  | Bol =>
      match prev st with
      | None => k st
      | Some c => if isLineTerminator c then k st else None
      end
  | Eol =>
      match rest st with
      | [] => k st
      | c :: _ => if isLineTerminator c then k st else None
      end
  end.

(** One match attempt at the current position. *)
Definition exec (r : regex) (p : option code_unit) (s : jsstring) : option mstate :=
  rmatch r (MState p s []) Some.

(** ** Global replacement *)

Definition replacer := jsstring -> captures -> jsstring.

(** Replacement patterns: literal text, [$n] and [$&]. *)
Inductive tpiece : Type :=
| TLit (s : jsstring)
| TGroup (i : nat)
| TMatch.

Definition expand1 (m : jsstring) (cs : captures) (t : tpiece) : jsstring :=
  match t with
  | TLit s => s
  | TGroup i => match get_cap i cs with Some v => v | None => [] end
  | TMatch => m
  end.

Definition tmpl (ts : list tpiece) : replacer :=
  fun m cs => flat_map (expand1 m cs) ts.

Fixpoint replace_go (r : regex) (f : replacer) (fuel : nat)
    (p : option code_unit) (s : jsstring) : jsstring :=
  match fuel with
  | O => s
  | S fuel' =>
      let step :=
        match s with
        | [] => []
        | c :: s' => c :: replace_go r f fuel' (Some c) s'
        end in
      match exec r p s with
      | None => step
      | Some st' =>
          match consumed s (rest st') with
          | [] => f [] (caps st') ++ step
          | m => f m (caps st') ++ replace_go r f fuel' (Some (last m 0%N)) (rest st')
          end
      end
  end.

(** [s.replace(/r/g, f)]. *)
Definition replace_all (r : regex) (f : replacer) (s : jsstring) : jsstring :=
  replace_go r f (S (length s)) None s.

(** ** formatResponse *)

Definition re_amp : regex := Lit (lit "&").
Definition re_lt : regex := Lit (lit "<").
Definition re_gt : regex := Lit (lit ">").

(** [/```(\w+)?\n([\s\S]*?)```/g] *)
Definition re_code_block : regex :=
  Seq (Lit (lit "```"))
 (Seq (Opt (Group 1 (Plus true (Chr isWord))))
 (Seq (Chr (isChar NL))
 (Seq (Group 2 (Star false (Chr isAny)))
      (Lit (lit "```"))))).

(** [(match, lang, code) => `<pre><code class="language-${lang || 'text'}">${code.trim()}</code></pre>`] *)
Definition code_block_replacer : replacer :=
  fun _ cs =>
    let lang := match get_cap 1 cs with
                | Some (c :: l) => c :: l
                | _ => lit "text"
                end in
    let code := match get_cap 2 cs with Some v => v | None => [] end in
    lit "<pre><code class=" ++ [DQUOTE] ++ lit "language-" ++ lang ++ [DQUOTE]
      ++ lit ">" ++ trim code ++ lit "</code></pre>".

(** [/`([^`]+)`/g] *)
Definition re_inline_code : regex :=
  Seq (Lit (lit "`"))
 (Seq (Group 1 (Plus true (Chr (isNot BACKTICK))))
      (Lit (lit "`"))).

(** [/^### (.+)$/gm], [/^## (.+)$/gm], [/^# (.+)$/gm] *)
Definition re_heading (hashes : string) : regex :=
  Seq Bol (Seq (Lit (lit hashes)) (Seq (Group 1 (Plus true (Chr isDot))) Eol)).

(** [/^- (.+)$/gm] *)
Definition re_bullet : regex :=
  Seq Bol (Seq (Lit (lit "- ")) (Seq (Group 1 (Plus true (Chr isDot))) Eol)).

(** [/^(\d+)\. (.+)$/gm] *)
Definition re_numbered : regex :=
  Seq Bol
 (Seq (Group 1 (Plus true (Chr isDigit)))
 (Seq (Lit (lit ". "))
 (Seq (Group 2 (Plus true (Chr isDot))) Eol))).

(** [/(<li>.*<\/li>\n?)+/g]: the group, then its repetition. *)
Definition li_item : regex :=
  Group 1
    (Seq (Lit (lit "<li>"))
    (Seq (Star true (Chr isDot))
    (Seq (Lit (lit "</li>"))
         (Opt (Chr (isChar NL)))))).

Definition re_li_run : regex := Plus true li_item.

(** [/\*\*(.+?)\*\*/g] *)
Definition re_bold : regex :=
  Seq (Lit (lit "**")) (Seq (Group 1 (Plus false (Chr isDot))) (Lit (lit "**"))).

(** [/\*(.+?)\*/g] *)
Definition re_italic : regex :=
  Seq (Lit (lit "*")) (Seq (Group 1 (Plus false (Chr isDot))) (Lit (lit "*"))).

(** [/\n\n/g] and [/\n/g] *)
Definition re_nlnl : regex := Lit [NL; NL].
Definition re_nl : regex := Lit [NL].

(** [/<p>\s*<\/p>/g], [/<p>\s*<ul>/g], [/<\/ul>\s*<\/p>/g] *)
Definition re_empty_p : regex :=
  Seq (Lit (lit "<p>")) (Seq (Star true (Chr isSpace)) (Lit (lit "</p>"))).
Definition re_p_ul : regex :=
  Seq (Lit (lit "<p>")) (Seq (Star true (Chr isSpace)) (Lit (lit "<ul>"))).
Definition re_ul_p : regex :=
  Seq (Lit (lit "</ul>")) (Seq (Star true (Chr isSpace)) (Lit (lit "</p>"))).

Definition wrap1 (open close : string) : replacer :=
  tmpl [TLit (lit open); TGroup 1; TLit (lit close)].

(** The stages of [formatResponse], in source order. *)
Definition escapeHtml (text : jsstring) : jsstring :=
  replace_all re_gt (tmpl [TLit (lit "&gt;")])
    (replace_all re_lt (tmpl [TLit (lit "&lt;")])
      (replace_all re_amp (tmpl [TLit (lit "&amp;")]) text)).

Definition codeBlocks (s : jsstring) : jsstring :=
  replace_all re_code_block code_block_replacer s.

Definition inlineCode (s : jsstring) : jsstring :=
  replace_all re_inline_code (wrap1 "<code>" "</code>") s.

Definition headings (s : jsstring) : jsstring :=
  replace_all (re_heading "# ") (wrap1 "<h2>" "</h2>")
    (replace_all (re_heading "## ") (wrap1 "<h3>" "</h3>")
      (replace_all (re_heading "### ") (wrap1 "<h4>" "</h4>") s)).

Definition listItems (s : jsstring) : jsstring :=
  replace_all re_numbered (tmpl [TLit (lit "<li>"); TGroup 2; TLit (lit "</li>")])
    (replace_all re_bullet (wrap1 "<li>" "</li>") s).

Definition wrapLists (s : jsstring) : jsstring :=
  replace_all re_li_run (tmpl [TLit (lit "<ul>"); TMatch; TLit (lit "</ul>")]) s.

Definition emphasis (s : jsstring) : jsstring :=
  replace_all re_italic (wrap1 "<em>" "</em>")
    (replace_all re_bold (wrap1 "<strong>" "</strong>") s).

Definition lineBreaks (s : jsstring) : jsstring :=
  replace_all re_nl (tmpl [TLit (lit "<br>")])
    (replace_all re_nlnl (tmpl [TLit (lit "</p><p>")]) s).

Definition wrapParagraph (s : jsstring) : jsstring :=
  lit "<p>" ++ s ++ lit "</p>".

Definition cleanup (s : jsstring) : jsstring :=
  replace_all re_ul_p (tmpl [TLit (lit "</ul>")])
    (replace_all re_p_ul (tmpl [TLit (lit "<ul>")])
      (replace_all re_empty_p (tmpl []) s)).

(** The substitutions that follow the code blocks. *)
Definition afterCodeBlocks (s : jsstring) : jsstring :=
  cleanup (wrapParagraph (lineBreaks (emphasis (wrapLists (listItems
    (headings (inlineCode s))))))).

(** The substitutions that follow the escaping. *)
Definition markup (s : jsstring) : jsstring :=
  afterCodeBlocks (codeBlocks s).

Definition formatResponse (text : jsstring) : jsstring :=
  match text with
  | [] => []
  | _ => markup (escapeHtml text)
  end.

(** ** callAgent *)

(** Values that [response.json()] can produce, and [undefined].  Of a
    number the code only inspects whether it is zero, so an integer
    stands for it. *)
#[local] Unset Elimination Schemes.
Inductive jsval : Type :=
| VUndefined
| VNull
| VBool (b : bool)
| VNum (z : Z)
| VStr (s : jsstring)
| VArr (items : list jsval)
| VObj (fields : list (jsstring * jsval)).
#[local] Set Elimination Schemes.

Fixpoint str_eqb (a b : jsstring) : bool :=
  match a, b with
  | [], [] => true
  | x :: a', y :: b' => (N.eqb x y && str_eqb a' b')%bool
  | _, _ => false
  end.

Fixpoint lookup (name : jsstring) (fields : list (jsstring * jsval)) : option jsval :=
  match fields with
  | [] => None
  | (k, v) :: fields' => if str_eqb name k then Some v else lookup name fields'
  end.

(** ToBoolean. *)
Definition truthy (v : jsval) : bool :=
  match v with
  | VUndefined | VNull => false
  | VBool b => b
  | VNum z => negb (Z.eqb z 0)
  | VStr s => match s with [] => false | _ => true end
  | VArr _ | VObj _ => true
  end.

(** What the [try] block can throw. *)
Inductive exn : Type :=
| NetworkError (msg : jsstring)
| ServerError (status : Z)
| JsonSyntaxError (msg : jsstring)
| TypeError.

Inductive completion (A : Type) : Type :=
| Normal (a : A)
| Throw (e : exn).
Arguments Normal {A} a.
Arguments Throw {A} e.

Definition bind {A B : Type} (m : completion A) (f : A -> completion B) : completion B :=
  match m with
  | Normal a => f a
  | Throw e => Throw e
  end.

Notation "x <- m ;; f" := (bind m (fun x => f))
  (at level 61, m at next level, right associativity).

(** [v.name] for a name that no built-in prototype defines ([error],
    [response]): absent on primitives, arrays and objects without the
    field; a TypeError on [null] and [undefined]. *)
Definition get_prop (v : jsval) (name : jsstring) : completion jsval :=
  match v with
  | VUndefined | VNull => Throw TypeError
  | VObj fields =>
      Normal (match lookup name fields with Some x => x | None => VUndefined end)
  | _ => Normal VUndefined
  end.

Record AgentClient : Type := {
  apiEndpoint : jsstring;
  loading : bool
}.

(** [constructor()] *)
Definition newAgentClient : AgentClient :=
  {| apiEndpoint := lit "/.netlify/functions/ai-agent"; loading := false |}.

Record result : Type := { response : jsval; error : jsval }.

(** The argument of [fetch]; [body] is the object handed to
    [JSON.stringify]. *)
Record request : Type := {
  url : jsstring;
  method : jsstring;
  contentType : jsstring;
  body : jsval
}.

Inductive event : Type :=
| Fetch (req : request)
| ConsoleError (e : exn).

(** What the network answers: [fetch] rejects, or resolves to a response
    with a status whose [json()] rejects or resolves to a value. *)
Inductive json_outcome : Type :=
| JsonRejects (msg : jsstring)
| JsonResolves (data : jsval).

Inductive fetch_outcome : Type :=
| FetchRejects (msg : jsstring)
| FetchResolves (status : Z) (payload : json_outcome).

(** [response.ok]: the status is in the range 200 to 299. *)
Definition ok (status : Z) : bool := (Z.leb 200 status && Z.leb status 299)%bool.

Definition busyResult : result :=
  {| response := VStr [];
     error := VStr (lit "Already processing a request. Please wait.") |}.

Definition emptyPromptResult : result :=
  {| response := VStr [];
     error := VStr (lit "Please enter a prompt or question.") |}.

Definition connectResult : result :=
  {| response := VStr [];
     error := VStr (lit "Unable to connect to AI service. Please check your connection and try again.") |}.

(** A call either settles before its first [await] or is suspended at
    the [fetch] it has issued. *)
Inductive call_state : Type :=
| Settled (r : result)
| InFlight (req : request).

(** [callAgent] up to its first [await]: the guards, the flag, the
    request. *)
Definition callAgent_begin (c : AgentClient) (prompt agent : jsstring)
    : AgentClient * list event * call_state :=
  if loading c then (c, [], Settled busyResult)
  else
    match prompt, trim prompt with
    | [], _ | _, [] => (c, [], Settled emptyPromptResult)
    | _, _ =>
        let req := {| url := apiEndpoint c;
                      method := lit "POST";
                      contentType := lit "application/json";
                      body := VObj [(lit "prompt", VStr (trim prompt));
                                    (lit "agent", VStr agent)] |} in
        ({| apiEndpoint := apiEndpoint c; loading := true |},
         [Fetch req], InFlight req)
    end.

(** The [try] block from the point where [fetch] has answered. *)
Definition tryBody (o : fetch_outcome) : completion result :=
  match o with
  | FetchRejects msg => Throw (NetworkError msg)
  | FetchResolves status payload =>
      if negb (ok status) then Throw (ServerError status)
      else
        data <- match payload with
                | JsonRejects msg => Throw (JsonSyntaxError msg)
                | JsonResolves data => Normal data
                end ;;
        err <- get_prop data (lit "error") ;;
        if truthy err then Normal {| response := VStr []; error := err |}
        else
          resp <- get_prop data (lit "response") ;;
          Normal {| response := if truthy resp then resp
                                else VStr (lit "No response received");
                    error := VStr [] |}
  end.

(** [callAgent] from the answer of the network on: [try], [catch] and
    [finally]. *)
Definition callAgent_resume (c : AgentClient) (o : fetch_outcome)
    : AgentClient * list event * result :=
  let idle := {| apiEndpoint := apiEndpoint c; loading := false |} in
  match tryBody o with
  | Normal r => (idle, [], r)
  | Throw e => (idle, [ConsoleError e], connectResult)
  end.

(** A whole call, the network answering [o] if it is asked. *)
Definition callAgent (c : AgentClient) (prompt agent : jsstring) (o : fetch_outcome)
    : AgentClient * list event * result :=
  match callAgent_begin c prompt agent with
  | (c1, evs, Settled r) => (c1, evs, r)
  | (c1, evs, InFlight _) =>
      match callAgent_resume c1 o with
      | (c2, evs', r) => (c2, evs ++ evs', r)
      end
  end.

(** ** Vocabulary of the statements *)

(** A prompt that passes the second guard of [callAgent]. *)
Definition validPrompt (prompt : jsstring) : bool :=
  match trim prompt with [] => false | _ => true end.

(** The reply shape the service is documented to send: an object whose
    [error] and [response] fields, when present, are strings. *)
Definition stringField (name : jsstring) (fields : list (jsstring * jsval)) : bool :=
  match lookup name fields with
  | None | Some (VStr _) => true
  | Some _ => false
  end.

Definition isReply (data : jsval) : bool :=
  match data with
  | VObj fields => (stringField (lit "error") fields && stringField (lit "response") fields)%bool
  | _ => false
  end.

(** [null] and [undefined], of which reading a property throws. *)
Definition nullish (data : jsval) : bool :=
  match data with
  | VUndefined | VNull => true
  | _ => false
  end.

(** The value of [data.name] for a body of which reading a property
    does not throw: the field of an object, [undefined] where there is
    none and on numbers, strings, booleans and arrays. *)
Definition field (name : jsstring) (data : jsval) : jsval :=
  match data with
  | VObj fields =>
      match lookup name fields with Some x => x | None => VUndefined end
  | _ => VUndefined
  end.

(** The string held by a field, empty when the field is absent. *)
Definition fieldText (name : jsstring) (data : jsval) : jsstring :=
  match data with
  | VObj fields => match lookup name fields with Some (VStr s) => s | _ => [] end
  | _ => []
  end.

(** Non-2xx status, rejected [fetch], or a body that is not JSON. *)
Definition transportFailure (o : fetch_outcome) : bool :=
  match o with
  | FetchRejects _ => true
  | FetchResolves status payload =>
      match payload with
      | JsonRejects _ => true
      | JsonResolves _ => negb (ok status)
      end
  end.

Fixpoint prefixb (a s : jsstring) : bool :=
  match a, s with
  | [], _ => true
  | x :: a', y :: s' => (N.eqb x y && prefixb a' s')%bool
  | _ :: _, [] => false
  end.

(** [s.includes(a)] *)
Fixpoint contains (a s : jsstring) : bool :=
  (prefixb a s || match s with [] => false | _ :: s' => contains a s' end)%bool.

(** A fenced block as it stands in the text. *)
Definition fence (lang code : jsstring) : jsstring :=
  lit "```" ++ lang ++ [NL] ++ code ++ lit "```".

(** The opening tags written by the code-block replacer. *)
Definition codeOpen (lang : jsstring) : jsstring :=
  lit "<pre><code class=" ++ [DQUOTE] ++ lit "language-" ++ lang ++ [DQUOTE] ++ lit ">".

Definition codeClose : jsstring := lit "</code></pre>".

(** The language written in the class attribute. *)
Definition langOrText (lang : jsstring) : jsstring :=
  match lang with [] => lit "text" | _ => lang end.

(** ** What a match is, without the order of the search

    [Matches r st st'] holds when [r] can take the matcher from [st] to
    [st']; the matcher only ever answers with such a state. *)
Inductive Matches : regex -> mstate -> mstate -> Prop :=
| MEps st : Matches Eps st st
| MChr p c s st :
    rest st = c :: s -> p c = true ->
    Matches (Chr p) st (MState (Some c) s (caps st))
| MSeq r1 r2 st st1 st2 :
    Matches r1 st st1 -> Matches r2 st1 st2 -> Matches (Seq r1 r2) st st2
| MOptSkip r st : Matches (Opt r) st st
| MOptTake r st st' : Matches r st st' -> Matches (Opt r) st st'
| MStarStop g r st : Matches (Star g r) st st
| MStarStep g r st st1 st2 :
    Matches r st st1 -> Matches (Star g r) st1 st2 -> Matches (Star g r) st st2
| MPlus g r st st1 st2 :
    Matches r st st1 -> Matches (Star g r) st1 st2 -> Matches (Plus g r) st st2
| MGroup i r st st' :
    Matches r st st' ->
    Matches (Group i r) st
      (MState (prev st') (rest st') ((i, consumed (rest st) (rest st')) :: caps st'))
| MBolStart st : prev st = None -> Matches Bol st st
| MBolLine st c : prev st = Some c -> isLineTerminator c = true -> Matches Bol st st
| MEolEnd st : rest st = [] -> Matches Eol st st
| MEolLine st c s :
    rest st = c :: s -> isLineTerminator c = true -> Matches Eol st st.

(** ** Escaped text and the markup of the formatter *)

Definition AMP : code_unit := 38%N.
Definition LT : code_unit := 60%N.
Definition GT : code_unit := 62%N.

(** What the three escaping substitutions make of one code unit. *)
Definition escapeChar (c : code_unit) : jsstring :=
  if N.eqb c AMP then lit "&amp;"
  else if N.eqb c LT then lit "&lt;"
  else if N.eqb c GT then lit "&gt;"
  else [c].






(** Code units that occur in a token of the markup after its first
    place, and those that occur before its last place. *)
Definition tokenInner (c : code_unit) : bool :=
  (isWord c || N.eqb c 47 || N.eqb c 62 || N.eqb c 59 || N.eqb c 32
   || N.eqb c 61 || N.eqb c 34 || N.eqb c 45)%N%bool.

Definition tokenNonFinal (c : code_unit) : bool :=
  (isWord c || N.eqb c 60 || N.eqb c 38 || N.eqb c 47 || N.eqb c 32
   || N.eqb c 61 || N.eqb c 34 || N.eqb c 45)%N%bool.



(** The code unit before the position reached after reading [l]. *)
Definition lastOr (p : option code_unit) (l : jsstring) : option code_unit :=
  fold_left (fun _ c => Some c) l p.

(** No closing fence starts inside [code] when the fence follows it. *)
Fixpoint fenceFree (code : jsstring) : bool :=
  match code with
  | [] => true
  | _ :: code' =>
      (negb (prefixb (lit "```") (code ++ lit "```")) && fenceFree code')%bool
  end.

(** Regular expressions without [^]: their matches do not depend on the
    code unit before the position. *)
Fixpoint bolFree (r : regex) : bool :=
  match r with
  | Eps | Chr _ | Eol => true
  | Bol => false
  | Seq r1 r2 => (bolFree r1 && bolFree r2)%bool
  | Opt r1 | Star _ r1 | Plus _ r1 | Group _ r1 => bolFree r1
  end.

Definition sameInput (a b : mstate) : Prop :=
  rest a = rest b /\ caps a = caps b.

Definition sameAnswer (a b : option mstate) : Prop :=
  match a, b with
  | None, None => True
  | Some x, Some y => sameInput x y
  | _, _ => False
  end.

(** What the code-block pattern captures on a fenced block. *)
Definition fenceCaptures (lang code : jsstring) : captures :=
  (2, code) :: match lang with [] => [] | _ => [(1, lang)] end.

(** The scan of [replace_all] from a position on. *)
Definition scan (r : regex) (f : replacer) (p : option code_unit) (s : jsstring)
    : jsstring :=
  replace_go r f (S (length s)) p s.

(** A rendered block, as the code-block replacer writes it. *)
Definition renderedBlock (lang body : jsstring) : jsstring :=
  lit "<pre><code class=" ++ [DQUOTE] ++ lit "language-" ++ lang ++ [DQUOTE]
    ++ lit ">" ++ body ++ lit "</code></pre>".

(** Content that no later substitution matches: no line terminator, no
    backtick, no asterisk. *)
Definition inert (body : jsstring) : bool :=
  forallb (fun c => isDot c && isNot BACKTICK c && isNot 42%N c)%bool body.

(** A pattern that can only match at the code unit [x]. *)
Definition opensWith (x : code_unit) (r : regex) : Prop :=
  forall st k,
    match rest st with [] => True | c :: _ => isNot x c = true end ->
    rmatch r st k = None.

(** ** copyToClipboard

    The page as far as [copyToClipboard] touches it: [document.body],
    which is [null] in a document without a body, with its children, and
    the content of the system clipboard.  The focus and the selection
    that [select()] moves are not part of the model. *)

Record element : Type := { nodeId : nat; value : jsstring }.

Record page : Type := {
  documentBody : option (list element);
  clipboard : jsstring
}.

(** What [navigator.clipboard.writeText] does: [navigator.clipboard] is
    missing (the property access throws), the promise rejects, or it
    resolves with the text written. *)
Inductive write_outcome : Type :=
| ClipboardMissing
| WriteRejects
| WriteResolves.

(** What [document.execCommand('copy')] does: it copies the selection
    and answers [true], it copies nothing and answers [false], or it
    throws (also when the method is missing). *)
Inductive copy_outcome : Type :=
| CopyDone
| CopyRefused
| CopyThrows.

(** How the promise of an [async] function settles. *)
Inductive settlement : Type :=
| Resolves (b : bool)
| Rejects.

(** [document.createElement]: a node that is none of the existing ones. *)
Definition freshId (children : list element) : nat :=
  S (list_max (List.map nodeId children)).

(** [document.body.appendChild] and [document.body.removeChild]. *)
Definition appendChild (e : element) (children : list element) : list element :=
  children ++ [e].

Definition removeChild (e : element) (children : list element) : list element :=
  filter (fun x => negb (Nat.eqb (nodeId x) (nodeId e))) children.

(** The [catch] block is not guarded: what throws in it rejects the
    promise and skips the statements that follow. *)
Definition copyToClipboard (text : jsstring) (pg : page)
    (w : write_outcome) (x : copy_outcome) : page * settlement :=
  match w with
  | WriteResolves =>
      ({| documentBody := documentBody pg; clipboard := text |}, Resolves true)
  | ClipboardMissing | WriteRejects =>
      match documentBody pg with
      | None => (pg, Rejects)
      | Some children0 =>
          let textarea := {| nodeId := freshId children0; value := text |} in
          let children := appendChild textarea children0 in
          match x with
          | CopyThrows =>
              ({| documentBody := Some children; clipboard := clipboard pg |}, Rejects)
          | CopyDone =>
              ({| documentBody := Some (removeChild textarea children);
                  clipboard := value textarea |}, Resolves true)
          | CopyRefused =>
              ({| documentBody := Some (removeChild textarea children);
                  clipboard := clipboard pg |}, Resolves true)
          end
      end
  end.

(** ** More vocabulary *)

(** The number of requests among the events of a call. *)
Definition fetches (evs : list event) : nat :=
  length (filter (fun e => match e with Fetch _ => true | _ => false end) evs).

(** The asterisk. *)
Definition STAR : code_unit := 42%N.

(** Code units that the escaping rewrites. *)
Definition isSpecial (c : code_unit) : bool :=
  (N.eqb c AMP || N.eqb c LT || N.eqb c GT)%bool.

(** Text without markup: no line terminator, no backtick, no asterisk,
    none of [&], [<], [>]. *)
Definition ordinary (c : code_unit) : bool :=
  (isDot c && isNot BACKTICK c && isNot 42%N c && negb (isSpecial c))%bool.

Definition plainText (t : jsstring) : bool := forallb ordinary t.

(** Code units that can open a heading or a list item at the start of
    a line: [#], [-] and the digits. *)
Definition lineOpener (c : code_unit) : bool :=
  (N.eqb c 35 || N.eqb c 45 || isDigit c)%N%bool.

(** A pattern that matches at no position where the text goes on with
    [tag]. *)
Definition passes (r : regex) (tag : jsstring) : Prop :=
  forall q s, exec r q (tag ++ s) = None.

(** Tags at which neither the list pattern nor the cleanup patterns
    match, also right after the opening of the paragraph. *)
Definition plainTag (tag : jsstring) : Prop :=
  passes re_li_run tag /\ passes re_empty_p tag /\ passes re_p_ul tag
  /\ passes re_ul_p tag
  /\ passes re_empty_p (lit "<p>" ++ tag) /\ passes re_p_ul (lit "<p>" ++ tag)
  /\ passes re_ul_p (lit "<p>" ++ tag).

(** ** Fenced blocks in their context *)

(** What follows the three backticks of an opening fence: word
    characters, if any, and a line feed. *)
Definition afterTag (s : jsstring) : bool :=
  match dropWhile isWord s with
  | c :: _ => N.eqb c NL
  | [] => false
  end.

(** An opening fence stands at the head of [s]. *)
Definition opensFence (s : jsstring) : bool :=
  (prefixb (lit "```") s && afterTag (skipn 3 s))%bool.

(** Text in which no opening fence stands. *)
Fixpoint fenceless (t : jsstring) : bool :=
  match t with
  | [] => true
  | _ :: t' => (negb (opensFence t) && fenceless t')%bool
  end.

(** A fenced block with the text before it. *)
Record fenced : Type := {
  before : jsstring;
  tag : jsstring;
  content : jsstring
}.

(** The text has no opening fence, the tag is made of word characters
    and the content runs up to the first closing fence. *)
Definition fencedOk (f : fenced) : bool :=
  (fenceless (before f) && forallb isWord (tag f) && fenceFree (content f))%bool.

(** The text that a sequence of fenced blocks stands for. *)
Definition source (fs : list fenced) : jsstring :=
  flat_map (fun f => before f ++ fence (tag f) (content f)) fs.

(** [s] holds [b] as one piece. *)
Definition within (b s : jsstring) : Prop :=
  exists x y, s = x ++ b ++ y.

(** * Properties *)

(** ** callAgent *)

(** C5: while a call is in flight, [callAgent] settles before any
    [await] with the busy error, asks nothing of the network and leaves
    the client as it was. *)
Theorem busy_call_is_rejected :
  forall (c : AgentClient) (prompt agent : jsstring),
    loading c = true ->
    callAgent_begin c prompt agent = (c, [], Settled busyResult)
    /\ forall o, callAgent c prompt agent o = (c, [], busyResult).
Proof.
  intros c prompt agent Hbusy.
  assert (Hb : callAgent_begin c prompt agent = (c, [], Settled busyResult)).
  { unfold callAgent_begin. rewrite Hbusy. reflexivity. }
  split; [exact Hb|].
  intro o. unfold callAgent. rewrite Hb. reflexivity.
Qed.

Lemma busy_call_is_rejected_witness :
  let c := {| apiEndpoint := lit "/api"; loading := true |} in
  loading c = true
  /\ callAgent_begin c (lit "hello") (lit "quizTutor") = (c, [], Settled busyResult).
Proof.
  split; [reflexivity|].
  apply (busy_call_is_rejected
           {| apiEndpoint := lit "/api"; loading := true |}
           (lit "hello") (lit "quizTutor")).
  reflexivity.
Defined.

Lemma dropWhile_all (p : code_unit -> bool) (s : jsstring) :
  forallb p s = true -> dropWhile p s = [].
Proof.
  induction s as [|c s IH]; simpl; [reflexivity|].
  intro H. apply andb_true_iff in H. destruct H as [Hc Hs].
  rewrite Hc. auto.
Qed.

Lemma trim_blank (s : jsstring) : forallb isSpace s = true -> trim s = [].
Proof.
  intro H. unfold trim. rewrite (dropWhile_all _ _ H). reflexivity.
Qed.

Lemma begin_accepts (c : AgentClient) (prompt agent : jsstring) :
  loading c = false -> validPrompt prompt = true ->
  exists req,
    callAgent_begin c prompt agent =
      ({| apiEndpoint := apiEndpoint c; loading := true |}, [Fetch req], InFlight req).
Proof.
  intros Hidle Hvalid. unfold callAgent_begin, validPrompt in *. rewrite Hidle.
  destruct prompt as [|x prompt]; [discriminate|].
  destruct (trim (x :: prompt)) eqn:Htrim; [discriminate|].
  eexists. reflexivity.
Qed.

Lemma begin_in_flight (c c1 : AgentClient) (prompt agent : jsstring)
    (evs : list event) (req : request) :
  callAgent_begin c prompt agent = (c1, evs, InFlight req) ->
  loading c = false /\ validPrompt prompt = true /\ loading c1 = true
  /\ evs = [Fetch req].
Proof.
  unfold callAgent_begin, validPrompt.
  destruct (loading c); [discriminate|].
  destruct prompt as [|x prompt]; [discriminate|].
  destruct (trim (x :: prompt)); [discriminate|].
  intro H. injection H as <- <- <-. repeat split.
Qed.

Lemma resume_idle (c : AgentClient) (o : fetch_outcome) :
  fst (fst (callAgent_resume c o)) = {| apiEndpoint := apiEndpoint c; loading := false |}.
Proof.
  unfold callAgent_resume. destruct (tryBody o); reflexivity.
Qed.

(** C4: a call that went past the guards holds the flag while it is in
    flight and, whatever the network answers (reply, service error,
    failure status, rejected fetch, unreadable body, exception), has
    released it when it settles; the next call with a valid prompt is
    then taken on and issues its request. *)
Theorem flag_released_on_every_exit :
  forall (c c1 : AgentClient) (prompt agent : jsstring) (evs : list event)
         (req : request) (o : fetch_outcome),
    callAgent_begin c prompt agent = (c1, evs, InFlight req) ->
    let c2 := fst (fst (callAgent_resume c1 o)) in
    loading c1 = true
    /\ loading c2 = false
    /\ fst (fst (callAgent c prompt agent o)) = c2
    /\ forall prompt' agent',
         validPrompt prompt' = true ->
         exists req',
           callAgent_begin c2 prompt' agent' =
             ({| apiEndpoint := apiEndpoint c2; loading := true |},
              [Fetch req'], InFlight req').
Proof.
  intros c c1 prompt agent evs req o Hbegin c2.
  destruct (begin_in_flight _ _ _ _ _ _ Hbegin) as (_ & _ & Hflag & _).
  assert (Hc2 : loading c2 = false).
  { unfold c2. rewrite resume_idle. reflexivity. }
  repeat split; try assumption.
  - unfold callAgent. rewrite Hbegin. unfold c2.
    destruct (callAgent_resume c1 o) as [[c' evs'] r]. reflexivity.
  - intros prompt' agent' Hvalid. apply begin_accepts; assumption.
Qed.

Lemma flag_released_on_every_exit_witness :
  let c1 := {| apiEndpoint := apiEndpoint newAgentClient; loading := true |} in
  let c2 := fst (fst (callAgent_resume c1 (FetchRejects (lit "offline")))) in
  loading c2 = false
  /\ exists req', callAgent_begin c2 (lit "again") (lit "quizTutor") =
       ({| apiEndpoint := apiEndpoint c2; loading := true |}, [Fetch req'], InFlight req').
Proof.
  pose proof (flag_released_on_every_exit
                newAgentClient _ (lit " hello ") (lit "quizTutor") _ _
                (FetchRejects (lit "offline")) eq_refl) as H.
  simpl in H. destruct H as (_ & H2 & _ & H4).
  split; [exact H2|].
  apply (H4 (lit "again") (lit "quizTutor")). reflexivity.
Defined.

(** C6, as stated: a blank prompt handed to a client that is busy gets
    the busy error, not the empty-prompt error. *)
Lemma blank_prompt_while_busy :
  let c := {| apiEndpoint := apiEndpoint newAgentClient; loading := true |} in
  forallb isSpace [] = true
  /\ callAgent_begin c [] (lit "quizTutor") = (c, [], Settled busyResult)
  /\ callAgent_begin c [] (lit "quizTutor") <> (c, [], Settled emptyPromptResult).
Proof.
  repeat split. intro H. vm_compute in H. discriminate H.
Qed.

(** C6, amended: while no call is in flight, a prompt that is empty or
    made of whitespace only gets the empty-prompt error before any
    [await], with no request issued and the client unchanged. *)
Theorem blank_prompt_is_rejected :
  forall (c : AgentClient) (prompt agent : jsstring),
    loading c = false ->
    forallb isSpace prompt = true ->
    callAgent_begin c prompt agent = (c, [], Settled emptyPromptResult)
    /\ forall o, callAgent c prompt agent o = (c, [], emptyPromptResult).
Proof.
  intros c prompt agent Hidle Hblank.
  assert (Hb : callAgent_begin c prompt agent = (c, [], Settled emptyPromptResult)).
  { unfold callAgent_begin. rewrite Hidle.
    pose proof (trim_blank _ Hblank) as Htrim.
    destruct prompt; [reflexivity|]. rewrite Htrim. reflexivity. }
  split; [exact Hb|].
  intro o. unfold callAgent. rewrite Hb. reflexivity.
Qed.

Lemma blank_prompt_is_rejected_witness :
  forallb isSpace (lit "  ") = true
  /\ callAgent_begin newAgentClient (lit "  ") (lit "quizTutor")
     = (newAgentClient, [], Settled emptyPromptResult).
Proof.
  split; [reflexivity|].
  apply (blank_prompt_is_rejected newAgentClient (lit "  ") (lit "quizTutor"));
    reflexivity.
Defined.

(** C7, as stated: [null] is a body that parses, and it carries no
    error field; the caller does not get the fallback text but the
    connection message, since reading [data.error] throws. *)
Lemma null_reply_is_not_relayed :
  ok 200 = true
  /\ callAgent_resume newAgentClient (FetchResolves 200 (JsonResolves VNull))
     = (newAgentClient, [ConsoleError TypeError], connectResult)
  /\ connectResult
     <> {| response := VStr (lit "No response received"); error := VStr [] |}.
Proof.
  split; [reflexivity|]. split; [reflexivity|]. discriminate.
Qed.

(** C7, amended: on a 2xx answer whose body parses to anything but
    [null], a truthy [error] field is handed back verbatim with an empty
    response; otherwise the [response] field is handed back, or the text
    "No response received" when it is absent or falsy, with an empty
    error.  For a body whose fields are strings, truthy is non-empty. *)
Theorem reply_is_relayed :
  forall (c : AgentClient) (status : Z) (data : jsval),
    ok status = true ->
    nullish data = false ->
    callAgent_resume c (FetchResolves status (JsonResolves data)) =
      ({| apiEndpoint := apiEndpoint c; loading := false |}, [],
       if truthy (field (lit "error") data)
       then {| response := VStr []; error := field (lit "error") data |}
       else {| response := if truthy (field (lit "response") data)
                           then field (lit "response") data
                           else VStr (lit "No response received");
               error := VStr [] |})
    /\ (isReply data = true ->
        callAgent_resume c (FetchResolves status (JsonResolves data)) =
          ({| apiEndpoint := apiEndpoint c; loading := false |}, [],
           match fieldText (lit "error") data with
           | [] =>
               {| response :=
                    VStr (match fieldText (lit "response") data with
                          | [] => lit "No response received"
                          | r => r
                          end);
                  error := VStr [] |}
           | e => {| response := VStr []; error := VStr e |}
           end)).
Proof.
  intros c status data Hok Hnull.
  assert (Hget : forall name, get_prop data name = Normal (field name data))
    by (intro name; destruct data; try discriminate Hnull; reflexivity).
  assert (Hrun :
    callAgent_resume c (FetchResolves status (JsonResolves data)) =
      ({| apiEndpoint := apiEndpoint c; loading := false |}, [],
       if truthy (field (lit "error") data)
       then {| response := VStr []; error := field (lit "error") data |}
       else {| response := if truthy (field (lit "response") data)
                           then field (lit "response") data
                           else VStr (lit "No response received");
               error := VStr [] |})).
  { unfold callAgent_resume, tryBody. rewrite Hok. cbn [negb bind].
    rewrite (Hget (lit "error")). cbn [bind].
    destruct (truthy (field (lit "error") data)); [reflexivity|].
    rewrite (Hget (lit "response")). reflexivity. }
  split; [exact Hrun|].
  intro Hreply. rewrite Hrun.
  destruct data as [| | | | |items|fields]; try discriminate Hreply.
  cbn [isReply] in Hreply. apply andb_true_iff in Hreply.
  destruct Hreply as [He Hr]. unfold stringField in He, Hr.
  cbn [field fieldText].
  destruct (lookup (lit "error") fields) as [[| | | |e| |]|];
    try discriminate He; cbn [truthy].
  - destruct e as [|x e]; [|reflexivity].
    destruct (lookup (lit "response") fields) as [[| | | |r| |]|];
      try discriminate Hr; cbn [truthy]; [destruct r; reflexivity | reflexivity].
  - destruct (lookup (lit "response") fields) as [[| | | |r| |]|];
      try discriminate Hr; cbn [truthy]; [destruct r; reflexivity | reflexivity].
Qed.

Lemma reply_is_relayed_witness :
  ok 200 = true
  /\ nullish (VObj [(lit "error", VNum 5)]) = false
  /\ callAgent_resume newAgentClient
       (FetchResolves 200 (JsonResolves (VObj [(lit "error", VNum 5)])))
     = (newAgentClient, [], {| response := VStr []; error := VNum 5 |}).
Proof.
  split; [reflexivity|]. split; [reflexivity|].
  exact (proj1 (reply_is_relayed newAgentClient 200
                  (VObj [(lit "error", VNum 5)]) eq_refl eq_refl)).
Defined.

(** C8: when the status is not 2xx, [fetch] rejects or the body is not
    JSON, the caller gets the fixed connection message and nothing of
    the underlying error, which goes to the console only. *)
Theorem transport_failure_is_generic :
  forall (c : AgentClient) (o : fetch_outcome),
    transportFailure o = true ->
    exists e : exn,
      callAgent_resume c o =
        ({| apiEndpoint := apiEndpoint c; loading := false |},
         [ConsoleError e], connectResult).
Proof.
  intros c o Hfail. unfold callAgent_resume, tryBody.
  destruct o as [msg|status payload]; simpl in *.
  - eexists. reflexivity.
  - destruct (ok status) eqn:Hok; simpl.
    + destruct payload as [msg|data]; [|discriminate Hfail].
      eexists. reflexivity.
    + eexists. reflexivity.
Qed.

Lemma transport_failure_is_generic_witness :
  transportFailure (FetchResolves 503 (JsonResolves VNull)) = true
  /\ exists e : exn,
       callAgent_resume newAgentClient (FetchResolves 503 (JsonResolves VNull)) =
         (newAgentClient, [ConsoleError e], connectResult).
Proof.
  split; [reflexivity|].
  apply (transport_failure_is_generic newAgentClient
           (FetchResolves 503 (JsonResolves VNull))).
  reflexivity.
Defined.

(** ** formatResponse on the inputs of the specification *)

(** C2, as stated: the two items are not adjacent in the output. *)
Lemma two_bullets_are_not_adjacent :
  formatResponse (lit "- a" ++ [NL] ++ lit "- b")
  <> lit "<ul><li>a</li><li>b</li></ul>".
Proof.
  intro H. vm_compute in H. discriminate H.
Qed.

(** C2, amended: both items stand in a single list without paragraph
    tags around it, and the newline that separated them is rendered as a
    line break between them. *)
Theorem two_bullets_in_one_list :
  formatResponse (lit "- a" ++ [NL] ++ lit "- b")
  = lit "<ul><li>a</li><br><li>b</li></ul>".
Proof.
  vm_compute. reflexivity.
Qed.

(** C3, as stated: the rendered block is not returned bare. *)
Lemma fenced_block_is_not_bare :
  formatResponse (fence (lit "js") (lit "code();" ++ [NL]))
  <> codeOpen (lit "js") ++ lit "code();" ++ codeClose.
Proof.
  intro H. vm_compute in H. discriminate H.
Qed.

(** C3, amended: the rendered block is returned inside the paragraph
    that wraps the whole result. *)
Theorem fenced_block_in_paragraph :
  formatResponse (fence (lit "js") (lit "code();" ++ [NL]))
  = lit "<p>" ++ codeOpen (lit "js") ++ lit "code();" ++ codeClose ++ lit "</p>".
Proof.
  vm_compute. reflexivity.
Qed.

(** Two more inputs of the specification, as checks of the embedding. *)
Example bold_and_italic :
  formatResponse (lit "**bold** and *italic*")
  = lit "<p><strong>bold</strong> and <em>italic</em></p>".
Proof.
  vm_compute. reflexivity.
Qed.

Example empty_text : formatResponse [] = [].
Proof.
  reflexivity.
Qed.

(** C10: the text of an inline code span is still open to the emphasis
    rules, which put an [em] element inside the [code] element. *)
Theorem inline_code_is_not_protected :
  formatResponse (lit "`*x*`") = lit "<p><code><em>x</em></code></p>"
  /\ inlineCode (lit "`*x*`") = lit "<code>*x*</code>"
  /\ emphasis (lit "<code>*x*</code>") = lit "<code><em>x</em></code>".
Proof.
  repeat split; vm_compute; reflexivity.
Qed.

(** ** The matcher answers with matches *)

Lemma star_loop_sound (r : regex) (body : mstate -> cont -> option mstate) :
  (forall st k res, body st k = Some res ->
     exists st', Matches r st st' /\ k st' = Some res) ->
  forall fuel g k st res,
    star_loop body g k fuel st = Some res ->
    exists st', Matches (Star g r) st st' /\ k st' = Some res.
Proof.
  intros Hbody fuel. induction fuel as [|fuel IH]; intros g k st res H; simpl in H.
  - exists st. split; [constructor | exact H].
  - assert (Hagain : forall res',
      body st (fun st' => if progress st st'
                          then star_loop body g k fuel st' else None) = Some res' ->
      exists st', Matches (Star g r) st st' /\ k st' = Some res').
    { intros res' Hb. apply Hbody in Hb. destruct Hb as (st1 & Hm & Hk).
      destruct (progress st st1); [|discriminate Hk].
      apply IH in Hk. destruct Hk as (st2 & Hm2 & Hk2).
      exists st2. split; [econstructor; eassumption | exact Hk2]. }
    destruct g.
    + destruct (body st _) eqn:Hb.
      * injection H as <-. apply Hagain. reflexivity.
      * exists st. split; [constructor | exact H].
    + destruct (k st) eqn:Hk.
      * injection H as <-. exists st. split; [constructor | exact Hk].
      * apply Hagain. exact H.
Qed.

Theorem rmatch_sound (r : regex) :
  forall st k res, rmatch r st k = Some res ->
    exists st', Matches r st st' /\ k st' = Some res.
Proof.
  induction r as [|p|r1 IH1 r2 IH2|r IH|g r IH|g r IH|i r IH| |];
    intros st k res H; simpl in H.
  - exists st. split; [constructor | exact H].
  - destruct (rest st) as [|c s] eqn:Hrest; [discriminate H|].
    destruct (p c) eqn:Hp; [|discriminate H].
    eexists. split; [econstructor; eassumption | exact H].
  - apply IH1 in H. destruct H as (st1 & Hm1 & H).
    apply IH2 in H. destruct H as (st2 & Hm2 & H).
    exists st2. split; [econstructor; eassumption | exact H].
  - destruct (rmatch r st _) eqn:Hr.
    + injection H as <-. apply IH in Hr. destruct Hr as (st1 & Hm & Hk).
      destruct (progress st st1); [|discriminate Hk].
      exists st1. split; [apply MOptTake; exact Hm | exact Hk].
    + exists st. split; [apply MOptSkip | exact H].
  - eapply star_loop_sound; [exact IH | exact H].
  - apply IH in H. destruct H as (st1 & Hm1 & H).
    eapply star_loop_sound in H; [|exact IH].
    destruct H as (st2 & Hm2 & H).
    exists st2. split; [econstructor; eassumption | exact H].
  - apply IH in H. destruct H as (st1 & Hm & H).
    eexists. split; [apply MGroup; exact Hm | exact H].
  - destruct (prev st) as [c|] eqn:Hp.
    + destruct (isLineTerminator c) eqn:Hc; [|discriminate H].
      exists st. split; [eapply MBolLine; eassumption | exact H].
    + exists st. split; [apply MBolStart; exact Hp | exact H].
  - destruct (rest st) as [|c s] eqn:Hrest.
    + exists st. split; [apply MEolEnd; exact Hrest | exact H].
    + destruct (isLineTerminator c) eqn:Hc; [|discriminate H].
      exists st. split; [eapply MEolLine; eassumption | exact H].
Qed.

Lemma exec_sound (r : regex) (p : option code_unit) (s : jsstring) (st' : mstate) :
  exec r p s = Some st' -> Matches r (MState p s []) st'.
Proof.
  unfold exec. intro H. apply rmatch_sound in H.
  destruct H as (st1 & Hm & H). injection H as <-. exact Hm.
Qed.

(** A match consumes a prefix of the input. *)
Lemma Matches_consumes (r : regex) (st st' : mstate) :
  Matches r st st' -> exists m, rest st = m ++ rest st'.
Proof.
  induction 1; simpl;
    try (exists []; reflexivity);
    try assumption.
  - exists [c]. simpl. assumption.
  - destruct IHMatches1 as (m1 & ->). destruct IHMatches2 as (m2 & ->).
    exists (m1 ++ m2). rewrite app_assoc. reflexivity.
  - destruct IHMatches1 as (m1 & ->). destruct IHMatches2 as (m2 & ->).
    exists (m1 ++ m2). rewrite app_assoc. reflexivity.
  - destruct IHMatches1 as (m1 & ->). destruct IHMatches2 as (m2 & ->).
    exists (m1 ++ m2). rewrite app_assoc. reflexivity.
Qed.

Lemma consumed_app (m s : jsstring) : consumed (m ++ s) s = m.
Proof.
  unfold consumed. rewrite length_app.
  replace (length m + length s - length s) with (length m) by lia.
  rewrite firstn_app, firstn_all, Nat.sub_diag. simpl. apply app_nil_r.
Qed.

(** ** The fuel of the quantifiers is enough

    A quantifier gets the length of the remaining input as fuel: each
    iteration it accepts consumes at least one code unit, so that more
    fuel never changes the answer. *)

Lemma star_loop_ext (body : mstate -> cont -> option mstate) (g : bool) :
  (forall st k1 k2, (forall st', k1 st' = k2 st') -> body st k1 = body st k2) ->
  forall fuel st k1 k2,
    (forall st', k1 st' = k2 st') ->
    star_loop body g k1 fuel st = star_loop body g k2 fuel st.
Proof.
  intros Hbody fuel. induction fuel as [|fuel IH]; intros st k1 k2 Hk.
  - apply Hk.
  - cbn [star_loop]. rewrite (Hk st).
    rewrite (Hbody st
               (fun st' => if progress st st'
                           then star_loop body g k1 fuel st' else None)
               (fun st' => if progress st st'
                           then star_loop body g k2 fuel st' else None));
      [reflexivity|].
    intro st'. destruct (progress st st'); [apply IH, Hk | reflexivity].
Qed.

Lemma rmatch_ext (r : regex) :
  forall st k1 k2, (forall st', k1 st' = k2 st') -> rmatch r st k1 = rmatch r st k2.
Proof.
  induction r as [|p|r1 IH1 r2 IH2|r IH|g r IH|g r IH|i r IH| |];
    intros st k1 k2 Hk; cbn [rmatch]; try rewrite (Hk st); try reflexivity.
  - destruct (rest st) as [|c s]; [reflexivity|]. rewrite Hk. reflexivity.
  - apply IH1. intro st'. apply IH2, Hk.
  - rewrite (IH st (fun st' => if progress st st' then k1 st' else None)
                   (fun st' => if progress st st' then k2 st' else None));
      [reflexivity|].
    intro st'. rewrite Hk. reflexivity.
  - apply star_loop_ext; [exact IH | exact Hk].
  - apply IH. intro st'. apply star_loop_ext; [exact IH | exact Hk].
  - apply IH. intro st'. apply Hk.
Qed.

Lemma rmatch_fails (r : regex) (st : mstate) :
  rmatch r st (fun _ => None) = None.
Proof.
  destruct (rmatch r st (fun _ => None)) as [x|] eqn:E; [|reflexivity].
  apply rmatch_sound in E. destruct E as (st' & _ & E). discriminate E.
Qed.

Lemma star_loop_at_end (r : regex) (g : bool) (k : cont) (fuel : nat)
    (st : mstate) :
  rest st = [] -> star_loop (rmatch r) g k fuel st = k st.
Proof.
  intro Hend. destruct fuel as [|fuel]; [reflexivity|]. cbn [star_loop].
  rewrite (rmatch_ext r st _ (fun _ => None)).
  - rewrite rmatch_fails. destruct g; [reflexivity|]. destruct (k st); reflexivity.
  - intro st'. unfold progress. rewrite Hend. reflexivity.
Qed.

Theorem star_loop_enough (r : regex) (g : bool) (k : cont) :
  forall n m st,
    length (rest st) <= n -> length (rest st) <= m ->
    star_loop (rmatch r) g k n st = star_loop (rmatch r) g k m st.
Proof.
  induction n as [|n IH]; intros m st Hn Hm.
  - rewrite !star_loop_at_end; [reflexivity | |];
      destruct (rest st); [reflexivity | simpl in Hn; lia | reflexivity
                          | simpl in Hn; lia].
  - destruct m as [|m].
    + rewrite !star_loop_at_end; [reflexivity | |];
        destruct (rest st); [reflexivity | simpl in Hm; lia | reflexivity
                            | simpl in Hm; lia].
    + cbn [star_loop].
      rewrite (rmatch_ext r st
                 (fun st' => if progress st st'
                             then star_loop (rmatch r) g k n st' else None)
                 (fun st' => if progress st st'
                             then star_loop (rmatch r) g k m st' else None));
        [reflexivity|].
      intro st'. destruct (progress st st') eqn:Hp; [|reflexivity].
      unfold progress in Hp. apply Nat.ltb_lt in Hp. apply IH; lia.
Qed.

(** ** Tokens and cuts of well-formed strings *)













(** ** A substitution that cuts cleanly preserves well-formedness *)



(** ** The shape of the matches of the pieces *)

Lemma M_seq (r1 r2 : regex) (st st' : mstate) :
  Matches (Seq r1 r2) st st' ->
  exists st1, Matches r1 st st1 /\ Matches r2 st1 st'.
Proof.
  intro H. inversion H; subst. eexists. split; eassumption.
Qed.

Lemma M_chr (p : code_unit -> bool) (st st' : mstate) :
  Matches (Chr p) st st' ->
  exists c, rest st = c :: rest st' /\ p c = true /\ caps st' = caps st.
Proof.
  intro H. inversion H; subst. exists c. simpl. auto.
Qed.

Lemma M_lit (l : jsstring) (st st' : mstate) :
  Matches (Lit l) st st' -> rest st = l ++ rest st' /\ caps st' = caps st.
Proof.
  revert st. induction l as [|x l IH]; intros st H; simpl in H.
  - inversion H; subst. auto.
  - apply M_seq in H. destruct H as (st1 & H1 & H2).
    apply M_chr in H1. destruct H1 as (c & Hr & Hc & Hcaps).
    apply IH in H2. destruct H2 as [Hr2 Hcaps2].
    unfold isChar in Hc. apply N.eqb_eq in Hc. subst c.
    rewrite Hr, Hr2, Hcaps2, Hcaps. auto.
Qed.

Lemma M_star_chr (g : bool) (p : code_unit -> bool) (st st' : mstate) :
  Matches (Star g (Chr p)) st st' ->
  exists l, rest st = l ++ rest st' /\ forallb p l = true /\ caps st' = caps st.
Proof.
  intro H. remember (Star g (Chr p)) as r eqn:Er.
  induction H; try discriminate Er.
  - exists []. auto.
  - injection Er as -> ->.
    apply M_chr in H. destruct H as (c & Hr & Hc & Hcaps).
    destruct (IHMatches2 eq_refl) as (l & Hr2 & Hl & Hcaps2).
    exists (c :: l). simpl. rewrite Hr, Hr2, Hc, Hl, Hcaps2, Hcaps. auto.
Qed.

Lemma M_plus_chr (g : bool) (p : code_unit -> bool) (st st' : mstate) :
  Matches (Plus g (Chr p)) st st' ->
  exists c l, rest st = c :: l ++ rest st' /\ p c = true
              /\ forallb p l = true /\ caps st' = caps st.
Proof.
  intro H. inversion H; subst.
  match goal with
  | H1 : Matches (Chr _) _ _, H2 : Matches (Star _ _) _ _ |- _ =>
      apply M_chr in H1; destruct H1 as (c & Hr & Hc & Hcaps);
      apply M_star_chr in H2; destruct H2 as (l & Hr2 & Hl & Hcaps2)
  end.
  exists c, l. rewrite Hr, Hr2, Hcaps2, Hcaps. auto.
Qed.

Lemma M_group (i : nat) (r : regex) (st st' : mstate) :
  Matches (Group i r) st st' ->
  exists st1, Matches r st st1 /\ rest st' = rest st1
              /\ caps st' = (i, consumed (rest st) (rest st1)) :: caps st1.
Proof.
  intro H. inversion H; subst. eexists. split; [eassumption|]. simpl. auto.
Qed.

(** A captured run of code units of one class. *)
Lemma M_group_plus (i : nat) (g : bool) (p : code_unit -> bool) (st st' : mstate) :
  Matches (Group i (Plus g (Chr p))) st st' ->
  exists c l, rest st = c :: l ++ rest st' /\ p c = true /\ forallb p l = true
              /\ caps st' = (i, c :: l) :: caps st.
Proof.
  intro H. apply M_group in H. destruct H as (st1 & H & Hr & Hcaps).
  apply M_plus_chr in H. destruct H as (c & l & Hr1 & Hc & Hl & Hcaps1).
  exists c, l. rewrite Hcaps, Hr1, Hr, Hcaps1.
  change (c :: l ++ rest st1) with ((c :: l) ++ rest st1).
  rewrite consumed_app. auto.
Qed.

Lemma M_eol (st st' : mstate) :
  Matches Eol st st' ->
  st' = st /\ (rest st = [] \/ exists c s, rest st = c :: s /\ isLineTerminator c = true).
Proof.
  intro H. inversion H; subst; split; eauto.
Qed.

Lemma M_bol (st st' : mstate) :
  Matches Bol st st' ->
  st' = st /\ (prev st = None \/ exists c, prev st = Some c /\ isLineTerminator c = true).
Proof.
  intro H. inversion H; subst; split; eauto.
Qed.

(** ** Each substitution of the formatter cuts cleanly *)

Lemma lineTerminator_cuts (c : code_unit) :
  isLineTerminator c = true -> tokenInner c = false /\ tokenNonFinal c = false.
Proof.
  unfold isLineTerminator. intro H.
  repeat (apply orb_true_iff in H; destruct H as [H|H]);
    apply N.eqb_eq in H; subst c; split; reflexivity.
Qed.



























(** ** The escaping stage *)

Lemma replace_go_single (x : code_unit) (t : jsstring) :
  forall s fuel p,
    length s < fuel ->
    replace_go (Lit [x]) (tmpl [TLit t]) fuel p s
    = flat_map (fun c => if N.eqb c x then t else [c]) s.
Proof.
  induction s as [|c s IH]; intros fuel p Hf;
    (destruct fuel as [|fuel]; [simpl in Hf; lia|]); cbn [replace_go].
  - reflexivity.
  - replace (exec (Lit [x]) p (c :: s))
      with (if N.eqb c x then Some (MState (Some c) s []) else None)
      by reflexivity.
    rewrite (IH fuel (Some c)) by (simpl in Hf; lia).
    cbn [flat_map].
    destruct (N.eqb c x); [|reflexivity].
    cbn [rest caps]. change (c :: s) with ([c] ++ s). rewrite consumed_app.
    cbn [app last]. rewrite (IH fuel (Some c)) by (simpl in Hf; lia).
    unfold tmpl. simpl. rewrite app_nil_r. reflexivity.
Qed.

Lemma replace_all_single (x : code_unit) (t s : jsstring) :
  replace_all (Lit [x]) (tmpl [TLit t]) s
  = flat_map (fun c => if N.eqb c x then t else [c]) s.
Proof.
  unfold replace_all. apply replace_go_single. lia.
Qed.

Lemma flat_map_thrice (f1 f2 f3 g : code_unit -> jsstring) (s : jsstring) :
  (forall c, flat_map f3 (flat_map f2 (f1 c)) = g c) ->
  flat_map f3 (flat_map f2 (flat_map f1 s)) = flat_map g s.
Proof.
  intro H. induction s as [|c s IH]; [reflexivity|].
  cbn [flat_map]. rewrite !flat_map_app, IH, H. reflexivity.
Qed.

(** The three escaping substitutions amount to one pass that escapes
    each code unit once. *)
Lemma escapeHtml_flat_map (text : jsstring) :
  escapeHtml text = flat_map escapeChar text.
Proof.
  unfold escapeHtml.
  change re_amp with (Lit [AMP]). change re_lt with (Lit [LT]).
  change re_gt with (Lit [GT]).
  rewrite !replace_all_single. apply flat_map_thrice.
  intro c. unfold escapeChar.
  destruct (N.eqb_spec c AMP) as [->|Ha]; [reflexivity|].
  destruct (N.eqb_spec c LT) as [->|Hl]; [reflexivity|].
  destruct (N.eqb_spec c GT) as [->|Hg]; [reflexivity|].
  apply N.eqb_neq in Hl, Hg. cbn [flat_map]. rewrite Hl.
  cbn [flat_map app]. rewrite Hg. reflexivity.
Qed.


(** ** Every stage preserves well-formedness *)














(** ** The matcher on literals and on runs of one class *)

Lemma rmatch_Lit (l : jsstring) :
  forall p s cs k,
    rmatch (Lit l) (MState p s cs) k
    = if prefixb l s
      then k (MState (lastOr p l) (skipn (length l) s) cs)
      else None.
Proof.
  induction l as [|x l IH]; intros p s cs k; simpl; [reflexivity|].
  destruct s as [|c s]; [reflexivity|].
  unfold isChar. rewrite (N.eqb_sym c x).
  destruct (N.eqb_spec x c) as [->|_]; simpl; [apply IH | reflexivity].
Qed.

Lemma rmatch_Chr_cons (P : code_unit -> bool) (p : option code_unit)
    (c : code_unit) (s : jsstring) (cs : captures) (k : cont) :
  rmatch (Chr P) (MState p (c :: s) cs) k
  = if P c then k (MState (Some c) s cs) else None.
Proof. reflexivity. Qed.

Lemma rmatch_Chr_nil (P : code_unit -> bool) (p : option code_unit)
    (cs : captures) (k : cont) :
  rmatch (Chr P) (MState p [] cs) k = None.
Proof. reflexivity. Qed.

Lemma progress_cons (p q : option code_unit) (c : code_unit) (s : jsstring)
    (cs cs' : captures) :
  progress (MState p (c :: s) cs) (MState q s cs') = true.
Proof.
  unfold progress. simpl. apply Nat.ltb_lt. lia.
Qed.

Lemma progress_cons_app (p q : option code_unit) (c : code_unit)
    (l s : jsstring) (cs cs' : captures) :
  progress (MState p (c :: l ++ s) cs) (MState q s cs') = true.
Proof.
  unfold progress. simpl. rewrite length_app. apply Nat.ltb_lt. lia.
Qed.

Lemma star_greedy_run (P : code_unit -> bool) (k : cont) (r : jsstring)
    (cs : captures) (x : mstate) :
  match r with [] => True | c :: _ => P c = false end ->
  forall l fuel p,
    forallb P l = true ->
    length (l ++ r) <= fuel ->
    k (MState (lastOr p l) r cs) = Some x ->
    star_loop (rmatch (Chr P)) true k fuel (MState p (l ++ r) cs) = Some x.
Proof.
  intros Hr l. induction l as [|c l IH]; intros fuel p Hl Hf Hk.
  - cbn [app lastOr fold_left] in *.
    destruct fuel as [|fuel]; cbn [star_loop]; [exact Hk|].
    destruct r as [|c r].
    + rewrite rmatch_Chr_nil. exact Hk.
    + rewrite rmatch_Chr_cons, Hr. exact Hk.
  - cbn [forallb] in Hl. apply andb_true_iff in Hl. destruct Hl as [Hc Hl].
    destruct fuel as [|fuel]; [simpl in Hf; lia|].
    cbn [star_loop app]. rewrite rmatch_Chr_cons, Hc, progress_cons.
    rewrite (IH fuel (Some c) Hl); [reflexivity | simpl in Hf; lia | exact Hk].
Qed.

Lemma star_lazy_run (P : code_unit -> bool) (k : cont) (r : jsstring)
    (cs : captures) (x : mstate) :
  forall l fuel p,
    forallb P l = true ->
    (forall a b q, l = a ++ b -> b <> [] -> k (MState q (b ++ r) cs) = None) ->
    length (l ++ r) <= fuel ->
    k (MState (lastOr p l) r cs) = Some x ->
    star_loop (rmatch (Chr P)) false k fuel (MState p (l ++ r) cs) = Some x.
Proof.
  intro l. induction l as [|c l IH]; intros fuel p Hl Hno Hf Hk.
  - cbn [app lastOr fold_left] in *.
    destruct fuel as [|fuel]; cbn [star_loop]; [exact Hk|].
    rewrite Hk. reflexivity.
  - cbn [forallb] in Hl. apply andb_true_iff in Hl. destruct Hl as [Hc Hl].
    destruct fuel as [|fuel]; [simpl in Hf; lia|].
    cbn [star_loop]. rewrite (Hno [] (c :: l) p eq_refl) by discriminate.
    cbn [app]. rewrite rmatch_Chr_cons, Hc, progress_cons.
    apply (IH fuel (Some c) Hl); [|simpl in Hf; lia | exact Hk].
    intros a b q E Hb. apply (Hno (c :: a) b q); [rewrite E; reflexivity | exact Hb].
Qed.

Lemma isAny_all (l : jsstring) : forallb isAny l = true.
Proof.
  induction l as [|c l IH]; simpl; [reflexivity|].
  rewrite IH. unfold isAny. rewrite orb_negb_r. reflexivity.
Qed.

Lemma prefixb_app (a s : jsstring) : prefixb a (a ++ s) = true.
Proof.
  induction a as [|x a IH]; simpl; [reflexivity|].
  rewrite N.eqb_refl. exact IH.
Qed.

Lemma skipn_app_length (a s : jsstring) : skipn (length a) (a ++ s) = s.
Proof.
  induction a as [|x a IH]; simpl; [reflexivity | exact IH].
Qed.

(** Inside fence-free content no fence starts, whatever follows the
    closing fence. *)
Lemma fenceFree_no_fence (code post : jsstring) :
  fenceFree code = true ->
  forall a b, code = a ++ b -> b <> [] ->
    prefixb (lit "```") (b ++ lit "```" ++ post) = false.
Proof.
  intros H a. revert code H. induction a as [|y a IH]; intros code H b E Hb.
  - simpl in E. subst code. destruct b as [|x b]; [contradiction|].
    simpl in H. apply andb_true_iff in H. destruct H as [H _].
    apply negb_true_iff in H.
    destruct b as [|x1 [|x2 b]]; simpl in H |- *;
      repeat rewrite andb_true_r in H; try rewrite andb_true_r; exact H.
  - subst code. simpl in H. apply andb_true_iff in H. destruct H as [_ H].
    exact (IH _ H b eq_refl Hb).
Qed.

(** ** The code-block pattern on a fenced block *)

Lemma rmatch_Seq (r1 r2 : regex) (st : mstate) (k : cont) :
  rmatch (Seq r1 r2) st k = rmatch r1 st (fun st' => rmatch r2 st' k).
Proof. reflexivity. Qed.

Lemma rmatch_Group (i : nat) (r : regex) (st : mstate) (k : cont) :
  rmatch (Group i r) st k
  = rmatch r st (fun st' =>
      k (MState (prev st') (rest st')
           ((i, consumed (rest st) (rest st')) :: caps st'))).
Proof. reflexivity. Qed.

Lemma rmatch_Star (g : bool) (r : regex) (st : mstate) (k : cont) :
  rmatch (Star g r) st k = star_loop (rmatch r) g k (length (rest st)) st.
Proof. reflexivity. Qed.

Lemma rmatch_Plus (g : bool) (r : regex) (st : mstate) (k : cont) :
  rmatch (Plus g r) st k
  = rmatch r st (fun st' => star_loop (rmatch r) g k (length (rest st')) st').
Proof. reflexivity. Qed.

Lemma rmatch_Opt (r : regex) (st : mstate) (k : cont) :
  rmatch (Opt r) st k
  = match rmatch r st (fun st' => if progress st st' then k st' else None) with
    | Some x => Some x
    | None => k st
    end.
Proof. reflexivity. Qed.

(** From the newline after the language to the closing fence: the lazy
    quantifier stops at the first fence. *)
Lemma code_block_tail (q : option code_unit) (code post : jsstring)
    (cs : captures) :
  fenceFree code = true ->
  rmatch (Seq (Chr (isChar NL))
            (Seq (Group 2 (Star false (Chr isAny))) (Lit (lit "```"))))
         (MState q (NL :: code ++ lit "```" ++ post) cs) Some
  = Some (MState (Some BACKTICK) post ((2, code) :: cs)).
Proof.
  intro Hfree.
  rewrite rmatch_Seq, rmatch_Chr_cons. change (isChar NL NL) with true.
  cbn iota. rewrite rmatch_Seq, rmatch_Group, rmatch_Star. cbn [rest].
  apply star_lazy_run.
  - apply isAny_all.
  - intros a b q' E Hb. cbn [prev rest caps]. rewrite rmatch_Lit.
    rewrite (fenceFree_no_fence code post Hfree a b E Hb). reflexivity.
  - lia.
  - cbn [prev rest caps]. rewrite rmatch_Lit, prefixb_app, skipn_app_length.
    rewrite consumed_app. reflexivity.
Qed.

Lemma fence_unfold (lang code post : jsstring) :
  fence lang code ++ post
  = lit "```" ++ lang ++ NL :: code ++ lit "```" ++ post.
Proof.
  unfold fence. rewrite <- !app_assoc. reflexivity.
Qed.

Lemma exec_fence (p : option code_unit) (lang code post : jsstring) :
  forallb isWord lang = true ->
  fenceFree code = true ->
  exec re_code_block p (fence lang code ++ post)
  = Some (MState (Some BACKTICK) post (fenceCaptures lang code)).
Proof.
  intros Hlang Hfree. unfold exec, re_code_block.
  rewrite fence_unfold, rmatch_Seq, rmatch_Lit, prefixb_app, skipn_app_length.
  rewrite rmatch_Seq, rmatch_Opt, rmatch_Group, rmatch_Plus.
  destruct lang as [|c lang].
  - cbn [app]. rewrite rmatch_Chr_cons. change (isWord NL) with false.
    cbn iota. apply code_block_tail. exact Hfree.
  - cbn [forallb] in Hlang. apply andb_true_iff in Hlang.
    destruct Hlang as [Hc Hlang].
    cbn [app]. rewrite rmatch_Chr_cons, Hc. cbn [rest].
    rewrite (star_greedy_run isWord _ (NL :: code ++ lit "```" ++ post) []
               (MState (Some BACKTICK) post (fenceCaptures (c :: lang) code)));
      [reflexivity | reflexivity | exact Hlang | lia |].
    cbn [prev rest caps]. rewrite progress_cons_app.
    change (c :: lang ++ NL :: code ++ lit "```" ++ post)
      with ((c :: lang) ++ NL :: code ++ lit "```" ++ post).
    rewrite consumed_app. apply code_block_tail. exact Hfree.
Qed.

(** ** Fuel and the preceding code unit *)

Lemma exec_shorter (r : regex) (p : option code_unit) (s : jsstring)
    (st' : mstate) :
  exec r p s = Some st' ->
  s = consumed s (rest st') ++ rest st'.
Proof.
  intro H. apply exec_sound in H.
  destruct (Matches_consumes _ _ _ H) as (m & E). simpl in E.
  rewrite E, consumed_app. reflexivity.
Qed.

(** Any fuel above the length of the input gives the same result. *)
Lemma replace_go_fuel (r : regex) (f : replacer) :
  forall n m p s,
    length s < n -> length s < m ->
    replace_go r f n p s = replace_go r f m p s.
Proof.
  induction n as [|n IH]; intros m p s Hn Hm; [lia|].
  destruct m as [|m]; [lia|]. cbn [replace_go].
  assert (Hstep :
    match s with [] => [] | c :: s' => c :: replace_go r f n (Some c) s' end
    = match s with [] => [] | c :: s' => c :: replace_go r f m (Some c) s' end).
  { destruct s as [|c s']; [reflexivity|].
    rewrite (IH m (Some c) s'); [reflexivity | simpl in Hn; lia | simpl in Hm; lia]. }
  destruct (exec r p s) as [st'|] eqn:He; [|exact Hstep].
  pose proof (exec_shorter _ _ _ _ He) as E.
  destruct (consumed s (rest st')) as [|x l]; [rewrite Hstep; reflexivity|].
  assert (Hlen : length (rest st') < length s).
  { rewrite E, length_app. simpl. lia. }
  rewrite (IH m _ (rest st')); [reflexivity | lia | lia].
Qed.

Lemma star_loop_same (b1 b2 : mstate -> cont -> option mstate) (g : bool) :
  (forall st1 st2 k1 k2,
     sameInput st1 st2 ->
     (forall a b, sameInput a b -> sameAnswer (k1 a) (k2 b)) ->
     sameAnswer (b1 st1 k1) (b2 st2 k2)) ->
  forall fuel st1 st2 k1 k2,
    sameInput st1 st2 ->
    (forall a b, sameInput a b -> sameAnswer (k1 a) (k2 b)) ->
    sameAnswer (star_loop b1 g k1 fuel st1) (star_loop b2 g k2 fuel st2).
Proof.
  intros Hb fuel. induction fuel as [|fuel IH]; intros st1 st2 k1 k2 Hst Hk.
  - simpl. apply Hk. exact Hst.
  - cbn [star_loop].
    assert (Hagain : sameAnswer
      (b1 st1 (fun st' => if progress st1 st'
                          then star_loop b1 g k1 fuel st' else None))
      (b2 st2 (fun st' => if progress st2 st'
                          then star_loop b2 g k2 fuel st' else None))).
    { apply Hb; [exact Hst|]. intros a b Hab.
      unfold progress. destruct Hst as [Hr _]. destruct Hab as [Hr' Hc'].
      rewrite Hr, Hr'.
      destruct (length (rest b) <? length (rest st2)); [|exact I].
      apply IH; [split; assumption | exact Hk]. }
    pose proof (Hk st1 st2 Hst) as Hk0.
    destruct g.
    + destruct (b1 st1 _), (b2 st2 _); try contradiction; [exact Hagain | exact Hk0].
    + destruct (k1 st1), (k2 st2); try contradiction; [exact Hk0 | exact Hagain].
Qed.

(** Without [^] the matcher does not look at the preceding code unit. *)
Lemma rmatch_same (r : regex) :
  bolFree r = true ->
  forall st1 st2 k1 k2,
    sameInput st1 st2 ->
    (forall a b, sameInput a b -> sameAnswer (k1 a) (k2 b)) ->
    sameAnswer (rmatch r st1 k1) (rmatch r st2 k2).
Proof.
  induction r as [|p|r1 IH1 r2 IH2|r IH|g r IH|g r IH|i r IH| |];
    intros Hfree st1 st2 k1 k2 Hst Hk; cbn [rmatch bolFree] in *.
  - apply Hk. exact Hst.
  - destruct Hst as [Hr Hc]. rewrite Hr.
    destruct (rest st2) as [|c s]; [exact I|].
    destruct (p c); [|exact I]. apply Hk. split; [reflexivity | exact Hc].
  - apply andb_true_iff in Hfree. destruct Hfree as [F1 F2].
    apply (IH1 F1); [exact Hst|]. intros a b Hab. apply (IH2 F2); assumption.
  - assert (Hin : sameAnswer
      (rmatch r st1 (fun st' => if progress st1 st' then k1 st' else None))
      (rmatch r st2 (fun st' => if progress st2 st' then k2 st' else None))).
    { apply (IH Hfree); [exact Hst|]. intros a b Hab.
      unfold progress. destruct Hst as [Hr _]. destruct Hab as [Hr' Hc'].
      rewrite Hr, Hr'.
      destruct (length (rest b) <? length (rest st2)); [|exact I].
      apply Hk. split; assumption. }
    pose proof (Hk st1 st2 Hst) as Hk0.
    destruct (rmatch r st1 _), (rmatch r st2 _); try contradiction;
      [exact Hin | exact Hk0].
  - destruct Hst as [Hr Hc]. rewrite Hr.
    apply star_loop_same; [apply (IH Hfree) | split; assumption | exact Hk].
  - apply (IH Hfree); [exact Hst|]. intros a b [Hr Hc]. rewrite Hr.
    apply star_loop_same; [apply (IH Hfree) | split; assumption | exact Hk].
  - apply (IH Hfree); [exact Hst|]. intros a b [Hr Hc].
    apply Hk. destruct Hst as [Hr0 _]. split; cbn [rest caps].
    + exact Hr.
    + rewrite Hr, Hr0, Hc. reflexivity.
  - discriminate Hfree.
  - pose proof (Hk st1 st2 Hst) as Hk0. destruct Hst as [Hr Hc]. rewrite Hr.
    destruct (rest st2) as [|c s]; [exact Hk0|].
    destruct (isLineTerminator c); [exact Hk0 | exact I].
Qed.

Lemma exec_same (r : regex) (p q : option code_unit) (s : jsstring) :
  bolFree r = true ->
  sameAnswer (exec r p s) (exec r q s).
Proof.
  intro Hfree. unfold exec. apply (rmatch_same r Hfree).
  - split; reflexivity.
  - intros a b Hab. exact Hab.
Qed.

Lemma replace_go_prev (r : regex) (f : replacer) :
  bolFree r = true ->
  forall fuel p q s, replace_go r f fuel p s = replace_go r f fuel q s.
Proof.
  intros Hfree fuel. induction fuel as [|fuel IH]; intros p q s; [reflexivity|].
  cbn [replace_go]. pose proof (exec_same r p q s Hfree) as H.
  destruct (exec r p s) as [a|], (exec r q s) as [b|]; try contradiction;
    [|reflexivity].
  destruct H as [Hr Hc]. rewrite Hr, Hc. reflexivity.
Qed.

(** ** The code-block stage on a text with a fenced block *)

Lemma exec_code_block_other (p : option code_unit) (c : code_unit) (s : jsstring) :
  isNot BACKTICK c = true -> exec re_code_block p (c :: s) = None.
Proof.
  intro Hc. unfold exec, re_code_block. rewrite rmatch_Seq, rmatch_Lit.
  unfold isNot in Hc. apply negb_true_iff in Hc.
  change (lit "```") with (BACKTICK :: lit "``"). cbn [prefixb].
  rewrite (N.eqb_sym BACKTICK c), Hc. reflexivity.
Qed.

(** Text without backticks is copied. *)
Lemma replace_go_copy (f : replacer) (s : jsstring) :
  forall pre fuel p,
    forallb (isNot BACKTICK) pre = true ->
    length (pre ++ s) < fuel ->
    replace_go re_code_block f fuel p (pre ++ s)
    = pre ++ replace_go re_code_block f (fuel - length pre) (lastOr p pre) s.
Proof.
  induction pre as [|c pre IH]; intros fuel p Hpre Hf.
  - cbn [app length lastOr fold_left]. rewrite Nat.sub_0_r. reflexivity.
  - cbn [forallb] in Hpre. apply andb_true_iff in Hpre. destruct Hpre as [Hc Hpre].
    destruct fuel as [|fuel]; [simpl in Hf; lia|].
    cbn [replace_go app]. rewrite (exec_code_block_other p c (pre ++ s) Hc).
    rewrite (IH fuel (Some c) Hpre) by (simpl in Hf; lia). reflexivity.
Qed.

Lemma code_block_replacer_fence (m lang code : jsstring) :
  code_block_replacer m (fenceCaptures lang code)
  = codeOpen (langOrText lang) ++ trim code ++ codeClose.
Proof.
  unfold code_block_replacer, fenceCaptures, codeOpen, codeClose, langOrText.
  destruct lang as [|c lang]; cbn [get_cap Nat.eqb];
    rewrite <- !app_assoc; reflexivity.
Qed.

Lemma codeBlocks_fence (pre lang code post : jsstring) :
  forallb (isNot BACKTICK) pre = true ->
  forallb isWord lang = true ->
  fenceFree code = true ->
  codeBlocks (pre ++ fence lang code ++ post)
  = pre ++ codeOpen (langOrText lang) ++ trim code ++ codeClose
      ++ codeBlocks post.
Proof.
  intros Hpre Hlang Hfree. unfold codeBlocks, replace_all.
  rewrite replace_go_copy by (exact Hpre || lia). f_equal.
  remember (S (length (pre ++ fence lang code ++ post)) - length pre) as fuel
    eqn:Ef.
  assert (Hfuel : fuel = S (length (fence lang code ++ post))).
  { subst fuel. rewrite length_app. lia. }
  remember (replace_go re_code_block code_block_replacer
              (S (length post)) None post) as out eqn:Eout.
  rewrite Hfuel. cbn [replace_go].
  rewrite (exec_fence _ lang code post Hlang Hfree). cbn [rest caps].
  rewrite consumed_app.
  assert (Hlen : 6 <= length (fence lang code)).
  { unfold fence. rewrite !length_app. simpl. lia. }
  destruct (fence lang code) as [|x m] eqn:Em; [simpl in Hlen; lia|].
  rewrite code_block_replacer_fence, <- !app_assoc. do 3 f_equal.
  subst out.
  rewrite (replace_go_prev re_code_block code_block_replacer eq_refl _ _ None).
  apply replace_go_fuel; [rewrite length_app; simpl; lia | lia].
Qed.

(** Escaping leaves backticks, the language and the fences as they are. *)
Lemma escapeChar_plain (c : code_unit) :
  c <> AMP -> c <> LT -> c <> GT -> escapeChar c = [c].
Proof.
  intros Ha Hl Hg. unfold escapeChar.
  apply N.eqb_neq in Ha, Hl, Hg. rewrite Ha, Hl, Hg. reflexivity.
Qed.

Lemma escape_word (l : jsstring) :
  forallb isWord l = true -> flat_map escapeChar l = l.
Proof.
  induction l as [|c l IH]; intro H; [reflexivity|].
  cbn [forallb] in H. apply andb_true_iff in H. destruct H as [Hc Hl].
  cbn [flat_map]. rewrite (IH Hl), escapeChar_plain; [reflexivity| | |];
    intro E; subst c; discriminate Hc.
Qed.

Lemma escape_no_backtick (l : jsstring) :
  forallb (isNot BACKTICK) l = true ->
  forallb (isNot BACKTICK) (flat_map escapeChar l) = true.
Proof.
  induction l as [|c l IH]; intro H; [reflexivity|].
  cbn [forallb] in H. apply andb_true_iff in H. destruct H as [Hc Hl].
  cbn [flat_map]. rewrite forallb_app, (IH Hl), andb_true_r.
  unfold escapeChar.
  destruct (N.eqb c AMP); [reflexivity|].
  destruct (N.eqb c LT); [reflexivity|].
  destruct (N.eqb c GT); [reflexivity|].
  cbn [forallb]. rewrite Hc. reflexivity.
Qed.

Lemma prefixb_cons (x c : code_unit) (a s : jsstring) :
  prefixb (x :: a) (c :: s) = (N.eqb x c && prefixb a s)%bool.
Proof. reflexivity. Qed.

Lemma escape_backticks_prefix (d : jsstring) :
  (forall c, In c d -> c = BACKTICK) ->
  forall s t, prefixb d (flat_map escapeChar s ++ t) = prefixb d (s ++ t).
Proof.
  induction d as [|x d IH]; intros Hd s t; [reflexivity|].
  assert (Hx : x = BACKTICK) by (apply Hd; left; reflexivity).
  assert (Hd' : forall c, In c d -> c = BACKTICK)
    by (intros c Hc; apply Hd; right; exact Hc).
  subst x. destruct s as [|c s]; [reflexivity|].
  cbn [flat_map]. unfold escapeChar at 1.
  destruct (N.eqb_spec c AMP) as [->|Ha]; [reflexivity|].
  destruct (N.eqb_spec c LT) as [->|Hl]; [reflexivity|].
  destruct (N.eqb_spec c GT) as [->|Hg]; [reflexivity|].
  cbn [app]. rewrite !prefixb_cons, (IH Hd' s t). reflexivity.
Qed.

Lemma escape_fenceFree (code : jsstring) :
  fenceFree code = true -> fenceFree (flat_map escapeChar code) = true.
Proof.
  induction code as [|c code IH]; intro H; [reflexivity|].
  cbn [fenceFree] in H. apply andb_true_iff in H. destruct H as [Hc Hcode].
  specialize (IH Hcode). cbn [flat_map]. unfold escapeChar at 1.
  destruct (N.eqb_spec c AMP) as [->|Ha]; [exact IH|].
  destruct (N.eqb_spec c LT) as [->|Hl]; [exact IH|].
  destruct (N.eqb_spec c GT) as [->|Hg]; [exact IH|].
  cbn [app fenceFree]. rewrite IH, andb_true_r.
  apply negb_true_iff in Hc. apply negb_true_iff.
  change (lit "```") with (BACKTICK :: [BACKTICK; BACKTICK]) in Hc |- *.
  cbn [app] in Hc |- *. rewrite prefixb_cons in Hc |- *.
  rewrite (escape_backticks_prefix [BACKTICK; BACKTICK]); [exact Hc|].
  intros x [<-|[<-|[]]]; reflexivity.
Qed.

Lemma escapeHtml_fence (pre lang code post : jsstring) :
  forallb isWord lang = true ->
  escapeHtml (pre ++ fence lang code ++ post)
  = escapeHtml pre ++ fence lang (escapeHtml code) ++ escapeHtml post.
Proof.
  intro Hlang. rewrite !escapeHtml_flat_map. unfold fence.
  rewrite !flat_map_app, (escape_word lang Hlang). reflexivity.
Qed.

(** ** Substitutions that find nothing to match *)

Lemma scan_nil (r : regex) (f : replacer) (p : option code_unit) :
  exec r p [] = None -> scan r f p [] = [].
Proof.
  intro H. unfold scan. cbn [length replace_go]. rewrite H. reflexivity.
Qed.

Lemma scan_cons (r : regex) (f : replacer) (p : option code_unit)
    (c : code_unit) (s : jsstring) :
  exec r p (c :: s) = None -> scan r f p (c :: s) = c :: scan r f (Some c) s.
Proof.
  intro H. unfold scan. cbn [length replace_go]. rewrite H. reflexivity.
Qed.

(** A run of code units at which no match starts is copied. *)
Lemma scan_class (r : regex) (f : replacer) (Q : option code_unit -> Prop)
    (P : code_unit -> bool) :
  (forall q c s, Q q -> P c = true -> exec r q (c :: s) = None /\ Q (Some c)) ->
  forall l p t,
    Q p -> forallb P l = true ->
    scan r f p (l ++ t) = l ++ scan r f (lastOr p l) t /\ Q (lastOr p l).
Proof.
  intros Hstep l. induction l as [|c l IH]; intros p t Hp Hl.
  - split; [reflexivity | exact Hp].
  - cbn [forallb] in Hl. apply andb_true_iff in Hl. destruct Hl as [Hc Hl].
    destruct (Hstep p c (l ++ t) Hp Hc) as [He Hq].
    destruct (IH (Some c) t Hq Hl) as [E Hq'].
    cbn [app]. rewrite (scan_cons _ _ _ _ _ He), E. split; [reflexivity | exact Hq'].
Qed.

Lemma scan_id (r : regex) (f : replacer) (Q : option code_unit -> Prop)
    (P : code_unit -> bool) :
  (forall q c s, Q q -> P c = true -> exec r q (c :: s) = None /\ Q (Some c)) ->
  (forall q, Q q -> exec r q [] = None) ->
  forall s p, Q p -> forallb P s = true -> scan r f p s = s.
Proof.
  intros Hstep Hend s p Hp Hs.
  destruct (scan_class r f Q P Hstep s p [] Hp Hs) as [E Hq].
  rewrite app_nil_r in E. rewrite E, (scan_nil _ _ _ (Hend _ Hq)).
  apply app_nil_r.
Qed.

Lemma opensWith_Lit (x : code_unit) (d : jsstring) : opensWith x (Lit (x :: d)).
Proof.
  intros [q s cs] k Hs. rewrite rmatch_Lit. cbn [rest] in Hs.
  destruct s as [|c s]; [reflexivity|].
  rewrite prefixb_cons. unfold isNot in Hs. apply negb_true_iff in Hs.
  rewrite (N.eqb_sym x c), Hs. reflexivity.
Qed.

Lemma opensWith_Seq (x : code_unit) (r1 r2 : regex) :
  opensWith x r1 -> opensWith x (Seq r1 r2).
Proof.
  intros H st k Hs. rewrite rmatch_Seq. apply H. exact Hs.
Qed.

Lemma opensWith_Group (x : code_unit) (i : nat) (r : regex) :
  opensWith x r -> opensWith x (Group i r).
Proof.
  intros H st k Hs. rewrite rmatch_Group. apply H. exact Hs.
Qed.

Lemma opensWith_Plus (x : code_unit) (g : bool) (r : regex) :
  opensWith x r -> opensWith x (Plus g r).
Proof.
  intros H st k Hs. rewrite rmatch_Plus. apply H. exact Hs.
Qed.

(** Where the code unit [x] does not occur, such a pattern changes
    nothing. *)
Lemma opens_class (x : code_unit) (r : regex) (f : replacer) :
  opensWith x r ->
  forall l p t,
    forallb (isNot x) l = true ->
    scan r f p (l ++ t) = l ++ scan r f (lastOr p l) t.
Proof.
  intros H l p t Hl.
  apply (scan_class r f (fun _ => True) (isNot x)); [|exact I | exact Hl].
  intros q c s _ Hc. split; [|exact I]. apply (H (MState q (c :: s) [])). exact Hc.
Qed.

Lemma opens_id (x : code_unit) (r : regex) (f : replacer) (s : jsstring) :
  opensWith x r -> forallb (isNot x) s = true -> replace_all r f s = s.
Proof.
  intros H Hs. change (scan r f None s = s).
  apply (scan_id r f (fun _ => True) (isNot x)); [| |exact I | exact Hs].
  - intros q c t _ Hc. split; [|exact I]. apply (H (MState q (c :: t) [])). exact Hc.
  - intros q _. apply (H (MState q [] [])). exact I.
Qed.

(** Off the start of a line a pattern anchored with [^] fails. *)
Lemma bol_fails (r : regex) (c : code_unit) (s : jsstring) :
  isLineTerminator c = false -> exec (Seq Bol r) (Some c) s = None.
Proof.
  intro H. unfold exec. rewrite rmatch_Seq. cbn [rmatch prev]. rewrite H.
  reflexivity.
Qed.

(** On a single line that the pattern does not match from its start, a
    pattern anchored with [^] changes nothing. *)
Lemma bol_id (r : regex) (f : replacer) (c : code_unit) (s : jsstring) :
  exec (Seq Bol r) None (c :: s) = None ->
  forallb isDot (c :: s) = true ->
  replace_all (Seq Bol r) f (c :: s) = c :: s.
Proof.
  intros H0 Hs. change (scan (Seq Bol r) f None (c :: s) = c :: s).
  rewrite (scan_cons _ _ _ _ _ H0). f_equal.
  cbn [forallb] in Hs. apply andb_true_iff in Hs. destruct Hs as [Hc Hs].
  apply (scan_id (Seq Bol r) f
           (fun q => exists c', q = Some c' /\ isLineTerminator c' = false) isDot).
  - intros q x t (c' & -> & Hc') Hx. split; [apply bol_fails; exact Hc'|].
    exists x. split; [reflexivity|]. unfold isDot in Hx.
    apply negb_true_iff in Hx. exact Hx.
  - intros q (c' & -> & Hc'). apply bol_fails. exact Hc'.
  - exists c. split; [reflexivity|]. unfold isDot in Hc.
    apply negb_true_iff in Hc. exact Hc.
  - exact Hs.
Qed.

(** ** A rendered block with inert content passes the later stages *)

Lemma forallb_weaken (P Q : code_unit -> bool) (l : jsstring) :
  (forall c, P c = true -> Q c = true) ->
  forallb P l = true -> forallb Q l = true.
Proof.
  intros H Hl. rewrite forallb_forall in Hl |- *. intros c Hc. apply H, Hl, Hc.
Qed.

Lemma word_isNot (x : code_unit) (l : jsstring) :
  isWord x = false -> forallb isWord l = true -> forallb (isNot x) l = true.
Proof.
  intro Hx. apply forallb_weaken. intros c Hc. unfold isNot.
  destruct (N.eqb_spec c x) as [->|_]; [rewrite Hx in Hc; discriminate Hc|].
  reflexivity.
Qed.

Lemma word_isDot (l : jsstring) :
  forallb isWord l = true -> forallb isDot l = true.
Proof.
  apply forallb_weaken. intros c Hc. unfold isDot.
  destruct (isLineTerminator c) eqn:E; [|reflexivity].
  destruct (lineTerminator_cuts c E) as [Hin _].
  unfold tokenInner in Hin. rewrite Hc in Hin. discriminate Hin.
Qed.

Lemma inert_parts (body : jsstring) :
  inert body = true ->
  forallb isDot body = true /\ forallb (isNot BACKTICK) body = true
  /\ forallb (isNot 42%N) body = true /\ forallb (isNot NL) body = true.
Proof.
  intro H. unfold inert in H.
  assert (Hc : forall c, In c body ->
            isDot c = true /\ isNot BACKTICK c = true /\ isNot 42%N c = true).
  { rewrite forallb_forall in H. intros c Hin. specialize (H c Hin).
    apply andb_true_iff in H. destruct H as [H H3].
    apply andb_true_iff in H. destruct H as [H1 H2]. auto. }
  repeat split; apply forallb_forall; intros c Hin;
    destruct (Hc c Hin) as (H1 & H2 & H3); try assumption.
  unfold isNot. destruct (N.eqb_spec c NL) as [->|_]; [discriminate H1|reflexivity].
Qed.

Section InertBlock.

Variables lang body : jsstring.
Hypothesis Hlang : forallb isWord lang = true.
Hypothesis Hbody : inert body = true.
Hypothesis Hescaped : forallb (isNot LT) body = true.

Local Abbreviation block := (renderedBlock lang body).

Lemma block_first (x : code_unit) :
  isWord x = false ->
  forallb (isNot x) (lit "<pre><code class=" ++ [DQUOTE] ++ lit "language-") = true ->
  forallb (isNot x) ([DQUOTE] ++ lit ">") = true ->
  forallb (isNot x) (lit "</code></pre>") = true ->
  forallb (isNot x) body = true ->
  forallb (isNot x) block = true.
Proof.
  intros Hx H1 H2 H3 H4.
  assert (E : block = (lit "<pre><code class=" ++ [DQUOTE] ++ lit "language-")
                        ++ lang ++ ([DQUOTE] ++ lit ">") ++ body
                        ++ lit "</code></pre>")
    by (unfold renderedBlock; rewrite <- !app_assoc; reflexivity).
  rewrite E. clear E.
  set (A := lit "<pre><code class=" ++ [DQUOTE] ++ lit "language-") in *.
  set (B := [DQUOTE] ++ lit ">") in *.
  rewrite !forallb_app, H1, (word_isNot x lang Hx Hlang), H2, H4, H3.
  reflexivity.
Qed.

Lemma block_isDot : forallb isDot block = true.
Proof.
  destruct (inert_parts body Hbody) as (Hd & _).
  unfold renderedBlock.
  rewrite !forallb_app, (word_isDot lang Hlang), Hd. reflexivity.
Qed.

Lemma block_head :
  block = LT :: lit "pre><code class=" ++ [DQUOTE] ++ lit "language-" ++ lang
            ++ [DQUOTE] ++ lit ">" ++ body ++ lit "</code></pre>".
Proof. reflexivity. Qed.

Lemma inlineCode_block : inlineCode block = block.
Proof.
  destruct (inert_parts body Hbody) as (_ & Hb & _).
  apply (opens_id BACKTICK).
  - apply opensWith_Seq, (opensWith_Lit BACKTICK []).
  - apply block_first; try reflexivity. exact Hb.
Qed.

Lemma headings_block : headings block = block.
Proof.
  pose proof block_isDot as Hd. unfold headings, re_heading.
  rewrite block_head in Hd |- *.
  rewrite !bol_id; reflexivity || exact Hd.
Qed.

Lemma listItems_block : listItems block = block.
Proof.
  pose proof block_isDot as Hd. unfold listItems, re_bullet, re_numbered.
  rewrite block_head in Hd |- *.
  rewrite !bol_id; reflexivity || exact Hd.
Qed.

Lemma emphasis_block : emphasis block = block.
Proof.
  destruct (inert_parts body Hbody) as (_ & _ & Hs & _).
  assert (H : forallb (isNot 42%N) block = true)
    by (apply block_first; try reflexivity; exact Hs).
  unfold emphasis.
  rewrite (opens_id 42%N re_bold);
    [|apply opensWith_Seq, (opensWith_Lit 42%N [42%N]) | exact H].
  apply (opens_id 42%N);
    [apply opensWith_Seq, (opensWith_Lit 42%N []) | exact H].
Qed.

Lemma lineBreaks_block : lineBreaks block = block.
Proof.
  destruct (inert_parts body Hbody) as (_ & _ & _ & Hn).
  assert (H : forallb (isNot NL) block = true)
    by (apply block_first; try reflexivity; exact Hn).
  unfold lineBreaks.
  rewrite (opens_id NL re_nlnl); [|apply (opensWith_Lit NL [NL]) | exact H].
  apply (opens_id NL); [apply (opensWith_Lit NL []) | exact H].
Qed.

Lemma block_chunks :
  block = [LT] ++ lit "pre>" ++ [LT]
            ++ (lit "code class=" ++ [DQUOTE] ++ lit "language-" ++ lang
                  ++ [DQUOTE] ++ lit ">" ++ body)
            ++ [LT] ++ lit "/code>" ++ [LT] ++ lit "/pre>".
Proof.
  unfold renderedBlock. rewrite <- !app_assoc. reflexivity.
Qed.

Lemma block_inside :
  forallb (isNot LT)
    (lit "code class=" ++ [DQUOTE] ++ lit "language-" ++ lang
       ++ [DQUOTE] ++ lit ">" ++ body) = true.
Proof.
  rewrite !forallb_app, (word_isNot LT lang eq_refl Hlang), Hescaped.
  reflexivity.
Qed.

(** A pattern that opens with [<] and matches at none of the four
    tags of the block copies the block. *)
Lemma block_tags (r : regex) (f : replacer) :
  opensWith LT r ->
  (forall q s, exec r q (LT :: lit "pre>" ++ s) = None) ->
  (forall q s, exec r q (LT :: lit "code class=" ++ s) = None) ->
  (forall q s, exec r q (LT :: lit "/code>" ++ s) = None) ->
  (forall q s, exec r q (LT :: lit "/pre>" ++ s) = None) ->
  forall p t, scan r f p (block ++ t) = block ++ scan r f (Some GT) t.
Proof.
  intros Ho H1 H2 H3 H4 p t. rewrite block_chunks.
  pose proof block_inside as Hin.
  set (inside := lit "code class=" ++ [DQUOTE] ++ lit "language-" ++ lang
                   ++ [DQUOTE] ++ lit ">" ++ body) in *.
  rewrite <- !app_assoc. cbn [app].
  rewrite (scan_cons _ _ _ _ _ (H1 _ _)).
  rewrite (opens_class LT r f Ho (lit "pre>")) by reflexivity.
  assert (E2 : forall q s, exec r q (LT :: inside ++ s) = None).
  { intros q s. unfold inside. rewrite <- !app_assoc. apply H2. }
  rewrite (scan_cons _ _ _ _ _ (E2 _ _)).
  rewrite (opens_class LT r f Ho inside) by exact Hin.
  rewrite (scan_cons _ _ _ _ _ (H3 _ _)).
  rewrite (opens_class LT r f Ho (lit "/code>")) by reflexivity.
  rewrite (scan_cons _ _ _ _ _ (H4 _ _)).
  rewrite (opens_class LT r f Ho (lit "/pre>")) by reflexivity.
  reflexivity.
Qed.

Lemma wrapLists_block : wrapLists block = block.
Proof.
  unfold wrapLists. change (scan re_li_run
    (tmpl [TLit (lit "<ul>"); TMatch; TLit (lit "</ul>")]) None block = block).
  rewrite <- (app_nil_r block) at 1.
  rewrite block_tags; try (intros; reflexivity).
  - rewrite scan_nil by reflexivity. apply app_nil_r.
  - apply opensWith_Plus, opensWith_Group, opensWith_Seq,
      (opensWith_Lit LT (lit "li>")).
Qed.

(** The cleanup patterns on the block inside its paragraph. *)
Lemma cleanup_tags (r : regex) (f : replacer) :
  opensWith LT r ->
  (forall q s, exec r q (LT :: lit "p>" ++ LT :: lit "pre>" ++ s) = None) ->
  (forall q s, exec r q (LT :: lit "pre>" ++ s) = None) ->
  (forall q s, exec r q (LT :: lit "code class=" ++ s) = None) ->
  (forall q s, exec r q (LT :: lit "/code>" ++ s) = None) ->
  (forall q s, exec r q (LT :: lit "/pre>" ++ s) = None) ->
  (forall q, exec r q (lit "</p>") = None) ->
  replace_all r f (wrapParagraph block) = wrapParagraph block.
Proof.
  intros Ho H0 H1 H2 H3 H4 H5.
  change (scan r f None (wrapParagraph block) = wrapParagraph block).
  unfold wrapParagraph.
  change (lit "<p>" ++ block ++ lit "</p>")
    with (LT :: lit "p>" ++ block ++ lit "</p>").
  assert (E0 : exec r None (LT :: lit "p>" ++ block ++ lit "</p>") = None).
  { rewrite block_chunks, <- !app_assoc. apply H0. }
  rewrite (scan_cons _ _ _ _ _ E0).
  rewrite (opens_class LT r f Ho (lit "p>")) by reflexivity.
  rewrite (block_tags r f Ho H1 H2 H3 H4).
  assert (E5 : lit "</p>" = LT :: lit "/p>" ++ []) by reflexivity.
  rewrite E5. rewrite E5 in H5.
  rewrite (scan_cons _ _ _ _ _ (H5 _)).
  rewrite (opens_class LT r f Ho (lit "/p>")) by reflexivity.
  rewrite scan_nil; [reflexivity|].
  apply (Ho (MState _ [] [])). exact I.
Qed.

Lemma cleanup_block : cleanup (wrapParagraph block) = wrapParagraph block.
Proof.
  unfold cleanup.
  rewrite (cleanup_tags re_empty_p); try (intros; reflexivity);
    [|apply opensWith_Seq, (opensWith_Lit LT (lit "p>"))].
  rewrite (cleanup_tags re_p_ul); try (intros; reflexivity);
    [|apply opensWith_Seq, (opensWith_Lit LT (lit "p>"))].
  apply (cleanup_tags re_ul_p); try (intros; reflexivity).
  apply opensWith_Seq, (opensWith_Lit LT (lit "/ul>")).
Qed.

(** The stages after the code blocks leave the block as it is and put
    it in the paragraph. *)
Lemma afterCodeBlocks_block :
  afterCodeBlocks block = lit "<p>" ++ block ++ lit "</p>".
Proof.
  unfold afterCodeBlocks.
  rewrite inlineCode_block, headings_block, listItems_block, wrapLists_block,
    emphasis_block, lineBreaks_block.
  apply cleanup_block.
Qed.

End InertBlock.

(** ** Fenced blocks through [formatResponse] *)

Lemma forallb_dropWhile (P q : code_unit -> bool) (s : jsstring) :
  forallb P s = true -> forallb P (dropWhile q s) = true.
Proof.
  induction s as [|c s IH]; intro H; [reflexivity|].
  cbn [dropWhile]. destruct (q c); [|exact H].
  cbn [forallb] in H. apply andb_true_iff in H. apply IH, H.
Qed.

Lemma forallb_rev (P : code_unit -> bool) (s : jsstring) :
  forallb P s = true -> forallb P (rev s) = true.
Proof.
  intro H. rewrite forallb_forall in H |- *. intros c Hc.
  apply H, in_rev, Hc.
Qed.

Lemma forallb_trim (P : code_unit -> bool) (s : jsstring) :
  forallb P s = true -> forallb P (trim s) = true.
Proof.
  intro H. unfold trim.
  apply forallb_rev, forallb_dropWhile, forallb_rev, forallb_dropWhile, H.
Qed.

Lemma escape_no_lt (s : jsstring) :
  forallb (isNot LT) (escapeHtml s) = true.
Proof.
  rewrite escapeHtml_flat_map.
  induction s as [|c s IH]; [reflexivity|].
  cbn [flat_map]. rewrite forallb_app, IH, andb_true_r.
  unfold escapeChar.
  destruct (N.eqb c AMP); [reflexivity|].
  destruct (N.eqb c LT) eqn:E; [reflexivity|].
  destruct (N.eqb c GT); [reflexivity|].
  cbn [forallb]. unfold isNot. rewrite E. reflexivity.
Qed.

Lemma langOrText_word (lang : jsstring) :
  forallb isWord lang = true -> forallb isWord (langOrText lang) = true.
Proof.
  intro H. destruct lang; [reflexivity | exact H].
Qed.

Lemma renderedBlock_tags (lang body : jsstring) :
  renderedBlock lang body = codeOpen lang ++ body ++ codeClose.
Proof.
  unfold renderedBlock, codeOpen, codeClose. rewrite <- !app_assoc. reflexivity.
Qed.

Lemma formatResponse_fence (pre lang code post : jsstring) :
  forallb (isNot BACKTICK) pre = true ->
  forallb isWord lang = true ->
  fenceFree code = true ->
  formatResponse (pre ++ fence lang code ++ post)
  = afterCodeBlocks
      (escapeHtml pre
         ++ codeOpen (langOrText lang) ++ trim (escapeHtml code) ++ codeClose
         ++ codeBlocks (escapeHtml post)).
Proof.
  intros Hpre Hlang Hfree. unfold formatResponse.
  destruct (pre ++ fence lang code ++ post) as [|c s] eqn:E.
  - apply (f_equal (@length code_unit)) in E.
    unfold fence in E. rewrite !length_app in E. simpl in E. lia.
  - rewrite <- E. unfold markup. f_equal.
    rewrite (escapeHtml_fence pre lang code post Hlang).
    apply codeBlocks_fence.
    + rewrite escapeHtml_flat_map. apply escape_no_backtick, Hpre.
    + exact Hlang.
    + rewrite escapeHtml_flat_map. apply escape_fenceFree, Hfree.
Qed.

(** C1, as stated: the content of a fenced block is open to the later
    substitutions; a newline in it becomes a line break and asterisks
    become emphasis, so the trimmed content is not in the output. *)
Lemma fenced_block_interior_is_altered :
  let code := lit "a" ++ [NL] ++ lit "*b*" ++ [NL] in
  formatResponse (fence (lit "js") code)
  = lit "<p>" ++ codeOpen (lit "js") ++ lit "a<br><em>b</em>" ++ codeClose
      ++ lit "</p>"
  /\ contains (codeOpen (lit "js") ++ trim code ++ codeClose)
       (formatResponse (fence (lit "js") code)) = false.
Proof.
  split; vm_compute; reflexivity.
Qed.

(** ** No tag of the input survives *)

Lemma prefixb_true (a s : jsstring) :
  prefixb a s = true -> exists y, s = a ++ y.
Proof.
  revert s. induction a as [|x a IH]; intros s H.
  - exists s. reflexivity.
  - destruct s as [|c s]; [discriminate H|].
    rewrite prefixb_cons in H. apply andb_true_iff in H. destruct H as [Hx Ha].
    apply N.eqb_eq in Hx. subst c. destruct (IH s Ha) as (y & ->).
    exists y. reflexivity.
Qed.



(** * Further properties *)

(** ** callAgent: the request, the result, the events *)

Lemma dropWhile_suffix (p : code_unit -> bool) (s : jsstring) :
  exists pre, s = pre ++ dropWhile p s /\ forallb p pre = true.
Proof.
  induction s as [|c s (pre & E & Hpre)]; [exists []; split; reflexivity|].
  cbn [dropWhile]. destruct (p c) eqn:Hc.
  - exists (c :: pre). cbn [app forallb]. rewrite Hc, Hpre, <- E. split; reflexivity.
  - exists []. split; reflexivity.
Qed.

Lemma dropWhile_head (p : code_unit -> bool) (s : jsstring) (c : code_unit)
    (t : jsstring) :
  dropWhile p s = c :: t -> p c = false.
Proof.
  induction s as [|x s IH]; cbn [dropWhile]; [discriminate|].
  destruct (p x) eqn:Hx; [exact IH|]. intro E. injection E as -> _. exact Hx.
Qed.

Lemma dropWhile_id (p : code_unit -> bool) (c : code_unit) (t : jsstring) :
  p c = false -> dropWhile p (c :: t) = c :: t.
Proof.
  intro H. cbn [dropWhile]. rewrite H. reflexivity.
Qed.

(** What [trim] leaves neither starts nor ends with white space. *)
Lemma trim_ends (s : jsstring) (c : code_unit) (t : jsstring) :
  trim s = c :: t ->
  isSpace c = false /\ isSpace (last (c :: t) c) = false.
Proof.
  unfold trim. intro E.
  destruct (dropWhile_suffix isSpace (rev (dropWhile isSpace s)))
    as (pre & Epre & _).
  remember (dropWhile isSpace (rev (dropWhile isSpace s))) as e eqn:Ee.
  assert (Erev : e = rev (c :: t)) by (rewrite <- E, rev_involutive; reflexivity).
  split.
  - apply (f_equal (@rev code_unit)) in Epre.
    rewrite rev_involutive, rev_app_distr, Erev, rev_involutive in Epre.
    cbn [app] in Epre. apply dropWhile_head in Epre. exact Epre.
  - destruct (exists_last (l := c :: t)) as (l' & z & El); [discriminate|].
    rewrite El, last_last. rewrite El, rev_unit in Erev.
    rewrite Erev in Ee. symmetry in Ee. apply dropWhile_head in Ee. exact Ee.
Qed.

Lemma trim_trimmed (s : jsstring) : trim (trim s) = trim s.
Proof.
  destruct (trim s) as [|c t] eqn:E; [reflexivity|].
  destruct (trim_ends s c t E) as [Hc Hl].
  unfold trim. rewrite (dropWhile_id isSpace c t Hc).
  destruct (exists_last (l := c :: t)) as (l' & z & El); [discriminate|].
  rewrite El in Hl |- *. rewrite last_last in Hl.
  rewrite rev_unit, (dropWhile_id isSpace z (rev l') Hl).
  cbn [rev]. rewrite rev_involutive. reflexivity.
Qed.

(** X1: a call that is taken on sends one POST to the endpoint of the
    client, declared as JSON, whose body holds the agent as given and
    the prompt trimmed: not empty, with no white space at either end. *)
Theorem request_carries_trimmed_prompt :
  forall (c : AgentClient) (prompt agent : jsstring),
    loading c = false ->
    validPrompt prompt = true ->
    let req := {| url := apiEndpoint c;
                  method := lit "POST";
                  contentType := lit "application/json";
                  body := VObj [(lit "prompt", VStr (trim prompt));
                                (lit "agent", VStr agent)] |} in
    callAgent_begin c prompt agent
    = ({| apiEndpoint := apiEndpoint c; loading := true |}, [Fetch req],
       InFlight req)
    /\ trim prompt <> []
    /\ trim (trim prompt) = trim prompt
    /\ (forall x t, trim prompt = x :: t ->
          isSpace x = false /\ isSpace (last (x :: t) x) = false).
Proof.
  intros c prompt agent Hidle Hvalid req. repeat split.
  - unfold callAgent_begin, req. rewrite Hidle. unfold validPrompt in Hvalid.
    destruct prompt as [|y prompt]; [discriminate Hvalid|].
    destruct (trim (y :: prompt)) eqn:Et; [discriminate Hvalid|]. reflexivity.
  - unfold validPrompt in Hvalid. intro E. rewrite E in Hvalid. discriminate.
  - apply trim_trimmed.
  - exact (proj1 (trim_ends prompt x t H)).
  - exact (proj2 (trim_ends prompt x t H)).
Qed.

Lemma request_carries_trimmed_prompt_witness :
  validPrompt (lit "  hi ") = true
  /\ callAgent_begin newAgentClient (lit "  hi ") (lit "quizTutor")
     = ({| apiEndpoint := apiEndpoint newAgentClient; loading := true |},
        [Fetch {| url := apiEndpoint newAgentClient;
                  method := lit "POST";
                  contentType := lit "application/json";
                  body := VObj [(lit "prompt", VStr (lit "hi"));
                                (lit "agent", VStr (lit "quizTutor"))] |}],
        InFlight {| url := apiEndpoint newAgentClient;
                    method := lit "POST";
                    contentType := lit "application/json";
                    body := VObj [(lit "prompt", VStr (lit "hi"));
                                  (lit "agent", VStr (lit "quizTutor"))] |}).
Proof.
  split; [reflexivity|].
  exact (proj1 (request_carries_trimmed_prompt newAgentClient (lit "  hi ")
                  (lit "quizTutor") eq_refl eq_refl)).
Defined.
Lemma client_eta (c : AgentClient) :
  loading c = false -> {| apiEndpoint := apiEndpoint c; loading := false |} = c.
Proof.
  destruct c as [ep l]. simpl. intros ->. reflexivity.
Qed.

Lemma tryBody_one_field (o : fetch_outcome) (r : result) :
  tryBody o = Normal r -> truthy (error r) = negb (truthy (response r)).
Proof.
  unfold tryBody. destruct o as [msg|status payload]; [discriminate|].
  destruct (negb (ok status)); [discriminate|].
  destruct payload as [msg|data]; [discriminate|]. cbn [bind].
  destruct (get_prop data (lit "error")) as [err|e]; [|discriminate]. cbn [bind].
  destruct (truthy err) eqn:Herr.
  - intro E. injection E as <-. cbn [error response]. rewrite Herr. reflexivity.
  - destruct (get_prop data (lit "response")) as [resp|e]; [|discriminate].
    cbn [bind]. intro E. injection E as <-. cbn [error response].
    destruct (truthy resp) eqn:Hresp; [rewrite Hresp|]; reflexivity.
Qed.

(** X2: whatever the state of the client, the prompt and the answer of
    the network, exactly one of the two fields of the result is truthy:
    an error comes with an empty response, a response with an empty
    error, and a reply without response gets the fallback text. *)
Theorem result_has_one_meaningful_field :
  forall (c : AgentClient) (prompt agent : jsstring) (o : fetch_outcome),
    let r := snd (callAgent c prompt agent o) in
    truthy (error r) = negb (truthy (response r)).
Proof.
  intros c prompt agent o. unfold callAgent, callAgent_begin.
  destruct (loading c); [reflexivity|].
  destruct prompt as [|x prompt]; [reflexivity|].
  destruct (trim (x :: prompt)); [reflexivity|].
  unfold callAgent_resume.
  destruct (tryBody o) as [r|e] eqn:E; cbn [snd]; [|reflexivity].
  exact (tryBody_one_field o r E).
Qed.

(** X3: a call issues one request when the client is idle and the
    prompt valid, and none otherwise. *)
Theorem one_fetch_per_accepted_call :
  forall (c : AgentClient) (prompt agent : jsstring) (o : fetch_outcome),
    fetches (snd (fst (callAgent c prompt agent o)))
    = if (negb (loading c) && validPrompt prompt)%bool then 1 else 0.
Proof.
  intros c prompt agent o. unfold callAgent, callAgent_begin, validPrompt.
  destruct (loading c); [reflexivity|].
  destruct prompt as [|x prompt]; [reflexivity|].
  destruct (trim (x :: prompt)); [reflexivity|].
  unfold callAgent_resume. destruct (tryBody o); reflexivity.
Qed.

Lemma callAgent_restores (c : AgentClient) (prompt agent : jsstring)
    (o : fetch_outcome) :
  loading c = false -> fst (fst (callAgent c prompt agent o)) = c.
Proof.
  intro Hidle. unfold callAgent, callAgent_begin. rewrite Hidle.
  destruct prompt as [|x prompt]; [reflexivity|].
  destruct (trim (x :: prompt)); [reflexivity|].
  unfold callAgent_resume. destruct (tryBody o); cbn [fst apiEndpoint];
    apply client_eta; exact Hidle.
Qed.

(** X4: a call that has settled leaves an idle client exactly as it
    was, so that calls made one after the other do not influence each
    other: the second behaves as if the first had never been made. *)
Theorem settled_calls_do_not_interfere :
  forall (c : AgentClient) (p1 a1 p2 a2 : jsstring) (o1 o2 : fetch_outcome),
    loading c = false ->
    fst (fst (callAgent c p1 a1 o1)) = c
    /\ callAgent (fst (fst (callAgent c p1 a1 o1))) p2 a2 o2
       = callAgent c p2 a2 o2.
Proof.
  intros c p1 a1 p2 a2 o1 o2 Hidle.
  rewrite (callAgent_restores c p1 a1 o1 Hidle). split; reflexivity.
Qed.

Lemma settled_calls_do_not_interfere_witness :
  callAgent (fst (fst (callAgent newAgentClient (lit "one") (lit "quizTutor")
                         (FetchRejects (lit "offline")))))
            (lit "two") (lit "quizTutor") (FetchResolves 500 (JsonRejects []))
  = callAgent newAgentClient (lit "two") (lit "quizTutor")
      (FetchResolves 500 (JsonRejects [])).
Proof.
  exact (proj2 (settled_calls_do_not_interfere newAgentClient
                  (lit "one") (lit "quizTutor") (lit "two") (lit "quizTutor")
                  (FetchRejects (lit "offline"))
                  (FetchResolves 500 (JsonRejects [])) eq_refl)).
Defined.

(** X5: a 2xx answer whose body is the JSON value [null] is reported as
    a connection failure: reading its [error] property throws, and the
    TypeError goes to the console. *)
Theorem null_body_is_a_connection_error :
  forall (c : AgentClient) (status : Z),
    ok status = true ->
    callAgent_resume c (FetchResolves status (JsonResolves VNull))
    = ({| apiEndpoint := apiEndpoint c; loading := false |},
       [ConsoleError TypeError], connectResult).
Proof.
  intros c status Hok. unfold callAgent_resume, tryBody. rewrite Hok. reflexivity.
Qed.

Lemma null_body_is_a_connection_error_witness :
  callAgent_resume newAgentClient (FetchResolves 200 (JsonResolves VNull))
  = (newAgentClient, [ConsoleError TypeError], connectResult).
Proof.
  exact (null_body_is_a_connection_error newAgentClient 200 eq_refl).
Defined.

(** ** copyToClipboard *)

Lemma list_max_bound (l : list nat) (n : nat) : In n l -> n <= list_max l.
Proof.
  induction l as [|x l IH]; [intros []|].
  change (list_max (x :: l)) with (Nat.max x (list_max l)).
  intros [->|H]; [lia|]. specialize (IH H). lia.
Qed.

(** Appending a new node and removing it gives the children back. *)
Lemma remove_appended (text : jsstring) (children : list element) :
  let e := {| nodeId := freshId children; value := text |} in
  removeChild e (appendChild e children) = children.
Proof.
  intro e. unfold removeChild, appendChild. rewrite filter_app.
  cbn [filter nodeId e]. rewrite Nat.eqb_refl. cbn [negb]. rewrite app_nil_r.
  apply forallb_filter_id. apply forallb_forall. intros x Hx.
  apply negb_true_iff, Nat.eqb_neq. unfold freshId.
  pose proof (list_max_bound (List.map nodeId children) (nodeId x)
                (in_map nodeId children x Hx)). lia.
Qed.

(** X6: the promise of [copyToClipboard] never resolves to [false]: it
    resolves to [true] or it rejects.  It rejects exactly when the
    clipboard API is missing or rejects and then the document has no
    body or [execCommand] throws; the clipboard is untouched then, and
    where [execCommand] threw the textarea with the text is left as the
    last child of the body.  When the promise resolves the children of
    the body are as they were, and the clipboard holds the text if
    either way of copying went through and its old content if not. *)
Theorem copy_resolves_true_or_rejects :
  forall (text : jsstring) (pg : page) (w : write_outcome) (x : copy_outcome),
    let out := copyToClipboard text pg w x in
    snd out <> Resolves false
    /\ (snd out = Rejects
        <-> w <> WriteResolves /\ (documentBody pg = None \/ x = CopyThrows))
    /\ (snd out = Resolves true ->
        documentBody (fst out) = documentBody pg
        /\ clipboard (fst out)
           = match w, x with
             | WriteResolves, _ | _, CopyDone => text
             | _, _ => clipboard pg
             end)
    /\ (snd out = Rejects ->
        clipboard (fst out) = clipboard pg
        /\ documentBody (fst out)
           = option_map
               (fun children =>
                  children ++ [{| nodeId := freshId children; value := text |}])
               (documentBody pg)).
Proof.
  intros text pg w x out. subst out. unfold copyToClipboard.
  destruct pg as [[children|] clip]; cbn [documentBody clipboard];
    destruct w, x; cbn [fst snd documentBody clipboard value option_map];
    repeat split;
    try discriminate;
    try (intros [_ [H|H]]; discriminate H);
    try (intros [H _]; exfalso; apply H; reflexivity);
    try (intros _; split; [discriminate | auto]);
    try (intros _; f_equal; apply remove_appended);
    try (f_equal; apply remove_appended);
    auto.
Qed.

Lemma copy_resolves_true_or_rejects_witness :
  let pg := {| documentBody := Some []; clipboard := lit "old" |} in
  copyToClipboard (lit "new") pg WriteRejects CopyThrows
  = ({| documentBody := Some [{| nodeId := 1; value := lit "new" |}];
        clipboard := lit "old" |}, Rejects).
Proof.
  intro pg.
  pose proof (copy_resolves_true_or_rejects (lit "new") pg WriteRejects
                CopyThrows) as H.
  cbv zeta in H. destruct H as (_ & Hrej & _ & Hleft).
  assert (Hr : snd (copyToClipboard (lit "new") pg WriteRejects CopyThrows)
               = Rejects)
    by (apply Hrej; split; [discriminate | right; reflexivity]).
  destruct (Hleft Hr) as [Hclip Hbody].
  destruct (copyToClipboard (lit "new") pg WriteRejects CopyThrows)
    as [[b cl] r].
  cbn [fst snd documentBody clipboard] in Hr, Hclip, Hbody. subst. reflexivity.
Defined.

(** ** The escaping stage on its own *)

Lemma escapeChar_cases (c : code_unit) :
  (isSpecial c = false /\ escapeChar c = [c])
  \/ (c = AMP /\ escapeChar c = lit "&amp;")
  \/ (c = LT /\ escapeChar c = lit "&lt;")
  \/ (c = GT /\ escapeChar c = lit "&gt;").
Proof.
  unfold escapeChar, isSpecial.
  destruct (N.eqb_spec c AMP) as [->|Ha]; [auto|].
  destruct (N.eqb_spec c LT) as [->|Hl]; [auto|].
  destruct (N.eqb_spec c GT) as [->|Hg]; [auto 6|].
  left. split; reflexivity.
Qed.

Lemma plain_not_amp (c : code_unit) : isSpecial c = false -> c <> AMP.
Proof.
  intros H ->. discriminate H.
Qed.

(** X7: escaping loses nothing: two texts with the same escaped form
    are the same text. *)
Theorem escapeHtml_injective :
  forall a b : jsstring, escapeHtml a = escapeHtml b -> a = b.
Proof.
  intros a b. rewrite !escapeHtml_flat_map. revert b.
  induction a as [|c a IH]; intros [|d b] E; cbn [flat_map] in E.
  - reflexivity.
  - exfalso.
    destruct (escapeChar_cases d) as [[_ Ed]|[[_ Ed]|[[_ Ed]|[_ Ed]]]];
      rewrite Ed in E; discriminate E.
  - exfalso.
    destruct (escapeChar_cases c) as [[_ Ec]|[[_ Ec]|[[_ Ec]|[_ Ec]]]];
      rewrite Ec in E; discriminate E.
  - destruct (escapeChar_cases c) as [[Hc Ec]|[[Hc Ec]|[[Hc Ec]|[Hc Ec]]]];
      destruct (escapeChar_cases d) as [[Hd Ed]|[[Hd Ed]|[[Hd Ed]|[Hd Ed]]]];
      rewrite Ec, Ed in E; subst;
      try discriminate E;
      try (injection E as E; rewrite (IH b E); reflexivity);
      try (injection E as -> E; rewrite (IH b E); reflexivity);
      try (exfalso; injection E as E _; subst; discriminate);
      try (exfalso; injection E as E _; apply (plain_not_amp _ Hc); exact E);
      try (exfalso; injection E as E _; apply (plain_not_amp _ Hd);
           symmetry; exact E).
Qed.

Lemma escapeHtml_injective_witness :
  escapeHtml (lit "a<b") = escapeHtml (lit "a" ++ [LT] ++ lit "b")
  /\ lit "a<b" = lit "a" ++ [LT] ++ lit "b".
Proof.
  split; [reflexivity|].
  exact (escapeHtml_injective (lit "a<b") (lit "a" ++ [LT] ++ lit "b") eq_refl).
Defined.

Lemma escape_length (t : jsstring) :
  length t <= length (flat_map escapeChar t).
Proof.
  induction t as [|c t IH]; [reflexivity|].
  cbn [flat_map]. rewrite length_app.
  destruct (escapeChar_cases c) as [[_ Ec]|[[_ Ec]|[[_ Ec]|[_ Ec]]]];
    rewrite Ec; simpl; lia.
Qed.

Lemma escape_plain (t : jsstring) :
  forallb (fun c => negb (isSpecial c)) t = true -> flat_map escapeChar t = t.
Proof.
  induction t as [|c t IH]; [reflexivity|]. cbn [forallb flat_map]. intro H.
  apply andb_true_iff in H. destruct H as [Hc Ht]. apply negb_true_iff in Hc.
  destruct (escapeChar_cases c) as [[_ Ec]|[[-> _]|[[-> _]|[-> _]]]];
    try discriminate Hc.
  rewrite Ec, (IH Ht). reflexivity.
Qed.

Lemma escape_fixed (t : jsstring) :
  flat_map escapeChar t = t -> forallb (fun c => negb (isSpecial c)) t = true.
Proof.
  induction t as [|c t IH]; [reflexivity|]. cbn [forallb flat_map]. intro E.
  pose proof (escape_length t) as Hlen.
  destruct (escapeChar_cases c) as [[Hc Ec]|[[_ Ec]|[[_ Ec]|[_ Ec]]]];
    rewrite Ec in E;
    try (exfalso; apply (f_equal (@length code_unit)) in E;
         rewrite length_app in E; simpl in E; lia).
  injection E as E. rewrite Hc, (IH E). reflexivity.
Qed.

Lemma escape_has_amp (t : jsstring) :
  forallb (fun c => negb (isSpecial c)) (flat_map escapeChar t) = true ->
  forallb (fun c => negb (isSpecial c)) t = true.
Proof.
  induction t as [|c t IH]; [reflexivity|]. cbn [forallb flat_map].
  rewrite forallb_app. intro H. apply andb_true_iff in H. destruct H as [Hc Ht].
  rewrite (IH Ht), andb_true_r.
  destruct (escapeChar_cases c) as [[Hp _]|[[_ Ec]|[[_ Ec]|[_ Ec]]]];
    [rewrite Hp; reflexivity| | |]; rewrite Ec in Hc; discriminate Hc.
Qed.

(** X8: escaping leaves a text as it is exactly when the text holds
    none of [&], [<], [>]; and escaping twice gives the same as escaping
    once for exactly those texts: any text that holds one of the three
    is escaped again. *)
Theorem escapeHtml_unchanged_iff :
  forall t : jsstring,
    (escapeHtml t = t <-> forallb (fun c => negb (isSpecial c)) t = true)
    /\ (escapeHtml (escapeHtml t) = escapeHtml t
        <-> forallb (fun c => negb (isSpecial c)) t = true).
Proof.
  intro t. rewrite !escapeHtml_flat_map. split; split.
  - apply escape_fixed.
  - apply escape_plain.
  - intro E. apply escape_has_amp, escape_fixed, E.
  - intro H. rewrite (escape_plain t H). apply escape_plain, H.
Qed.

(** ** No line feed in the output *)

Lemma replace_go_forallb (P : code_unit -> bool) (r : regex) (f : replacer) :
  (forall m cs, forallb P (f m cs) = true) ->
  forall fuel p s,
    forallb P s = true -> forallb P (replace_go r f fuel p s) = true.
Proof.
  intros Hf fuel. induction fuel as [|fuel IH]; intros p s Hs; [exact Hs|].
  cbn [replace_go].
  assert (Hstep : forallb P
            match s with
            | [] => []
            | c :: s' => c :: replace_go r f fuel (Some c) s'
            end = true).
  { destruct s as [|c s']; [reflexivity|]. cbn [forallb] in Hs |- *.
    apply andb_true_iff in Hs. destruct Hs as [Hc Hs'].
    rewrite Hc, (IH (Some c) s' Hs'). reflexivity. }
  destruct (exec r p s) as [st'|] eqn:He; [|exact Hstep].
  pose proof (exec_shorter r p s st' He) as E.
  destruct (consumed s (rest st')) as [|x m].
  - rewrite forallb_app, Hf, Hstep. reflexivity.
  - rewrite forallb_app, Hf. apply IH.
    rewrite E, forallb_app in Hs. apply andb_true_iff in Hs. apply Hs.
Qed.

Lemma lineBreaks_no_newline (s : jsstring) :
  forallb (isNot NL) (lineBreaks s) = true.
Proof.
  unfold lineBreaks. change re_nl with (Lit [NL]). rewrite replace_all_single.
  induction (replace_all re_nlnl (tmpl [TLit (lit "</p><p>")]) s) as [|c t IH];
    [reflexivity|].
  cbn [flat_map]. rewrite forallb_app, IH, andb_true_r.
  destruct (N.eqb c NL) eqn:E; [reflexivity|].
  cbn [forallb]. unfold isNot. rewrite E. reflexivity.
Qed.

(** X9: the output never holds a line feed: each one left by the
    earlier stages becomes a [br] tag or part of a paragraph boundary,
    and nothing after that writes one. *)
Theorem output_has_no_line_feed :
  forall text : jsstring, forallb (isNot NL) (formatResponse text) = true.
Proof.
  intro text. unfold formatResponse. destruct text as [|c text]; [reflexivity|].
  unfold markup, afterCodeBlocks, cleanup, replace_all.
  repeat (apply replace_go_forallb; [intros m cs; reflexivity|]).
  unfold wrapParagraph. rewrite !forallb_app, lineBreaks_no_newline. reflexivity.
Qed.

(** ** Text without markup *)

Lemma ordinary_parts (t : jsstring) :
  plainText t = true ->
  forallb isDot t = true /\ forallb (isNot BACKTICK) t = true
  /\ forallb (isNot 42%N) t = true /\ forallb (isNot NL) t = true
  /\ forallb (isNot LT) t = true
  /\ forallb (fun c => negb (isSpecial c)) t = true.
Proof.
  intro H. unfold plainText in H.
  assert (Hc : forall c, In c t ->
            isDot c = true /\ isNot BACKTICK c = true /\ isNot 42%N c = true
            /\ isSpecial c = false).
  { rewrite forallb_forall in H. intros c Hin. specialize (H c Hin).
    unfold ordinary in H.
    apply andb_true_iff in H. destruct H as [H H4].
    apply andb_true_iff in H. destruct H as [H H3].
    apply andb_true_iff in H. destruct H as [H1 H2].
    apply negb_true_iff in H4. auto. }
  repeat split; apply forallb_forall; intros c Hin;
    destruct (Hc c Hin) as (H1 & H2 & H3 & H4); try assumption.
  - unfold isNot. destruct (N.eqb_spec c NL) as [->|_]; [discriminate H1|reflexivity].
  - unfold isNot. destruct (N.eqb_spec c LT) as [->|_]; [discriminate H4|reflexivity].
  - rewrite H4. reflexivity.
Qed.

Lemma opensWith_code_block : opensWith BACKTICK re_code_block.
Proof.
  apply opensWith_Seq, (opensWith_Lit BACKTICK (lit "``")).
Qed.

(** A pattern anchored with [^] fails where what follows [^] fails. *)
Lemma bol_fails_on (r : regex) (p : option code_unit) (s : jsstring) :
  (forall q k, rmatch r (MState q s []) k = None) ->
  exec (Seq Bol r) p s = None.
Proof.
  intro H. unfold exec. rewrite rmatch_Seq. cbn [rmatch prev].
  destruct p as [c|]; [destruct (isLineTerminator c); [apply H | reflexivity]|].
  apply H.
Qed.

Lemma line_needs_opener (x : code_unit) (d : jsstring)
    (r : regex) (c : code_unit) (s : jsstring) (p : option code_unit) :
  isNot x c = true ->
  exec (Seq Bol (Seq (Lit (x :: d)) r)) p (c :: s) = None.
Proof.
  intro Hc. apply bol_fails_on. intros q k.
  apply (opensWith_Seq x (Lit (x :: d)) r (opensWith_Lit x d)). exact Hc.
Qed.

Lemma numbered_needs_digit (c : code_unit) (s : jsstring) (p : option code_unit) :
  isDigit c = false -> exec re_numbered p (c :: s) = None.
Proof.
  intro Hc. unfold re_numbered. apply bol_fails_on. intros q k.
  rewrite rmatch_Seq, rmatch_Group, rmatch_Plus, rmatch_Chr_cons, Hc.
  reflexivity.
Qed.

Lemma lineOpener_parts (c : code_unit) :
  lineOpener c = false ->
  isNot 35%N c = true /\ isNot 45%N c = true /\ isDigit c = false.
Proof.
  unfold lineOpener, isNot. intro H.
  apply orb_false_iff in H. destruct H as [H H3].
  apply orb_false_iff in H. destruct H as [H1 H2].
  rewrite H1, H2. auto.
Qed.

(** Up to the paragraph: text without markup that does not open like a
    heading or a list item passes every stage unchanged. *)
Lemma plain_before_paragraph (c : code_unit) (t : jsstring) :
  plainText (c :: t) = true ->
  lineOpener c = false ->
  lineBreaks (emphasis (wrapLists (listItems (headings (inlineCode
    (codeBlocks (escapeHtml (c :: t)))))))) = c :: t.
Proof.
  intros Hplain Hopen.
  destruct (ordinary_parts _ Hplain) as (Hdot & Hbt & Hstar & Hnl & Hlt & Hsp).
  destruct (lineOpener_parts c Hopen) as (Hhash & Hdash & Hdigit).
  rewrite escapeHtml_flat_map, (escape_plain _ Hsp).
  unfold codeBlocks. rewrite (opens_id BACKTICK _ _ _ opensWith_code_block Hbt).
  unfold inlineCode.
  rewrite (opens_id BACKTICK re_inline_code);
    [|apply opensWith_Seq, (opensWith_Lit BACKTICK []) | exact Hbt].
  unfold headings, re_heading.
  rewrite !bol_id;
    try exact Hdot;
    try (apply (line_needs_opener 35%N); exact Hhash).
  unfold listItems, re_bullet.
  rewrite bol_id;
    [|apply (line_needs_opener 45%N); exact Hdash | exact Hdot].
  unfold re_numbered at 1.
  rewrite bol_id; [|apply numbered_needs_digit; exact Hdigit | exact Hdot].
  unfold wrapLists.
  rewrite (opens_id LT re_li_run);
    [|apply opensWith_Plus, opensWith_Group, opensWith_Seq,
        (opensWith_Lit LT (lit "li>")) | exact Hlt].
  unfold emphasis.
  rewrite (opens_id 42%N re_bold);
    [|apply opensWith_Seq, (opensWith_Lit 42%N [42%N]) | exact Hstar].
  rewrite (opens_id 42%N re_italic);
    [|apply opensWith_Seq, (opensWith_Lit 42%N []) | exact Hstar].
  unfold lineBreaks.
  rewrite (opens_id NL re_nlnl); [|apply (opensWith_Lit NL [NL]) | exact Hnl].
  apply (opens_id NL); [apply (opensWith_Lit NL []) | exact Hnl].
Qed.

(** The first [<] of a string is where it is. *)
Lemma first_lt (a b x y : jsstring) :
  forallb (isNot LT) a = true -> forallb (isNot LT) b = true ->
  a ++ LT :: x = b ++ LT :: y -> a = b /\ x = y.
Proof.
  revert b. induction a as [|c a IH]; intros [|d b] Ha Hb E.
  - injection E as E. auto.
  - exfalso. cbn [app] in E. injection E as E _. subst d. discriminate Hb.
  - exfalso. cbn [app] in E. injection E as E _. subst c. discriminate Ha.
  - cbn [app] in E. injection E as -> E. cbn [forallb] in Ha, Hb.
    apply andb_true_iff in Ha, Hb. destruct Ha as [_ Ha]. destruct Hb as [_ Hb].
    destruct (IH b Ha Hb E) as [-> ->]. auto.
Qed.

Lemma space_not_lt (ws : jsstring) :
  forallb isSpace ws = true -> forallb (isNot LT) ws = true.
Proof.
  apply forallb_weaken. intros c Hc. unfold isNot.
  destruct (N.eqb_spec c LT) as [->|_]; [discriminate Hc | reflexivity].
Qed.

(** What [/<p>\s*b/] needs at the start of a paragraph: white space
    only up to the first [<], and [b] there. *)
Lemma paragraph_opening (b x : jsstring) (r' : jsstring) (p : option code_unit)
    (st' : mstate) :
  forallb (isNot LT) x = true ->
  exec (Seq (Lit (lit "<p>")) (Seq (Star true (Chr isSpace)) (Lit (LT :: b))))
       p (lit "<p>" ++ x ++ LT :: r') = Some st' ->
  forallb isSpace x = true /\ exists y, r' = b ++ y.
Proof.
  intros Hx He. apply exec_sound in He.
  apply M_seq in He. destruct He as (st1 & H1 & He).
  apply M_seq in He. destruct He as (st2 & H2 & H3).
  apply M_lit in H1. destruct H1 as [E1 _]. cbn [rest] in E1.
  apply app_inv_head in E1.
  apply M_star_chr in H2. destruct H2 as (ws & E2 & Hws & _).
  apply M_lit in H3. destruct H3 as [E3 _].
  rewrite <- E1, E3 in E2. cbn [app] in E2.
  destruct (first_lt x ws r' (b ++ rest st') Hx (space_not_lt ws Hws) E2)
    as [-> ->].
  split; [exact Hws | eexists; reflexivity].
Qed.

(** A pattern that opens with [<] and matches neither at the start of
    the paragraph nor at its end leaves a paragraph of text without
    [<] as it is. *)
Lemma paragraph_scan (r : regex) (f : replacer) (x : jsstring) :
  opensWith LT r ->
  exec r None (lit "<p>" ++ x ++ lit "</p>") = None ->
  (forall q, exec r q (lit "</p>") = None) ->
  forallb (isNot LT) x = true ->
  replace_all r f (wrapParagraph x) = wrapParagraph x.
Proof.
  intros Ho H0 H1 Hx. change (scan r f None (wrapParagraph x) = wrapParagraph x).
  unfold wrapParagraph.
  change (lit "<p>" ++ x ++ lit "</p>") with (LT :: lit "p>" ++ x ++ lit "</p>")
    in H0 |- *.
  rewrite (scan_cons _ _ _ _ _ H0).
  rewrite (opens_class LT r f Ho (lit "p>")) by reflexivity.
  rewrite (opens_class LT r f Ho x) by exact Hx.
  assert (E : lit "</p>" = LT :: lit "/p>" ++ []) by reflexivity.
  rewrite E. rewrite E in H1.
  rewrite (scan_cons _ _ _ _ _ (H1 _)).
  rewrite (opens_class LT r f Ho (lit "/p>")) by reflexivity.
  rewrite scan_nil; [reflexivity|]. apply (Ho (MState _ [] [])). exact I.
Qed.

Lemma cleanup_plain (x : jsstring) :
  forallb (isNot LT) x = true ->
  forallb isSpace x = false ->
  cleanup (wrapParagraph x) = wrapParagraph x.
Proof.
  intros Hx Hblank. unfold cleanup.
  rewrite (paragraph_scan re_empty_p); try (intros; reflexivity); try exact Hx.
  - rewrite (paragraph_scan re_p_ul); try (intros; reflexivity); try exact Hx.
    + apply (paragraph_scan re_ul_p); try (intros; reflexivity); try exact Hx.
      apply opensWith_Seq, (opensWith_Lit LT (lit "/ul>")).
    + apply opensWith_Seq, (opensWith_Lit LT (lit "p>")).
    + destruct (exec re_p_ul None (lit "<p>" ++ x ++ lit "</p>")) as [st'|] eqn:E;
        [|reflexivity].
      exfalso.
      destruct (paragraph_opening (lit "ul>") x (lit "/p>") None st' Hx E)
        as (_ & y & Ey).
      discriminate Ey.
  - apply opensWith_Seq, (opensWith_Lit LT (lit "p>")).
  - destruct (exec re_empty_p None (lit "<p>" ++ x ++ lit "</p>")) as [st'|] eqn:E;
      [|reflexivity].
    exfalso.
    destruct (paragraph_opening (lit "/p>") x (lit "/p>") None st' Hx E)
      as (Hws & _).
    rewrite Hws in Hblank. discriminate Hblank.
Qed.

(** X10: text without markup (no line terminator, backtick, asterisk,
    [&], [<], [>]) that is not white space only and does not begin with
    [#], [-] or a digit comes out unchanged inside one paragraph. *)
Theorem plain_text_in_paragraph :
  forall (c : code_unit) (t : jsstring),
    plainText (c :: t) = true ->
    lineOpener c = false ->
    forallb isSpace (c :: t) = false ->
    formatResponse (c :: t) = lit "<p>" ++ (c :: t) ++ lit "</p>".
Proof.
  intros c t Hplain Hopen Hblank.
  unfold formatResponse, markup, afterCodeBlocks.
  rewrite (plain_before_paragraph c t Hplain Hopen).
  destruct (ordinary_parts _ Hplain) as (_ & _ & _ & _ & Hlt & _).
  apply (cleanup_plain (c :: t) Hlt Hblank).
Qed.

Lemma plain_text_in_paragraph_witness :
  plainText (lit "Hello, world") = true
  /\ formatResponse (lit "Hello, world") = lit "<p>Hello, world</p>".
Proof.
  split; [reflexivity|].
  exact (plain_text_in_paragraph 72%N (lit "ello, world") eq_refl eq_refl eq_refl).
Defined.

Lemma whiteSpace_ordinary (t : jsstring) :
  forallb isWhiteSpace t = true ->
  plainText t = true /\ forallb isSpace t = true
  /\ forall c t', t = c :: t' -> lineOpener c = false.
Proof.
  intro H. rewrite forallb_forall in H. repeat split.
  - apply forallb_forall. intros c Hc. specialize (H c Hc).
    unfold isWhiteSpace in H.
    repeat (apply orb_true_iff in H; destruct H as [H|H]);
      try (apply N.eqb_eq in H; subst c; reflexivity).
    unfold in_range in H. apply andb_true_iff in H. destruct H as [H1 H2].
    apply N.leb_le in H1, H2. unfold ordinary, isDot, isLineTerminator, isNot,
      isSpecial, BACKTICK, AMP, LT, GT.
    repeat match goal with
           | |- context [N.eqb c ?k] =>
               destruct (N.eqb_spec c k) as [->|_]; [exfalso; lia|]
           end.
    reflexivity.
  - apply forallb_forall. intros c Hc. unfold isSpace. rewrite (H c Hc).
    reflexivity.
  - intros c t' ->. specialize (H c (or_introl eq_refl)).
    unfold isWhiteSpace in H.
    repeat (apply orb_true_iff in H; destruct H as [H|H]);
      try (apply N.eqb_eq in H; subst c; reflexivity).
    unfold in_range in H. apply andb_true_iff in H. destruct H as [H1 H2].
    apply N.leb_le in H1, H2. unfold lineOpener, isDigit, in_range.
    destruct (N.eqb_spec c 35) as [->|_]; [exfalso; lia|].
    destruct (N.eqb_spec c 45) as [->|_]; [exfalso; lia|].
    destruct (N.leb_spec c 57); [exfalso; lia|].
    rewrite andb_false_r. reflexivity.
Qed.

Lemma empty_paragraph_matches (ws : jsstring) :
  forallb isSpace ws = true ->
  exec re_empty_p None (lit "<p>" ++ ws ++ lit "</p>")
  = Some (MState (Some GT) [] []).
Proof.
  intro Hws. unfold exec, re_empty_p.
  rewrite rmatch_Seq, rmatch_Lit, prefixb_app, skipn_app_length.
  rewrite rmatch_Seq, rmatch_Star. cbn [rest].
  apply (star_greedy_run isSpace _ (lit "</p>") [] _ eq_refl ws); [exact Hws | lia|].
  reflexivity.
Qed.

(** X11: text made of white space only (blanks, tabs and the like, no
    line terminator) comes out as the empty string: its paragraph is
    removed by the cleanup. *)
Theorem blank_text_is_dropped :
  forall (c : code_unit) (t : jsstring),
    forallb isWhiteSpace (c :: t) = true ->
    formatResponse (c :: t) = [].
Proof.
  intros c t Hws.
  destruct (whiteSpace_ordinary _ Hws) as (Hplain & Hspace & Hopen).
  unfold formatResponse, markup, afterCodeBlocks.
  rewrite (plain_before_paragraph c t Hplain (Hopen c t eq_refl)).
  unfold cleanup, wrapParagraph.
  assert (E : replace_all re_empty_p (tmpl [])
                (lit "<p>" ++ (c :: t) ++ lit "</p>") = []).
  { unfold replace_all. cbn [replace_go].
    rewrite (empty_paragraph_matches (c :: t) Hspace). cbn [rest caps].
    unfold consumed. cbn [length]. rewrite Nat.sub_0_r, firstn_all.
    reflexivity. }
  rewrite E. reflexivity.
Qed.

Lemma blank_text_is_dropped_witness :
  forallb isWhiteSpace (lit "   ") = true /\ formatResponse (lit "   ") = [].
Proof.
  split; [reflexivity|].
  exact (blank_text_is_dropped 32%N (lit "  ") eq_refl).
Defined.

(** ** One element in a paragraph *)

(** A match that takes the whole input is the only one. *)
Lemma replace_whole (r : regex) (f : replacer) (s : jsstring)
    (q : option code_unit) (cs : captures) :
  s <> [] ->
  exec r None s = Some (MState q [] cs) ->
  (forall p, exec r p [] = None) ->
  replace_all r f s = f s cs.
Proof.
  intros Hs He Hend. unfold replace_all. cbn [replace_go]. rewrite He.
  cbn [rest caps]. unfold consumed. cbn [length]. rewrite Nat.sub_0_r, firstn_all.
  destruct s as [|c s]; [contradiction|].
  cbn [length replace_go]. rewrite Hend. apply app_nil_r.
Qed.

Lemma plus_greedy_run (P : code_unit -> bool) (k : cont) (r : jsstring)
    (cs : captures) (x : mstate) (c : code_unit) (l : jsstring)
    (p : option code_unit) :
  match r with [] => True | d :: _ => P d = false end ->
  forallb P (c :: l) = true ->
  k (MState (lastOr p (c :: l)) r cs) = Some x ->
  rmatch (Plus true (Chr P)) (MState p ((c :: l) ++ r) cs) k = Some x.
Proof.
  intros Hr Hl Hk. cbn [forallb] in Hl. apply andb_true_iff in Hl.
  destruct Hl as [Hc Hl].
  rewrite rmatch_Plus. cbn [app]. rewrite rmatch_Chr_cons, Hc. cbn [rest].
  apply star_greedy_run; [exact Hr | exact Hl | lia | exact Hk].
Qed.

Lemma plus_lazy_run (P : code_unit -> bool) (k : cont) (r : jsstring)
    (cs : captures) (x : mstate) (c : code_unit) (l : jsstring)
    (p : option code_unit) :
  forallb P (c :: l) = true ->
  (forall a b q, l = a ++ b -> b <> [] -> k (MState q (b ++ r) cs) = None) ->
  k (MState (lastOr p (c :: l)) r cs) = Some x ->
  rmatch (Plus false (Chr P)) (MState p ((c :: l) ++ r) cs) k = Some x.
Proof.
  intros Hl Hno Hk. cbn [forallb] in Hl. apply andb_true_iff in Hl.
  destruct Hl as [Hc Hl].
  rewrite rmatch_Plus. cbn [app]. rewrite rmatch_Chr_cons, Hc. cbn [rest].
  apply star_lazy_run; [exact Hl | exact Hno | lia | exact Hk].
Qed.

Section Element.

Variables o cl x : jsstring.
Hypothesis Ho : inert o = true.
Hypothesis Hcl : inert cl = true.
Hypothesis Ho_lt : forallb (isNot LT) o = true.
Hypothesis Hcl_lt : forallb (isNot LT) cl = true.
Hypothesis Hx : plainText x = true.
Hypothesis Hopen : plainTag (LT :: o).
Hypothesis Hclose : plainTag (LT :: cl).

Local Abbreviation elem := ((LT :: o) ++ x ++ (LT :: cl)).

Lemma elem_class (P : code_unit -> bool) :
  P LT = true -> forallb P o = true -> forallb P cl = true ->
  forallb P x = true -> forallb P elem = true.
Proof.
  intros H0 H1 H2 H3. cbn [app forallb]. rewrite H0, !forallb_app, H1, H3.
  cbn [forallb]. rewrite H0, H2. reflexivity.
Qed.

Lemma elem_isDot : forallb isDot elem = true.
Proof.
  destruct (inert_parts o Ho) as (H1 & _). destruct (inert_parts cl Hcl) as (H2 & _).
  destruct (ordinary_parts x Hx) as (H3 & _).
  apply elem_class; [reflexivity | assumption..].
Qed.

Lemma elem_headings : headings elem = elem.
Proof.
  pose proof elem_isDot as Hd. unfold headings, re_heading. cbn [app] in Hd |- *.
  rewrite !bol_id; try exact Hd;
    try (apply (line_needs_opener 35%N); reflexivity); reflexivity.
Qed.

Lemma elem_listItems : listItems elem = elem.
Proof.
  pose proof elem_isDot as Hd. unfold listItems, re_bullet. cbn [app] in Hd |- *.
  rewrite bol_id; [|apply (line_needs_opener 45%N); reflexivity | exact Hd].
  unfold re_numbered at 1.
  apply bol_id; [apply numbered_needs_digit; reflexivity | exact Hd].
Qed.

(** A pattern that opens with [<] and matches at neither tag copies the
    element. *)
Lemma elem_scan (r : regex) (f : replacer) :
  opensWith LT r -> passes r (LT :: o) -> passes r (LT :: cl) ->
  forall p t, scan r f p (elem ++ t) = elem ++ scan r f (lastOr (Some LT) cl) t.
Proof.
  intros Hr H1 H2 p t.
  destruct (ordinary_parts x Hx) as (_ & _ & _ & _ & Hxlt & _).
  rewrite <- !app_assoc. cbn [app].
  rewrite (scan_cons _ _ _ _ _ (H1 _ _)).
  rewrite (opens_class LT r f Hr o) by exact Ho_lt.
  rewrite (opens_class LT r f Hr x) by exact Hxlt.
  rewrite (scan_cons _ _ _ _ _ (H2 _ _)).
  rewrite (opens_class LT r f Hr cl) by exact Hcl_lt.
  reflexivity.
Qed.

Lemma opensWith_li_run : opensWith LT re_li_run.
Proof.
  apply opensWith_Plus, opensWith_Group, opensWith_Seq,
    (opensWith_Lit LT (lit "li>")).
Qed.

Lemma elem_wrapLists : wrapLists elem = elem.
Proof.
  destruct Hopen as (H1 & _). destruct Hclose as (H2 & _).
  unfold wrapLists.
  change (scan re_li_run (tmpl [TLit (lit "<ul>"); TMatch; TLit (lit "</ul>")])
            None elem = elem).
  rewrite <- (app_nil_r elem) at 1.
  rewrite (elem_scan _ _ opensWith_li_run H1 H2).
  rewrite scan_nil by reflexivity. apply app_nil_r.
Qed.

Lemma elem_emphasis : emphasis elem = elem.
Proof.
  destruct (inert_parts o Ho) as (_ & _ & H1 & _).
  destruct (inert_parts cl Hcl) as (_ & _ & H2 & _).
  destruct (ordinary_parts x Hx) as (_ & _ & H3 & _).
  assert (H : forallb (isNot 42%N) elem = true)
    by (apply elem_class; [reflexivity | assumption..]).
  unfold emphasis.
  rewrite (opens_id 42%N re_bold);
    [|apply opensWith_Seq, (opensWith_Lit 42%N [42%N]) | exact H].
  apply (opens_id 42%N);
    [apply opensWith_Seq, (opensWith_Lit 42%N []) | exact H].
Qed.

Lemma elem_lineBreaks : lineBreaks elem = elem.
Proof.
  destruct (inert_parts o Ho) as (_ & _ & _ & H1).
  destruct (inert_parts cl Hcl) as (_ & _ & _ & H2).
  destruct (ordinary_parts x Hx) as (_ & _ & _ & H3 & _).
  assert (H : forallb (isNot NL) elem = true)
    by (apply elem_class; [reflexivity | assumption..]).
  unfold lineBreaks.
  rewrite (opens_id NL re_nlnl); [|apply (opensWith_Lit NL [NL]) | exact H].
  apply (opens_id NL); [apply (opensWith_Lit NL []) | exact H].
Qed.

(** A cleanup pattern on the element inside its paragraph. *)
Lemma elem_paragraph (r : regex) (f : replacer) :
  opensWith LT r ->
  passes r (lit "<p>" ++ LT :: o) -> passes r (LT :: o) -> passes r (LT :: cl) ->
  (forall q, exec r q (lit "</p>") = None) ->
  replace_all r f (wrapParagraph elem) = wrapParagraph elem.
Proof.
  intros Hr H0 H1 H2 H3.
  change (scan r f None (wrapParagraph elem) = wrapParagraph elem).
  unfold wrapParagraph.
  assert (E0 : exec r None (LT :: lit "p>" ++ elem ++ lit "</p>") = None).
  { rewrite <- !app_assoc. apply (H0 None). }
  change (lit "<p>" ++ elem ++ lit "</p>")
    with (LT :: lit "p>" ++ elem ++ lit "</p>").
  rewrite (scan_cons _ _ _ _ _ E0).
  rewrite (opens_class LT r f Hr (lit "p>")) by reflexivity.
  rewrite (elem_scan r f Hr H1 H2).
  assert (E : lit "</p>" = LT :: lit "/p>" ++ []) by reflexivity.
  rewrite E. rewrite E in H3.
  rewrite (scan_cons _ _ _ _ _ (H3 _)).
  rewrite (opens_class LT r f Hr (lit "/p>")) by reflexivity.
  rewrite scan_nil; [reflexivity|]. apply (Hr (MState _ [] [])). exact I.
Qed.

Lemma elem_cleanup : cleanup (wrapParagraph elem) = wrapParagraph elem.
Proof.
  destruct Hopen as (_ & A1 & A2 & A3 & B1 & B2 & B3).
  destruct Hclose as (_ & C1 & C2 & C3 & _).
  unfold cleanup.
  rewrite (elem_paragraph re_empty_p); try assumption;
    [|apply opensWith_Seq, (opensWith_Lit LT (lit "p>")) | intros; reflexivity].
  rewrite (elem_paragraph re_p_ul); try assumption;
    [|apply opensWith_Seq, (opensWith_Lit LT (lit "p>")) | intros; reflexivity].
  apply (elem_paragraph re_ul_p); try assumption;
    [apply opensWith_Seq, (opensWith_Lit LT (lit "/ul>")) | intros; reflexivity].
Qed.

(** From the emphasis on, and from the list items on. *)
Lemma elem_from_lineBreaks :
  cleanup (wrapParagraph (lineBreaks elem)) = lit "<p>" ++ elem ++ lit "</p>".
Proof.
  rewrite elem_lineBreaks. apply elem_cleanup.
Qed.

Lemma elem_from_listItems :
  cleanup (wrapParagraph (lineBreaks (emphasis (wrapLists (listItems elem)))))
  = lit "<p>" ++ elem ++ lit "</p>".
Proof.
  rewrite elem_listItems, elem_wrapLists, elem_emphasis.
  apply elem_from_lineBreaks.
Qed.

End Element.

Ltac plain_tag := repeat split; intros q s; reflexivity.

(** ** Inline code and emphasis around plain text *)

Lemma formatResponse_cons (c : code_unit) (s : jsstring) :
  formatResponse (c :: s) = markup (escapeHtml (c :: s)).
Proof. reflexivity. Qed.

Lemma head_of_class (P : code_unit -> bool) (c : code_unit) (t : jsstring) :
  forallb P (c :: t) = true -> P c = true.
Proof.
  cbn [forallb]. intro H. apply andb_true_iff in H. apply H.
Qed.

Lemma wrapped_class (P : code_unit -> bool) (a b t : jsstring) :
  forallb P a = true -> forallb P b = true -> forallb P t = true ->
  forallb P (a ++ t ++ b) = true.
Proof.
  intros Ha Hb Ht. rewrite !forallb_app, Ha, Hb, Ht. reflexivity.
Qed.

Lemma wrapped_plain (a b t : jsstring) :
  forallb (fun c => negb (isSpecial c)) a = true ->
  forallb (fun c => negb (isSpecial c)) b = true ->
  plainText t = true ->
  escapeHtml (a ++ t ++ b) = a ++ t ++ b.
Proof.
  intros Ha Hb Ht. destruct (ordinary_parts t Ht) as (_ & _ & _ & _ & _ & Hs).
  rewrite escapeHtml_flat_map. apply escape_plain, wrapped_class; assumption.
Qed.

Lemma code_block_needs_three (q : option code_unit) (c : code_unit) (s : jsstring) :
  isNot BACKTICK c = true -> exec re_code_block q (BACKTICK :: c :: s) = None.
Proof.
  intro Hc. unfold exec, re_code_block. rewrite rmatch_Seq, rmatch_Lit.
  change (lit "```") with (BACKTICK :: BACKTICK :: [BACKTICK]).
  rewrite !prefixb_cons. unfold isNot in Hc. apply negb_true_iff in Hc.
  rewrite (N.eqb_sym BACKTICK c), Hc, andb_false_r. reflexivity.
Qed.

(** A single backtick on each side is no fence. *)
Lemma codeBlocks_span (c : code_unit) (t : jsstring) :
  forallb (isNot BACKTICK) (c :: t) = true ->
  codeBlocks (BACKTICK :: (c :: t) ++ [BACKTICK])
  = BACKTICK :: (c :: t) ++ [BACKTICK].
Proof.
  intro Ht. pose proof (head_of_class _ c t Ht) as Hc. unfold codeBlocks.
  change (scan re_code_block code_block_replacer None
            (BACKTICK :: (c :: t) ++ [BACKTICK])
          = BACKTICK :: (c :: t) ++ [BACKTICK]).
  rewrite (scan_cons _ _ _ _ _ (code_block_needs_three None c (t ++ [BACKTICK]) Hc)).
  change (c :: t ++ [BACKTICK]) with ((c :: t) ++ [BACKTICK]).
  rewrite (opens_class BACKTICK _ _ opensWith_code_block (c :: t)) by exact Ht.
  rewrite scan_cons by reflexivity. rewrite scan_nil by reflexivity. reflexivity.
Qed.

Lemma inline_code_matches (c : code_unit) (t : jsstring) :
  forallb (isNot BACKTICK) (c :: t) = true ->
  exists q,
    exec re_inline_code None (BACKTICK :: (c :: t) ++ [BACKTICK])
    = Some (MState q [] [(1, c :: t)]).
Proof.
  intro Ht. eexists. unfold exec, re_inline_code.
  rewrite rmatch_Seq.
  change (BACKTICK :: (c :: t) ++ [BACKTICK])
    with (lit "`" ++ (c :: t) ++ [BACKTICK]).
  rewrite rmatch_Lit, prefixb_app, skipn_app_length.
  rewrite rmatch_Seq, rmatch_Group.
  apply plus_greedy_run; [reflexivity | exact Ht|].
  cbn [prev rest caps]. rewrite consumed_app. reflexivity.
Qed.

(** X12: plain text between two backticks comes out as a [code]
    element in a paragraph. *)
Theorem inline_code_span :
  forall (c : code_unit) (t : jsstring),
    plainText (c :: t) = true ->
    formatResponse (lit "`" ++ (c :: t) ++ lit "`")
    = lit "<p><code>" ++ (c :: t) ++ lit "</code></p>".
Proof.
  intros c t Hplain.
  destruct (ordinary_parts _ Hplain) as (_ & Hbt & _ & _ & Hlt & _).
  change (lit "`" ++ (c :: t) ++ lit "`") with (BACKTICK :: (c :: t) ++ [BACKTICK]).
  rewrite formatResponse_cons. unfold markup, afterCodeBlocks.
  change (BACKTICK :: (c :: t) ++ [BACKTICK])
    with ([BACKTICK] ++ (c :: t) ++ [BACKTICK]).
  rewrite (wrapped_plain [BACKTICK] [BACKTICK] (c :: t) eq_refl eq_refl Hplain).
  change ([BACKTICK] ++ (c :: t) ++ [BACKTICK])
    with (BACKTICK :: (c :: t) ++ [BACKTICK]).
  rewrite (codeBlocks_span c t Hbt).
  destruct (inline_code_matches c t Hbt) as (q & He).
  unfold inlineCode.
  rewrite (replace_whole re_inline_code _ _ q [(1, c :: t)]);
    [|discriminate | exact He | intro p; reflexivity].
  change (wrap1 "<code>" "</code>" (BACKTICK :: (c :: t) ++ [BACKTICK])
            [(1, c :: t)])
    with (lit "<code>" ++ (c :: t) ++ lit "</code>" ++ []).
  rewrite app_nil_r.
  change (lit "<code>" ++ (c :: t) ++ lit "</code>")
    with ((LT :: lit "code>") ++ (c :: t) ++ (LT :: lit "/code>")).
  rewrite (elem_headings (lit "code>") (lit "/code>") (c :: t)
             eq_refl eq_refl Hplain).
  rewrite (elem_from_listItems (lit "code>") (lit "/code>") (c :: t));
    try reflexivity; try exact Hplain; try plain_tag.
  rewrite <- !app_assoc. reflexivity.
Qed.

Lemma inline_code_span_witness :
  plainText (lit "x = 1") = true
  /\ formatResponse (lit "`x = 1`") = lit "<p><code>x = 1</code></p>".
Proof.
  split; [reflexivity|].
  exact (inline_code_span 120%N (lit " = 1") eq_refl).
Defined.

Lemma star_opener (c : code_unit) : isNot STAR c = false -> lineOpener c = false.
Proof.
  unfold isNot. intro H. apply negb_false_iff, N.eqb_eq in H. subst c. reflexivity.
Qed.

(** Plain text between asterisks passes the stages before the
    emphasis. *)
Lemma starred_before_emphasis (d : jsstring) (c : code_unit) (t : jsstring) :
  d = [STAR] \/ d = [STAR; STAR] ->
  plainText (c :: t) = true ->
  wrapLists (listItems (headings (inlineCode (codeBlocks
    (escapeHtml (d ++ (c :: t) ++ d))))))
  = d ++ (c :: t) ++ d.
Proof.
  intros Hd Hplain.
  destruct (ordinary_parts _ Hplain) as (Hdot & Hbt & _ & _ & Hlt & _).
  assert (Hd' : forallb (fun c => negb (isSpecial c)) d = true
                /\ forallb isDot d = true /\ forallb (isNot BACKTICK) d = true
                /\ forallb (isNot LT) d = true
                /\ exists d', d = STAR :: d')
    by (destruct Hd as [-> | ->]; repeat split; eexists; reflexivity).
  destruct Hd' as (D1 & D2 & D3 & D4 & d' & Ed).
  rewrite (wrapped_plain d d (c :: t) D1 D1 Hplain).
  pose proof (wrapped_class _ d d (c :: t) D3 D3 Hbt) as Hbt'.
  pose proof (wrapped_class _ d d (c :: t) D2 D2 Hdot) as Hdot'.
  pose proof (wrapped_class _ d d (c :: t) D4 D4 Hlt) as Hlt'.
  unfold codeBlocks. rewrite (opens_id BACKTICK _ _ _ opensWith_code_block Hbt').
  unfold inlineCode.
  rewrite (opens_id BACKTICK re_inline_code);
    [|apply opensWith_Seq, (opensWith_Lit BACKTICK []) | exact Hbt'].
  rewrite Ed in Hdot' |- *. cbn [app] in Hdot' |- *.
  unfold headings, re_heading.
  rewrite !bol_id;
    try exact Hdot';
    try (apply (line_needs_opener 35%N); reflexivity).
  unfold listItems, re_bullet.
  rewrite bol_id;
    [|apply (line_needs_opener 45%N); reflexivity | exact Hdot'].
  unfold re_numbered at 1.
  rewrite bol_id; [|apply numbered_needs_digit; reflexivity | exact Hdot'].
  unfold wrapLists. rewrite Ed in Hlt'. cbn [app] in Hlt'.
  apply (opens_id LT re_li_run _ _ opensWith_li_run Hlt').
Qed.

(** The pattern [/d(.+?)d/] on plain text between two [d]. *)
Lemma emphasis_matches (d : jsstring) (c : code_unit) (t : jsstring) :
  d = [STAR] \/ d = [STAR; STAR] ->
  forallb isDot (c :: t) = true ->
  forallb (isNot STAR) (c :: t) = true ->
  exists q,
    exec (Seq (Lit d) (Seq (Group 1 (Plus false (Chr isDot))) (Lit d))) None
         (d ++ (c :: t) ++ d)
    = Some (MState q [] [(1, c :: t)]).
Proof.
  intros Hd Hdot Hstar. eexists. unfold exec.
  rewrite rmatch_Seq, rmatch_Lit, prefixb_app, skipn_app_length.
  rewrite rmatch_Seq, rmatch_Group.
  apply plus_lazy_run; [exact Hdot | |].
  - intros a b q E Hb. cbn [prev rest caps]. rewrite rmatch_Lit.
    destruct b as [|y b]; [contradiction|].
    assert (Hy : isNot STAR y = true).
    { cbn [forallb] in Hstar. apply andb_true_iff in Hstar.
      destruct Hstar as [_ Hstar]. rewrite E, forallb_app in Hstar.
      apply andb_true_iff in Hstar. destruct Hstar as [_ Hstar].
      exact (head_of_class _ y b Hstar). }
    unfold isNot in Hy. apply negb_true_iff in Hy.
    destruct Hd as [-> | ->]; cbn [app]; rewrite prefixb_cons,
      (N.eqb_sym STAR y), Hy; reflexivity.
  - cbn [prev rest caps]. rewrite consumed_app, rmatch_Lit.
    pose proof (prefixb_app d []) as Hp. rewrite app_nil_r in Hp.
    rewrite Hp, skipn_all. reflexivity.
Qed.

Lemma bold_needs_two (q : option code_unit) (c : code_unit) (s : jsstring) :
  isNot STAR c = true -> exec re_bold q (STAR :: c :: s) = None.
Proof.
  intro Hc. unfold exec, re_bold. rewrite rmatch_Seq, rmatch_Lit.
  change (lit "**") with (STAR :: [STAR]). rewrite !prefixb_cons.
  unfold isNot in Hc. apply negb_true_iff in Hc.
  rewrite (N.eqb_sym STAR c), Hc, andb_false_r. reflexivity.
Qed.

Lemma opensWith_bold : opensWith STAR re_bold.
Proof.
  apply opensWith_Seq, (opensWith_Lit STAR [STAR]).
Qed.

Lemma opensWith_italic : opensWith STAR re_italic.
Proof.
  apply opensWith_Seq, (opensWith_Lit STAR []).
Qed.

(** X13: plain text between double asterisks comes out as a [strong]
    element, between single asterisks as an [em] element, each in a
    paragraph. *)
Theorem emphasis_spans :
  forall (c : code_unit) (t : jsstring),
    plainText (c :: t) = true ->
    formatResponse (lit "**" ++ (c :: t) ++ lit "**")
    = lit "<p><strong>" ++ (c :: t) ++ lit "</strong></p>"
    /\ formatResponse (lit "*" ++ (c :: t) ++ lit "*")
       = lit "<p><em>" ++ (c :: t) ++ lit "</em></p>".
Proof.
  intros c t Hplain.
  destruct (ordinary_parts _ Hplain) as (Hdot & _ & Hstar & _ & _ & _).
  pose proof (head_of_class _ c t Hstar) as Hc.
  split.
  - change (lit "**" ++ (c :: t) ++ lit "**")
      with (STAR :: STAR :: (c :: t) ++ [STAR; STAR]).
    rewrite formatResponse_cons. unfold markup, afterCodeBlocks.
    change (STAR :: STAR :: (c :: t) ++ [STAR; STAR])
      with ([STAR; STAR] ++ (c :: t) ++ [STAR; STAR]).
    rewrite (starred_before_emphasis _ c t (or_intror eq_refl) Hplain).
    unfold emphasis.
    destruct (emphasis_matches _ c t (or_intror eq_refl) Hdot Hstar) as (q & He).
    rewrite (replace_whole re_bold _ _ q [(1, c :: t)]);
      [|discriminate | exact He | intro p; reflexivity].
    change (wrap1 "<strong>" "</strong>" ([STAR; STAR] ++ (c :: t) ++ [STAR; STAR])
              [(1, c :: t)])
      with (lit "<strong>" ++ (c :: t) ++ lit "</strong>" ++ []).
    rewrite app_nil_r.
    rewrite (opens_id STAR re_italic _ _ opensWith_italic)
      by (apply wrapped_class; [reflexivity | reflexivity | exact Hstar]).
    change (lit "<strong>" ++ (c :: t) ++ lit "</strong>")
      with ((LT :: lit "strong>") ++ (c :: t) ++ (LT :: lit "/strong>")).
    rewrite (elem_from_lineBreaks (lit "strong>") (lit "/strong>") (c :: t));
      try reflexivity; try exact Hplain; try plain_tag.
    rewrite <- !app_assoc. reflexivity.
  - change (lit "*" ++ (c :: t) ++ lit "*") with (STAR :: (c :: t) ++ [STAR]).
    rewrite formatResponse_cons. unfold markup, afterCodeBlocks.
    change (STAR :: (c :: t) ++ [STAR]) with ([STAR] ++ (c :: t) ++ [STAR]).
    rewrite (starred_before_emphasis _ c t (or_introl eq_refl) Hplain).
    unfold emphasis.
    assert (Hbold : replace_all re_bold (wrap1 "<strong>" "</strong>")
                      ([STAR] ++ (c :: t) ++ [STAR])
                    = [STAR] ++ (c :: t) ++ [STAR]).
    { change (scan re_bold (wrap1 "<strong>" "</strong>") None
                (STAR :: c :: t ++ [STAR]) = STAR :: c :: t ++ [STAR]).
      rewrite (scan_cons _ _ _ _ _ (bold_needs_two None c (t ++ [STAR]) Hc)).
      change (c :: t ++ [STAR]) with ((c :: t) ++ [STAR]).
      rewrite (opens_class STAR _ _ opensWith_bold (c :: t)) by exact Hstar.
      rewrite scan_cons by reflexivity. rewrite scan_nil by reflexivity.
      reflexivity. }
    rewrite Hbold.
    destruct (emphasis_matches _ c t (or_introl eq_refl) Hdot Hstar) as (q & He).
    rewrite (replace_whole re_italic _ _ q [(1, c :: t)]);
      [|discriminate | exact He | intro p; reflexivity].
    change (wrap1 "<em>" "</em>" ([STAR] ++ (c :: t) ++ [STAR]) [(1, c :: t)])
      with (lit "<em>" ++ (c :: t) ++ lit "</em>" ++ []).
    rewrite app_nil_r.
    change (lit "<em>" ++ (c :: t) ++ lit "</em>")
      with ((LT :: lit "em>") ++ (c :: t) ++ (LT :: lit "/em>")).
    rewrite (elem_from_lineBreaks (lit "em>") (lit "/em>") (c :: t));
      try reflexivity; try exact Hplain; try plain_tag.
    rewrite <- !app_assoc. reflexivity.
Qed.

Lemma emphasis_spans_witness :
  plainText (lit "very") = true
  /\ formatResponse (lit "**very**") = lit "<p><strong>very</strong></p>"
  /\ formatResponse (lit "*very*") = lit "<p><em>very</em></p>".
Proof.
  split; [reflexivity|].
  exact (emphasis_spans 118%N (lit "ery") eq_refl).
Defined.

(** ** Headings and list items of plain text *)

Lemma plain_before_headings (s : jsstring) :
  plainText s = true -> inlineCode (codeBlocks (escapeHtml s)) = s.
Proof.
  intro Hplain.
  destruct (ordinary_parts _ Hplain) as (_ & Hbt & _ & _ & _ & Hsp).
  rewrite escapeHtml_flat_map, (escape_plain _ Hsp).
  unfold codeBlocks. rewrite (opens_id BACKTICK _ _ _ opensWith_code_block Hbt).
  apply (opens_id BACKTICK re_inline_code);
    [apply opensWith_Seq, (opensWith_Lit BACKTICK []) | exact Hbt].
Qed.

Lemma plainText_app (a b : jsstring) :
  plainText a = true -> plainText b = true -> plainText (a ++ b) = true.
Proof.
  unfold plainText. intros Ha Hb. rewrite forallb_app, Ha, Hb. reflexivity.
Qed.

Lemma rmatch_Bol_start (s : jsstring) (cs : captures) (k : cont) :
  rmatch Bol (MState None s cs) k = k (MState None s cs).
Proof. reflexivity. Qed.

(** The pattern [/^h(.+)$/m] on a line that is [h] and plain text. *)
Lemma line_matches (h : jsstring) (c : code_unit) (t : jsstring) :
  forallb isDot (c :: t) = true ->
  exists q,
    exec (Seq Bol (Seq (Lit h) (Seq (Group 1 (Plus true (Chr isDot))) Eol))) None
         (h ++ c :: t)
    = Some (MState q [] [(1, c :: t)]).
Proof.
  intro Hdot. eexists. unfold exec.
  rewrite rmatch_Seq, rmatch_Bol_start.
  rewrite rmatch_Seq, rmatch_Lit, prefixb_app, skipn_app_length.
  rewrite rmatch_Seq, rmatch_Group. cbn [rest].
  rewrite <- (app_nil_r (c :: t)).
  apply plus_greedy_run; [exact I | exact Hdot|].
  cbn [prev rest caps]. rewrite consumed_app, !app_nil_r. reflexivity.
Qed.

Lemma line_fails_at_end (x : code_unit) (d : jsstring) (r : regex)
    (p : option code_unit) :
  exec (Seq Bol (Seq (Lit (x :: d)) r)) p [] = None.
Proof.
  apply bol_fails_on. intros q k.
  apply (opensWith_Seq x (Lit (x :: d)) r (opensWith_Lit x d)). exact I.
Qed.

(** A heading line becomes its element. *)
Lemma line_element (hashes open close : string) (x : code_unit) (d : jsstring)
    (c : code_unit) (t : jsstring) :
  lit hashes = x :: d ->
  forallb isDot (c :: t) = true ->
  replace_all (re_heading hashes) (wrap1 open close) (lit hashes ++ c :: t)
  = lit open ++ (c :: t) ++ lit close.
Proof.
  intros Eh Hdot. unfold re_heading.
  destruct (line_matches (lit hashes) c t Hdot) as (q & He).
  rewrite (replace_whole _ _ _ q [(1, c :: t)]).
  - unfold wrap1, tmpl. cbn [flat_map expand1 get_cap Nat.eqb].
    rewrite app_nil_r. reflexivity.
  - rewrite Eh. discriminate.
  - exact He.
  - intro p. rewrite Eh. apply line_fails_at_end.
Qed.

Lemma heading_on_element (hashes open close : string) (x : code_unit)
    (d o cl t : jsstring) :
  lit hashes = x :: d -> isNot x LT = true ->
  inert o = true -> inert cl = true -> plainText t = true ->
  replace_all (re_heading hashes) (wrap1 open close)
    ((LT :: o) ++ t ++ (LT :: cl))
  = (LT :: o) ++ t ++ (LT :: cl).
Proof.
  intros Eh Hx Ho Hcl Ht. unfold re_heading. rewrite Eh.
  pose proof (elem_isDot o cl t Ho Hcl Ht) as Hd. cbn [app] in Hd |- *.
  apply bol_id; [apply (line_needs_opener x); exact Hx | exact Hd].
Qed.

(** X14: a line that is [# ], [## ] or [### ] and plain text comes out
    as an [h2], [h3] or [h4] element in a paragraph: the level of the
    element is one more than the number of hashes. *)
Theorem heading_levels :
  forall (c : code_unit) (t : jsstring),
    plainText (c :: t) = true ->
    formatResponse (lit "# " ++ c :: t) = lit "<p><h2>" ++ (c :: t) ++ lit "</h2></p>"
    /\ formatResponse (lit "## " ++ c :: t)
       = lit "<p><h3>" ++ (c :: t) ++ lit "</h3></p>"
    /\ formatResponse (lit "### " ++ c :: t)
       = lit "<p><h4>" ++ (c :: t) ++ lit "</h4></p>".
Proof.
  intros c t Hplain.
  destruct (ordinary_parts _ Hplain) as (Hdot & _).
  assert (Hpre : forall h : string,
            plainText (lit h) = true ->
            inlineCode (codeBlocks (escapeHtml (lit h ++ c :: t)))
            = lit h ++ c :: t)
    by (intros h Hh; apply plain_before_headings, plainText_app; assumption).
  assert (Hdot' : forall h : string,
            forallb isDot (lit h) = true ->
            forallb isDot (lit h ++ c :: t) = true)
    by (intros h Hh; rewrite forallb_app, Hh, Hdot; reflexivity).
  repeat split.
  - change (lit "# " ++ c :: t) with (35%N :: lit " " ++ c :: t) at 1.
    rewrite formatResponse_cons.
    change (35%N :: lit " " ++ c :: t) with (lit "# " ++ c :: t).
    unfold markup, afterCodeBlocks. rewrite (Hpre "# "%string eq_refl).
    unfold headings.
    pose proof (Hdot' "# "%string eq_refl) as Hd.
    change (lit "# " ++ c :: t) with (35%N :: lit " " ++ c :: t) in Hd |- *.
    unfold re_heading at 3. rewrite bol_id; [|reflexivity | exact Hd].
    unfold re_heading at 2. rewrite bol_id; [|reflexivity | exact Hd].
    change (35%N :: lit " " ++ c :: t) with (lit "# " ++ c :: t).
    rewrite (line_element "# " "<h2>" "</h2>" 35%N (lit " ") c t eq_refl Hdot).
    change (lit "<h2>" ++ (c :: t) ++ lit "</h2>")
      with ((LT :: lit "h2>") ++ (c :: t) ++ (LT :: lit "/h2>")).
    rewrite (elem_from_listItems (lit "h2>") (lit "/h2>") (c :: t));
      try reflexivity; try exact Hplain; try plain_tag.
    rewrite <- !app_assoc. reflexivity.
  - change (lit "## " ++ c :: t) with (35%N :: lit "# " ++ c :: t) at 1.
    rewrite formatResponse_cons.
    change (35%N :: lit "# " ++ c :: t) with (lit "## " ++ c :: t).
    unfold markup, afterCodeBlocks. rewrite (Hpre "## "%string eq_refl).
    unfold headings.
    pose proof (Hdot' "## "%string eq_refl) as Hd.
    change (lit "## " ++ c :: t) with (35%N :: lit "# " ++ c :: t) in Hd |- *.
    unfold re_heading at 3. rewrite bol_id; [|reflexivity | exact Hd].
    change (35%N :: lit "# " ++ c :: t) with (lit "## " ++ c :: t).
    rewrite (line_element "## " "<h3>" "</h3>" 35%N (lit "# ") c t eq_refl Hdot).
    change (lit "<h3>" ++ (c :: t) ++ lit "</h3>")
      with ((LT :: lit "h3>") ++ (c :: t) ++ (LT :: lit "/h3>")).
    rewrite (heading_on_element "# " "<h2>" "</h2>" 35%N (lit " ")
               (lit "h3>") (lit "/h3>") (c :: t) eq_refl eq_refl eq_refl eq_refl
               Hplain).
    rewrite (elem_from_listItems (lit "h3>") (lit "/h3>") (c :: t));
      try reflexivity; try exact Hplain; try plain_tag.
    rewrite <- !app_assoc. reflexivity.
  - change (lit "### " ++ c :: t) with (35%N :: lit "## " ++ c :: t) at 1.
    rewrite formatResponse_cons.
    change (35%N :: lit "## " ++ c :: t) with (lit "### " ++ c :: t).
    unfold markup, afterCodeBlocks. rewrite (Hpre "### "%string eq_refl).
    unfold headings.
    rewrite (line_element "### " "<h4>" "</h4>" 35%N (lit "## ") c t eq_refl Hdot).
    change (lit "<h4>" ++ (c :: t) ++ lit "</h4>")
      with ((LT :: lit "h4>") ++ (c :: t) ++ (LT :: lit "/h4>")).
    rewrite (heading_on_element "## " "<h3>" "</h3>" 35%N (lit "# ")
               (lit "h4>") (lit "/h4>") (c :: t) eq_refl eq_refl eq_refl eq_refl
               Hplain).
    rewrite (heading_on_element "# " "<h2>" "</h2>" 35%N (lit " ")
               (lit "h4>") (lit "/h4>") (c :: t) eq_refl eq_refl eq_refl eq_refl
               Hplain).
    rewrite (elem_from_listItems (lit "h4>") (lit "/h4>") (c :: t));
      try reflexivity; try exact Hplain; try plain_tag.
    rewrite <- !app_assoc. reflexivity.
Qed.

Lemma heading_levels_witness :
  plainText (lit "Title") = true
  /\ formatResponse (lit "# Title") = lit "<p><h2>Title</h2></p>"
  /\ formatResponse (lit "## Title") = lit "<p><h3>Title</h3></p>"
  /\ formatResponse (lit "### Title") = lit "<p><h4>Title</h4></p>".
Proof.
  split; [reflexivity|].
  exact (heading_levels 84%N (lit "itle") eq_refl).
Defined.

(** ** A list item on its own *)

(** A match at the current position is replaced and the scan goes on
    behind it. *)
Lemma scan_match (r : regex) (f : replacer) (p q : option code_unit)
    (x : code_unit) (m s : jsstring) (cs : captures) :
  exec r p ((x :: m) ++ s) = Some (MState q s cs) ->
  scan r f p ((x :: m) ++ s)
  = f (x :: m) cs ++ scan r f (Some (last (x :: m) 0%N)) s.
Proof.
  intro He. unfold scan.
  remember (replace_go r f (S (length s))) as go eqn:Ego.
  cbn [replace_go]. rewrite He. cbn [rest caps]. rewrite consumed_app.
  rewrite (replace_go_fuel r f (length ((x :: m) ++ s)) (S (length s)));
    [subst go; reflexivity | | lia].
  rewrite length_app. cbn [length]. lia.
Qed.

(** Where the continuation fails behind every further code unit of
    the run, a greedy [P*] ends where it stands. *)
Lemma star_greedy_none (P : code_unit -> bool) (k : cont) (r : jsstring)
    (cs : captures) :
  match r with [] => True | c :: _ => P c = false end ->
  forall b fuel p,
    forallb P b = true ->
    (forall a d q, b = a ++ d -> a <> [] -> k (MState q (d ++ r) cs) = None) ->
    star_loop (rmatch (Chr P)) true k fuel (MState p (b ++ r) cs)
    = k (MState p (b ++ r) cs).
Proof.
  intros Hr b. induction b as [|c b IH]; intros fuel p Hb Hno.
  - cbn [app]. destruct fuel as [|fuel]; cbn [star_loop]; [reflexivity|].
    destruct r as [|c r].
    + rewrite rmatch_Chr_nil. reflexivity.
    + rewrite rmatch_Chr_cons, Hr. reflexivity.
  - cbn [forallb] in Hb. apply andb_true_iff in Hb. destruct Hb as [Hc Hb].
    destruct fuel as [|fuel]; [reflexivity|].
    cbn [star_loop app]. rewrite rmatch_Chr_cons, Hc, progress_cons.
    rewrite (IH fuel (Some c) Hb).
    + rewrite (Hno [c] b (Some c) eq_refl); [reflexivity | discriminate].
    + intros a d q E Ha. apply (Hno (c :: a) d q); [|discriminate].
      rewrite E. reflexivity.
Qed.

(** A greedy [P*] runs to the end of the run and gives back code units
    until the continuation accepts. *)
Lemma star_greedy_backs_up (P : code_unit -> bool) (k : cont) (b r : jsstring)
    (cs : captures) (x : mstate) :
  match r with [] => True | c :: _ => P c = false end ->
  forallb P b = true ->
  (forall a d q, b = a ++ d -> a <> [] -> k (MState q (d ++ r) cs) = None) ->
  forall l fuel p,
    forallb P l = true ->
    length (l ++ b ++ r) <= fuel ->
    k (MState (lastOr p l) (b ++ r) cs) = Some x ->
    star_loop (rmatch (Chr P)) true k fuel (MState p (l ++ b ++ r) cs) = Some x.
Proof.
  intros Hr Hb Hno l. induction l as [|c l IH]; intros fuel p Hl Hf Hk.
  - cbn [app lastOr fold_left] in *.
    rewrite (star_greedy_none P k r cs Hr b fuel p Hb Hno). exact Hk.
  - cbn [forallb] in Hl. apply andb_true_iff in Hl. destruct Hl as [Hc Hl].
    destruct fuel as [|fuel]; [simpl in Hf; lia|].
    cbn [star_loop app]. rewrite rmatch_Chr_cons, Hc, progress_cons.
    rewrite (IH fuel (Some c) Hl); [reflexivity | simpl in Hf; lia | exact Hk].
Qed.

(** Behind the first code unit of a tag no [<] is left. *)
Lemma tag_suffix (b a d : jsstring) (x : code_unit) :
  forallb (isNot LT) b = true ->
  x :: b = a ++ d -> a <> [] ->
  match d with [] => True | c :: _ => isNot LT c = true end.
Proof.
  intros Hb E Ha. destruct a as [|y a]; [contradiction|].
  injection E as _ E. subst b. rewrite forallb_app in Hb.
  apply andb_true_iff in Hb. destruct Hb as [_ Hd].
  destruct d as [|c d]; [exact I|].
  cbn [forallb] in Hd. apply andb_true_iff in Hd. exact (proj1 Hd).
Qed.

Lemma consumed_all (s : jsstring) : consumed s [] = s.
Proof.
  unfold consumed. cbn [length]. rewrite Nat.sub_0_r. apply firstn_all.
Qed.

(** [/(<li>.*<\/li>\n?)+/] on one item. *)
Lemma li_run_matches (t : jsstring) :
  forallb isDot t = true ->
  exists q,
    exec re_li_run None (lit "<li>" ++ t ++ lit "</li>")
    = Some (MState q [] [(1, lit "<li>" ++ t ++ lit "</li>")]).
Proof.
  intro Hdot. eexists. unfold exec, re_li_run, li_item.
  rewrite rmatch_Plus, rmatch_Group, rmatch_Seq, rmatch_Lit, prefixb_app,
    skipn_app_length.
  rewrite rmatch_Seq, rmatch_Star. cbn [rest].
  rewrite <- (app_nil_r (lit "</li>")) at 2 3.
  apply (star_greedy_backs_up isDot _ (lit "</li>") [] _ _ I eq_refl).
  - intros a d q E Ha. rewrite rmatch_Seq.
    apply (opensWith_Lit LT (lit "/li>")). cbn [rest]. rewrite app_nil_r.
    apply (tag_suffix (lit "/li>") a d LT eq_refl E Ha).
  - exact Hdot.
  - apply Nat.le_refl.
  - rewrite rmatch_Seq, rmatch_Lit, prefixb_app, skipn_app_length.
    rewrite rmatch_Opt, rmatch_Chr_nil.
    cbn [prev rest caps length star_loop]. rewrite consumed_all, app_nil_r.
    reflexivity.
Qed.

(** A pattern that opens with [<] and does not match at the tag
    copies the tag. *)
Lemma tag_scan (r : regex) (f : replacer) (o : jsstring) :
  opensWith LT r -> passes r (LT :: o) -> forallb (isNot LT) o = true ->
  forall p t,
    scan r f p ((LT :: o) ++ t) = (LT :: o) ++ scan r f (lastOr (Some LT) o) t.
Proof.
  intros Hr Ho Hlt p t. cbn [app].
  rewrite (scan_cons _ _ _ _ _ (Ho _ _)).
  rewrite (opens_class LT r f Hr o) by exact Hlt. reflexivity.
Qed.

Lemma scan_end (r : regex) (f : replacer) (p : option code_unit) :
  opensWith LT r -> scan r f p [] = [].
Proof.
  intro Hr. apply scan_nil. apply (Hr (MState p [] [])). exact I.
Qed.

Section ListItem.

Variable t : jsstring.
Hypothesis Ht : plainText t = true.

Local Abbreviation item := (lit "<li>" ++ t ++ lit "</li>").
Local Abbreviation alone := (lit "<ul>" ++ item ++ lit "</ul>").

Lemma item_isDot : forallb isDot item = true.
Proof.
  destruct (ordinary_parts t Ht) as (H & _).
  rewrite !forallb_app, H. reflexivity.
Qed.

Lemma item_wrapLists : wrapLists item = alone.
Proof.
  destruct (ordinary_parts t Ht) as (Hdot & _).
  destruct (li_run_matches t Hdot) as (q & He).
  unfold wrapLists.
  rewrite (replace_whole _ _ _ q [(1, item)]).
  - unfold tmpl. cbn [flat_map expand1]. rewrite app_nil_r. reflexivity.
  - discriminate.
  - exact He.
  - intro p. apply (opensWith_li_run (MState p [] [])). exact I.
Qed.

Lemma alone_class (P : code_unit -> bool) :
  forallb P (lit "<ul>") = true -> forallb P (lit "<li>") = true ->
  forallb P (lit "</li>") = true -> forallb P (lit "</ul>") = true ->
  forallb P t = true -> forallb P alone = true.
Proof.
  intros H1 H2 H3 H4 H5. rewrite !forallb_app, H1, H2, H3, H4, H5. reflexivity.
Qed.

Lemma alone_emphasis : emphasis alone = alone.
Proof.
  destruct (ordinary_parts t Ht) as (_ & _ & H3 & _).
  assert (H : forallb (isNot STAR) alone = true)
    by (apply alone_class; [reflexivity.. | exact H3]).
  unfold emphasis.
  rewrite (opens_id STAR re_bold);
    [|apply opensWith_Seq, (opensWith_Lit STAR [STAR]) | exact H].
  apply (opens_id STAR);
    [apply opensWith_Seq, (opensWith_Lit STAR []) | exact H].
Qed.

Lemma alone_lineBreaks : lineBreaks alone = alone.
Proof.
  destruct (ordinary_parts t Ht) as (_ & _ & _ & H3 & _).
  assert (H : forallb (isNot NL) alone = true)
    by (apply alone_class; [reflexivity.. | exact H3]).
  unfold lineBreaks.
  rewrite (opens_id NL re_nlnl); [|apply (opensWith_Lit NL [NL]) | exact H].
  apply (opens_id NL); [apply (opensWith_Lit NL []) | exact H].
Qed.

(** The cleanup takes the paragraph tags off the list. *)
Lemma alone_cleanup : cleanup (wrapParagraph alone) = alone.
Proof.
  destruct (ordinary_parts t Ht) as (_ & _ & _ & _ & Hlt & _).
  assert (R1 : opensWith LT re_empty_p)
    by apply opensWith_Seq, (opensWith_Lit LT (lit "p>")).
  assert (R2 : opensWith LT re_p_ul)
    by apply opensWith_Seq, (opensWith_Lit LT (lit "p>")).
  assert (R3 : opensWith LT re_ul_p)
    by apply opensWith_Seq, (opensWith_Lit LT (lit "/ul>")).
  unfold cleanup, wrapParagraph. rewrite <- !app_assoc.
  assert (E1 : replace_all re_empty_p (tmpl [])
                 (lit "<p>" ++ lit "<ul>" ++ lit "<li>" ++ t ++ lit "</li>"
                    ++ lit "</ul>" ++ lit "</p>")
               = lit "<p><ul>" ++ lit "<li>" ++ t ++ lit "</li>" ++ lit "</ul></p>").
  { change (scan re_empty_p (tmpl []) None
              (LT :: lit "p>" ++ (LT :: lit "ul>") ++ (LT :: lit "li>") ++ t
                 ++ (LT :: lit "/li>") ++ (LT :: lit "/ul>")
                 ++ (LT :: lit "/p>") ++ [])
            = lit "<p><ul>" ++ lit "<li>" ++ t ++ lit "</li>" ++ lit "</ul></p>").
    rewrite scan_cons by reflexivity.
    rewrite (opens_class LT _ _ R1 (lit "p>")) by reflexivity.
    rewrite (tag_scan _ _ (lit "ul>") R1) by (try reflexivity; intros q s; reflexivity).
    rewrite (tag_scan _ _ (lit "li>") R1) by (try reflexivity; intros q s; reflexivity).
    rewrite (opens_class LT _ _ R1 t) by exact Hlt.
    rewrite (tag_scan _ _ (lit "/li>") R1) by (try reflexivity; intros q s; reflexivity).
    rewrite (tag_scan _ _ (lit "/ul>") R1) by (try reflexivity; intros q s; reflexivity).
    rewrite (tag_scan _ _ (lit "/p>") R1) by (try reflexivity; intros q s; reflexivity).
    rewrite (scan_end _ _ _ R1). reflexivity. }
  rewrite E1. clear E1.
  assert (E2 : replace_all re_p_ul (tmpl [TLit (lit "<ul>")])
                 (lit "<p><ul>" ++ lit "<li>" ++ t ++ lit "</li>" ++ lit "</ul></p>")
               = lit "<ul>" ++ lit "<li>" ++ t ++ lit "</li>" ++ lit "</ul></p>").
  { change (scan re_p_ul (tmpl [TLit (lit "<ul>")]) None
              ((LT :: lit "p><ul>") ++ (LT :: lit "li>") ++ t
                 ++ (LT :: lit "/li>") ++ (LT :: lit "/ul>")
                 ++ (LT :: lit "/p>") ++ [])
            = lit "<ul>" ++ lit "<li>" ++ t ++ lit "</li>" ++ lit "</ul></p>").
    rewrite (scan_match _ _ None (Some GT) LT (lit "p><ul>") _ []) by reflexivity.
    unfold tmpl at 1. cbn [flat_map expand1]. rewrite app_nil_r.
    rewrite (tag_scan _ _ (lit "li>") R2) by (try reflexivity; intros q s; reflexivity).
    rewrite (opens_class LT _ _ R2 t) by exact Hlt.
    rewrite (tag_scan _ _ (lit "/li>") R2) by (try reflexivity; intros q s; reflexivity).
    rewrite (tag_scan _ _ (lit "/ul>") R2) by (try reflexivity; intros q s; reflexivity).
    rewrite (tag_scan _ _ (lit "/p>") R2) by (try reflexivity; intros q s; reflexivity).
    rewrite (scan_end _ _ _ R2). reflexivity. }
  rewrite E2. clear E2.
  change (scan re_ul_p (tmpl [TLit (lit "</ul>")]) None
            ((LT :: lit "ul>") ++ (LT :: lit "li>") ++ t
               ++ (LT :: lit "/li>") ++ (LT :: lit "/ul></p>") ++ [])
          = lit "<ul>" ++ lit "<li>" ++ t ++ lit "</li>" ++ lit "</ul>").
  rewrite (tag_scan _ _ (lit "ul>") R3) by (try reflexivity; intros q s; reflexivity).
  rewrite (tag_scan _ _ (lit "li>") R3) by (try reflexivity; intros q s; reflexivity).
  rewrite (opens_class LT _ _ R3 t) by exact Hlt.
  rewrite (tag_scan _ _ (lit "/li>") R3) by (try reflexivity; intros q s; reflexivity).
  rewrite (scan_match _ _ _ (Some GT) LT (lit "/ul></p>") [] []) by reflexivity.
  unfold tmpl at 1. cbn [flat_map expand1]. 
  assert (En : scan re_ul_p (tmpl [TLit (lit "</ul>")])
                 (Some (last (LT :: lit "/ul></p>") 0%N)) [] = [])
    by reflexivity.
  rewrite En, !app_nil_r. reflexivity.
Qed.

(** An item that the list-item stage has written leaves the pipeline
    as a list of its own, outside any paragraph. *)
Lemma item_from_wrapLists :
  cleanup (wrapParagraph (lineBreaks (emphasis (wrapLists item)))) = alone.
Proof.
  rewrite item_wrapLists, alone_emphasis, alone_lineBreaks.
  apply alone_cleanup.
Qed.

End ListItem.

Lemma digit_parts (d : code_unit) :
  isDigit d = true ->
  ordinary d = true /\ isNot 35%N d = true /\ isNot 45%N d = true.
Proof.
  unfold isDigit, in_range, ordinary, isDot, isLineTerminator, isSpecial, isNot.
  unfold AMP, LT, GT, BACKTICK. intro H.
  apply andb_true_iff in H. destruct H as [H1 H2].
  apply N.leb_le in H1. apply N.leb_le in H2.
  repeat match goal with
         | |- context [N.eqb d ?n] =>
             destruct (N.eqb_spec d n); [exfalso; lia|]
         end.
  repeat split.
Qed.

Lemma digits_plain (n : jsstring) :
  forallb isDigit n = true -> plainText n = true.
Proof.
  unfold plainText. induction n as [|d n IH]; [reflexivity|].
  cbn [forallb]. intro H. apply andb_true_iff in H. destruct H as [Hd Hn].
  rewrite (proj1 (digit_parts d Hd)), (IH Hn). reflexivity.
Qed.

(** [/^(\d+)\. (.+)$/m] on a numbered line of plain text. *)
Lemma numbered_matches (d : code_unit) (n : jsstring) (c : code_unit)
    (t : jsstring) :
  forallb isDigit (d :: n) = true ->
  forallb isDot (c :: t) = true ->
  exists q,
    exec re_numbered None ((d :: n) ++ lit ". " ++ c :: t)
    = Some (MState q [] [(2, c :: t); (1, d :: n)]).
Proof.
  intros Hdig Hdot. eexists. unfold exec, re_numbered.
  rewrite rmatch_Seq, rmatch_Bol_start, rmatch_Seq, rmatch_Group. cbn [rest].
  apply plus_greedy_run; [reflexivity | exact Hdig|].
  cbn [prev rest caps]. rewrite consumed_app.
  rewrite rmatch_Seq, rmatch_Lit, prefixb_app, skipn_app_length.
  rewrite rmatch_Seq, rmatch_Group. cbn [rest].
  pose proof (plus_greedy_run isDot) as Hrun.
  specialize (fun k cs x p => Hrun k [] cs x c t p I Hdot).
  rewrite app_nil_r in Hrun. apply Hrun.
  cbn [prev rest caps rmatch]. rewrite consumed_all. reflexivity.
Qed.

(** X15: a line that is [- ] and plain text becomes a list of one
    item, with no paragraph around it. *)
Theorem bullet_item_alone :
  forall (c : code_unit) (t : jsstring),
    plainText (c :: t) = true ->
    formatResponse (lit "- " ++ c :: t)
    = lit "<ul><li>" ++ (c :: t) ++ lit "</li></ul>".
Proof.
  intros c t Hplain.
  destruct (ordinary_parts _ Hplain) as (Hdot & _).
  assert (Hd : forallb isDot (45%N :: lit " " ++ c :: t) = true)
    by (change (forallb isDot (lit "- " ++ c :: t) = true);
        rewrite forallb_app, Hdot; reflexivity).
  change (lit "- " ++ c :: t) with (45%N :: lit " " ++ c :: t) at 1.
  rewrite formatResponse_cons.
  change (45%N :: lit " " ++ c :: t) with (lit "- " ++ c :: t).
  unfold markup, afterCodeBlocks.
  rewrite (plain_before_headings (lit "- " ++ c :: t))
    by (apply plainText_app; [reflexivity | exact Hplain]).
  change (lit "- " ++ c :: t) with (45%N :: lit " " ++ c :: t).
  unfold headings, re_heading.
  rewrite !bol_id; try exact Hd; try (apply (line_needs_opener 35%N); reflexivity).
  change (45%N :: lit " " ++ c :: t) with (lit "- " ++ c :: t).
  unfold listItems.
  change re_bullet with (re_heading "- ").
  rewrite (line_element "- " "<li>" "</li>" 45%N (lit " ") c t eq_refl Hdot).
  pose proof (item_isDot (c :: t) Hplain) as Hi.
  change (lit "<li>" ++ (c :: t) ++ lit "</li>")
    with (LT :: lit "li>" ++ (c :: t) ++ lit "</li>") in Hi |- *.
  unfold re_numbered at 1.
  rewrite bol_id; [|apply numbered_needs_digit; reflexivity | exact Hi].
  change (LT :: lit "li>" ++ (c :: t) ++ lit "</li>")
    with (lit "<li>" ++ (c :: t) ++ lit "</li>").
  rewrite (item_from_wrapLists (c :: t) Hplain).
  rewrite <- !app_assoc. reflexivity.
Qed.

Lemma bullet_item_alone_witness :
  plainText (lit "milk") = true
  /\ formatResponse (lit "- milk") = lit "<ul><li>milk</li></ul>".
Proof.
  split; [reflexivity|].
  exact (bullet_item_alone 109%N (lit "ilk") eq_refl).
Defined.

(** X16: a line that is a decimal number, [. ] and plain text becomes a
    list of one item that holds the text only: the number is dropped. *)
Theorem numbered_item_alone :
  forall (d : code_unit) (n : jsstring) (c : code_unit) (t : jsstring),
    forallb isDigit (d :: n) = true ->
    plainText (c :: t) = true ->
    formatResponse ((d :: n) ++ lit ". " ++ c :: t)
    = lit "<ul><li>" ++ (c :: t) ++ lit "</li></ul>".
Proof.
  intros d n c t Hdig Hplain.
  destruct (ordinary_parts _ Hplain) as (Hdot & _).
  destruct (digit_parts d (head_of_class _ _ _ Hdig)) as (_ & Hhash & Hdash).
  assert (Hline : plainText ((d :: n) ++ lit ". " ++ c :: t) = true).
  { apply plainText_app; [apply digits_plain; exact Hdig|].
    apply plainText_app; [reflexivity | exact Hplain]. }
  destruct (ordinary_parts _ Hline) as (Hd & _).
  change (formatResponse ((d :: n) ++ lit ". " ++ c :: t))
    with (markup (escapeHtml ((d :: n) ++ lit ". " ++ c :: t))).
  unfold markup, afterCodeBlocks.
  rewrite (plain_before_headings _ Hline). cbn [app] in Hd |- *.
  unfold headings, re_heading.
  rewrite !bol_id; try exact Hd; try (apply (line_needs_opener 35%N); exact Hhash).
  unfold listItems. unfold re_bullet at 1.
  rewrite bol_id; [|apply (line_needs_opener 45%N); exact Hdash | exact Hd].
  destruct (numbered_matches d n c t Hdig Hdot) as (q & He).
  cbn [app] in He.
  rewrite (replace_whole re_numbered _ _ q [(2, c :: t); (1, d :: n)]);
    [|discriminate | exact He|];
    [|intro p; unfold re_numbered; apply bol_fails_on; intros q' k;
      rewrite rmatch_Seq, rmatch_Group, rmatch_Plus, rmatch_Chr_nil;
      reflexivity].
  unfold tmpl at 1. cbn [flat_map expand1 get_cap Nat.eqb].
  rewrite app_nil_r.
  rewrite (item_from_wrapLists (c :: t) Hplain).
  rewrite <- !app_assoc. reflexivity.
Qed.

Lemma numbered_item_alone_witness :
  forallb isDigit (lit "12") = true
  /\ plainText (lit "eggs") = true
  /\ formatResponse (lit "12. eggs") = lit "<ul><li>eggs</li></ul>".
Proof.
  split; [reflexivity|]. split; [reflexivity|].
  exact (numbered_item_alone 49%N (lit "2") 101%N (lit "ggs") eq_refl eq_refl).
Defined.

(** ** Line breaks and paragraph breaks *)

Lemma newlines_class (P : code_unit -> bool) (sep : jsstring) :
  P NL = true -> forallb (isChar NL) sep = true -> forallb P sep = true.
Proof.
  intro HP. apply forallb_weaken. intros c Hc. unfold isChar in Hc.
  apply N.eqb_eq in Hc. subst c. exact HP.
Qed.

Lemma lines_class (P : code_unit -> bool) (a sep b : jsstring) :
  P NL = true -> forallb P a = true -> forallb (isChar NL) sep = true ->
  forallb P b = true -> forallb P (a ++ sep ++ b) = true.
Proof.
  intros HP Ha Hsep Hb.
  rewrite !forallb_app, Ha, Hb, (newlines_class P sep HP Hsep). reflexivity.
Qed.

(** A pattern anchored with [^] that can only match at a heading or
    list opener. *)
Section Anchored.

Variable r : regex.
Variable f : replacer.
Hypothesis Hopener :
  forall p c s, lineOpener c = false -> exec (Seq Bol r) p (c :: s) = None.
Hypothesis Hend : forall p, exec (Seq Bol r) p [] = None.

Lemma anchored_line (p : option code_unit) (c : code_unit) (t rest : jsstring) :
  lineOpener c = false -> forallb isDot (c :: t) = true ->
  scan (Seq Bol r) f p ((c :: t) ++ rest)
  = (c :: t) ++ scan (Seq Bol r) f (lastOr (Some c) t) rest.
Proof.
  intros Hc Hd. cbn [app]. rewrite (scan_cons _ _ _ _ _ (Hopener p c _ Hc)).
  cbn [forallb] in Hd. apply andb_true_iff in Hd. destruct Hd as [Hdc Hdt].
  destruct (scan_class (Seq Bol r) f
              (fun q => exists c', q = Some c' /\ isLineTerminator c' = false)
              isDot) with (l := t) (p := Some c) (t := rest) as [E _].
  - intros q x s (c' & -> & Hc') Hx. split; [apply bol_fails; exact Hc'|].
    exists x. split; [reflexivity|]. unfold isDot in Hx.
    apply negb_true_iff in Hx. exact Hx.
  - exists c. split; [reflexivity|]. unfold isDot in Hdc.
    apply negb_true_iff in Hdc. exact Hdc.
  - exact Hdt.
  - rewrite E. reflexivity.
Qed.

Lemma anchored_newlines (sep : jsstring) (p : option code_unit) (rest : jsstring) :
  forallb (isChar NL) sep = true ->
  scan (Seq Bol r) f p (sep ++ rest)
  = sep ++ scan (Seq Bol r) f (lastOr p sep) rest.
Proof.
  intro Hsep.
  apply (scan_class (Seq Bol r) f (fun _ => True) (isChar NL)); [|exact I | exact Hsep].
  intros q c s _ Hc. split; [|exact I]. apply Hopener.
  unfold isChar in Hc. apply N.eqb_eq in Hc. subst c. reflexivity.
Qed.

Lemma anchored_lines (c : code_unit) (t sep : jsstring) (d : code_unit)
    (u : jsstring) :
  lineOpener c = false -> lineOpener d = false ->
  forallb isDot (c :: t) = true -> forallb isDot (d :: u) = true ->
  forallb (isChar NL) sep = true ->
  replace_all (Seq Bol r) f ((c :: t) ++ sep ++ (d :: u))
  = (c :: t) ++ sep ++ (d :: u).
Proof.
  intros Hc Hd Ht Hu Hsep.
  change (scan (Seq Bol r) f None ((c :: t) ++ sep ++ (d :: u))
          = (c :: t) ++ sep ++ (d :: u)).
  rewrite (anchored_line _ _ _ _ Hc Ht), (anchored_newlines _ _ _ Hsep).
  pose proof (anchored_line (lastOr (lastOr (Some c) t) sep) d u [] Hd Hu) as E.
  rewrite app_nil_r in E. rewrite E, (scan_nil _ _ _ (Hend _)), app_nil_r.
  reflexivity.
Qed.

End Anchored.

Lemma heading_needs_opener (hashes : string) (x : code_unit) (d : jsstring) :
  lit hashes = x :: d -> lineOpener x = true ->
  (forall p c s, lineOpener c = false -> exec (re_heading hashes) p (c :: s) = None)
  /\ (forall p, exec (re_heading hashes) p [] = None).
Proof.
  intros Eh Hx. unfold re_heading. rewrite Eh. split.
  - intros p c s Hc. apply line_needs_opener. unfold isNot.
    destruct (N.eqb_spec c x) as [->|_]; [|reflexivity].
    rewrite Hx in Hc. discriminate Hc.
  - intro p. apply line_fails_at_end.
Qed.

Lemma numbered_fails_at_end (p : option code_unit) : exec re_numbered p [] = None.
Proof.
  unfold re_numbered. apply bol_fails_on. intros q k.
  rewrite rmatch_Seq, rmatch_Group, rmatch_Plus, rmatch_Chr_nil. reflexivity.
Qed.

(** Up to the line breaks: lines of text without markup that do not
    open like a heading or a list item pass every stage unchanged. *)
Lemma lines_before_breaks (c : code_unit) (t sep : jsstring) (d : code_unit)
    (u : jsstring) :
  plainText (c :: t) = true -> plainText (d :: u) = true ->
  lineOpener c = false -> lineOpener d = false ->
  forallb (isChar NL) sep = true ->
  emphasis (wrapLists (listItems (headings (inlineCode (codeBlocks
    (escapeHtml ((c :: t) ++ sep ++ (d :: u))))))))
  = (c :: t) ++ sep ++ (d :: u).
Proof.
  intros Ht Hu Hc Hd Hsep.
  destruct (ordinary_parts _ Ht) as (Hdot1 & Hbt1 & Hstar1 & _ & Hlt1 & Hsp1).
  destruct (ordinary_parts _ Hu) as (Hdot2 & Hbt2 & Hstar2 & _ & Hlt2 & Hsp2).
  set (a := c :: t) in *. set (b := d :: u) in *.
  rewrite escapeHtml_flat_map.
  rewrite (escape_plain _ (lines_class _ a sep b eq_refl Hsp1 Hsep Hsp2)).
  pose proof (lines_class _ a sep b eq_refl Hbt1 Hsep Hbt2) as Hbt.
  unfold codeBlocks. rewrite (opens_id BACKTICK _ _ _ opensWith_code_block Hbt).
  unfold inlineCode.
  rewrite (opens_id BACKTICK re_inline_code);
    [|apply opensWith_Seq, (opensWith_Lit BACKTICK []) | exact Hbt].
  destruct (heading_needs_opener "### " 35%N (lit "## ") eq_refl eq_refl) as [A4 B4].
  destruct (heading_needs_opener "## " 35%N (lit "# ") eq_refl eq_refl) as [A3 B3].
  destruct (heading_needs_opener "# " 35%N (lit " ") eq_refl eq_refl) as [A2 B2].
  destruct (heading_needs_opener "- " 45%N (lit " ") eq_refl eq_refl) as [A1 B1].
  assert (A0 : forall p x s, lineOpener x = false -> exec re_numbered p (x :: s) = None).
  { intros p x s Hx. apply numbered_needs_digit.
    apply (lineOpener_parts x Hx). }
  subst a b.
  unfold re_heading in A4, B4, A3, B3, A2, B2, A1, B1.
  unfold headings, re_heading.
  rewrite (anchored_lines _ _ A4 B4 c t sep d u Hc Hd Hdot1 Hdot2 Hsep).
  rewrite (anchored_lines _ _ A3 B3 c t sep d u Hc Hd Hdot1 Hdot2 Hsep).
  rewrite (anchored_lines _ _ A2 B2 c t sep d u Hc Hd Hdot1 Hdot2 Hsep).
  unfold listItems, re_bullet.
  rewrite (anchored_lines _ _ A1 B1 c t sep d u Hc Hd Hdot1 Hdot2 Hsep).
  unfold re_numbered in A0 |- *.
  rewrite (anchored_lines _ _ A0 numbered_fails_at_end c t sep d u Hc Hd Hdot1
             Hdot2 Hsep).
  unfold wrapLists.
  rewrite (opens_id LT re_li_run _ _ opensWith_li_run
             (lines_class _ _ sep _ eq_refl Hlt1 Hsep Hlt2)).
  pose proof (lines_class _ (c :: t) sep (d :: u) eq_refl Hstar1 Hsep Hstar2)
    as Hstar.
  unfold emphasis.
  rewrite (opens_id 42%N re_bold);
    [|apply opensWith_Seq, (opensWith_Lit 42%N [42%N]) | exact Hstar].
  apply (opens_id 42%N);
    [apply opensWith_Seq, (opensWith_Lit 42%N []) | exact Hstar].
Qed.

Lemma two_newlines_need_two (p : option code_unit) (d : code_unit) (u : jsstring) :
  isNot NL d = true -> exec re_nlnl p (NL :: d :: u) = None.
Proof.
  intro Hd. unfold exec, re_nlnl. rewrite rmatch_Lit, !prefixb_cons.
  unfold isNot in Hd. apply negb_true_iff in Hd.
  rewrite (N.eqb_sym NL d), Hd, andb_false_r. reflexivity.
Qed.

Lemma opens_rest (x : code_unit) (r : regex) (f : replacer) (l : jsstring)
    (p : option code_unit) :
  opensWith x r -> forallb (isNot x) l = true -> scan r f p l = l.
Proof.
  intros H Hl.
  apply (scan_id r f (fun _ => True) (isNot x)); [| |exact I | exact Hl].
  - intros q c t _ Hc. split; [|exact I]. apply (H (MState q (c :: t) [])). exact Hc.
  - intros q _. apply (H (MState q [] [])). exact I.
Qed.

Lemma one_newline (a : jsstring) (d : code_unit) (u : jsstring) :
  forallb (isNot NL) a = true -> forallb (isNot NL) (d :: u) = true ->
  lineBreaks (a ++ [NL] ++ d :: u) = a ++ lit "<br>" ++ d :: u.
Proof.
  intros Ha Hb. unfold lineBreaks.
  assert (R2 : opensWith NL re_nlnl) by apply (opensWith_Lit NL [NL]).
  assert (R1 : opensWith NL re_nl) by apply (opensWith_Lit NL []).
  assert (E : replace_all re_nlnl (tmpl [TLit (lit "</p><p>")]) (a ++ [NL] ++ d :: u)
              = a ++ [NL] ++ d :: u).
  { change (scan re_nlnl (tmpl [TLit (lit "</p><p>")]) None (a ++ NL :: d :: u)
            = a ++ NL :: d :: u).
    rewrite (opens_class NL _ _ R2 a) by exact Ha.
    rewrite scan_cons by (apply two_newlines_need_two, (head_of_class _ _ _ Hb)).
    rewrite (opens_rest NL _ _ (d :: u) _ R2 Hb). reflexivity. }
  rewrite E.
  change (scan re_nl (tmpl [TLit (lit "<br>")]) None (a ++ [NL] ++ d :: u)
          = a ++ lit "<br>" ++ d :: u).
  rewrite (opens_class NL _ _ R1 a) by exact Ha.
  rewrite (scan_match _ _ _ (Some NL) NL [] _ []) by reflexivity.
  rewrite (opens_rest NL _ _ (d :: u) _ R1 Hb).
  unfold tmpl. cbn [flat_map expand1]. rewrite app_nil_r. reflexivity.
Qed.

Lemma two_newlines (a b : jsstring) :
  forallb (isNot NL) a = true -> forallb (isNot NL) b = true ->
  lineBreaks (a ++ [NL; NL] ++ b) = a ++ lit "</p><p>" ++ b.
Proof.
  intros Ha Hb. unfold lineBreaks.
  assert (R2 : opensWith NL re_nlnl) by apply (opensWith_Lit NL [NL]).
  assert (R1 : opensWith NL re_nl) by apply (opensWith_Lit NL []).
  assert (E : replace_all re_nlnl (tmpl [TLit (lit "</p><p>")]) (a ++ [NL; NL] ++ b)
              = a ++ lit "</p><p>" ++ b).
  { change (scan re_nlnl (tmpl [TLit (lit "</p><p>")]) None (a ++ [NL; NL] ++ b)
            = a ++ lit "</p><p>" ++ b).
    rewrite (opens_class NL _ _ R2 a) by exact Ha.
    rewrite (scan_match _ _ _ (Some NL) NL [NL] _ []) by reflexivity.
    rewrite (opens_rest NL _ _ b _ R2 Hb).
    unfold tmpl. cbn [flat_map expand1]. rewrite app_nil_r. reflexivity. }
  rewrite E.
  apply (opens_id NL _ _ _ R1).
  rewrite !forallb_app, Ha, Hb. reflexivity.
Qed.

(** [/<p>\s*b/] does not match at a paragraph whose text is followed
    by a tag other than [b]. *)
Lemma paragraph_keeps (b x r' : jsstring) (p : option code_unit) :
  forallb (isNot LT) x = true ->
  (forallb isSpace x = true -> forall y, r' <> b ++ y) ->
  exec (Seq (Lit (lit "<p>")) (Seq (Star true (Chr isSpace)) (Lit (LT :: b))))
       p (lit "<p>" ++ x ++ LT :: r') = None.
Proof.
  intros Hx Hno.
  destruct (exec _ p (lit "<p>" ++ x ++ LT :: r')) as [st'|] eqn:E; [|reflexivity].
  exfalso. destruct (paragraph_opening b x r' p st' Hx E) as (Hws & y & Ey).
  exact (Hno Hws y Ey).
Qed.

(** The cleanup leaves two lines with a line break between them as
    they are. *)
Lemma cleanup_line_break (a b : jsstring) :
  forallb (isNot LT) a = true -> forallb (isNot LT) b = true ->
  cleanup (wrapParagraph (a ++ lit "<br>" ++ b))
  = wrapParagraph (a ++ lit "<br>" ++ b).
Proof.
  intros Ha Hb.
  assert (R1 : opensWith LT re_empty_p)
    by apply opensWith_Seq, (opensWith_Lit LT (lit "p>")).
  assert (R2 : opensWith LT re_p_ul)
    by apply opensWith_Seq, (opensWith_Lit LT (lit "p>")).
  assert (R3 : opensWith LT re_ul_p)
    by apply opensWith_Seq, (opensWith_Lit LT (lit "/ul>")).
  assert (S : forall r f,
             opensWith LT r ->
             exec r None (lit "<p>" ++ a ++ LT :: lit "br>" ++ b ++ lit "</p>") = None ->
             passes r (lit "<br>") -> passes r (lit "</p>") ->
             replace_all r f (lit "<p>" ++ a ++ lit "<br>" ++ b ++ lit "</p>")
             = lit "<p>" ++ a ++ lit "<br>" ++ b ++ lit "</p>").
  { intros r f Hr H0 H1 H2.
    change (scan r f None
              (LT :: lit "p>" ++ a ++ (LT :: lit "br>") ++ b
                 ++ (LT :: lit "/p>") ++ [])
            = lit "<p>" ++ a ++ lit "<br>" ++ b ++ lit "</p>").
    rewrite scan_cons by exact H0.
    rewrite (opens_class LT _ _ Hr (lit "p>")) by reflexivity.
    rewrite (opens_class LT _ _ Hr a) by exact Ha.
    rewrite (tag_scan _ _ (lit "br>") Hr H1) by reflexivity.
    rewrite (opens_class LT _ _ Hr b) by exact Hb.
    rewrite (tag_scan _ _ (lit "/p>") Hr H2) by reflexivity.
    rewrite (scan_end _ _ _ Hr). reflexivity. }
  unfold cleanup, wrapParagraph. rewrite <- !app_assoc.
  rewrite (S re_empty_p), (S re_p_ul), (S re_ul_p);
    try assumption; try (intros q s; reflexivity); try reflexivity.
  - apply (paragraph_keeps (lit "ul>")); [exact Ha|]. intros _ y Ey.
    discriminate Ey.
  - apply (paragraph_keeps (lit "/p>")); [exact Ha|]. intros _ y Ey.
    discriminate Ey.
Qed.

(** The cleanup leaves two paragraphs that are not white space only as
    they are. *)
Lemma cleanup_two_paragraphs (a b : jsstring) :
  forallb (isNot LT) a = true -> forallb (isNot LT) b = true ->
  forallb isSpace a = false -> forallb isSpace b = false ->
  cleanup (wrapParagraph (a ++ lit "</p><p>" ++ b))
  = wrapParagraph (a ++ lit "</p><p>" ++ b).
Proof.
  intros Ha Hb Hna Hnb.
  assert (R1 : opensWith LT re_empty_p)
    by apply opensWith_Seq, (opensWith_Lit LT (lit "p>")).
  assert (R2 : opensWith LT re_p_ul)
    by apply opensWith_Seq, (opensWith_Lit LT (lit "p>")).
  assert (R3 : opensWith LT re_ul_p)
    by apply opensWith_Seq, (opensWith_Lit LT (lit "/ul>")).
  assert (S : forall r f,
             opensWith LT r ->
             (forall p x r', x = a \/ x = b ->
                exec r p (lit "<p>" ++ x ++ LT :: lit "/p>" ++ r') = None) ->
             passes r (lit "</p>") ->
             replace_all r f (lit "<p>" ++ a ++ lit "</p><p>" ++ b ++ lit "</p>")
             = lit "<p>" ++ a ++ lit "</p><p>" ++ b ++ lit "</p>").
  { intros r f Hr H0 H2.
    change (scan r f None
              (LT :: lit "p>" ++ a ++ (LT :: lit "/p>")
                 ++ LT :: lit "p>" ++ b ++ (LT :: lit "/p>") ++ [])
            = lit "<p>" ++ a ++ lit "</p><p>" ++ b ++ lit "</p>").
    rewrite scan_cons by (apply (H0 None a); left; reflexivity).
    rewrite (opens_class LT _ _ Hr (lit "p>")) by reflexivity.
    rewrite (opens_class LT _ _ Hr a) by exact Ha.
    rewrite (tag_scan _ _ (lit "/p>") Hr H2) by reflexivity.
    rewrite scan_cons by (apply (H0 _ b); right; reflexivity).
    rewrite (opens_class LT _ _ Hr (lit "p>")) by reflexivity.
    rewrite (opens_class LT _ _ Hr b) by exact Hb.
    rewrite (tag_scan _ _ (lit "/p>") Hr H2) by reflexivity.
    rewrite (scan_end _ _ _ Hr). reflexivity. }
  unfold cleanup, wrapParagraph. rewrite <- !app_assoc.
  rewrite (S re_empty_p), (S re_p_ul), (S re_ul_p);
    try assumption; try (intros q s; reflexivity); try reflexivity.
  - intros p x r' Hx.
    apply (paragraph_keeps (lit "ul>")); [destruct Hx; subst x; assumption|].
    intros _ y Ey. discriminate Ey.
  - intros p x r' Hx.
    apply (paragraph_keeps (lit "/p>")); [destruct Hx; subst x; assumption|].
    intros Hws _ _. destruct Hx; subst x; congruence.
Qed.

(** X17: two lines of text without markup, neither opening like a
    heading or a list item, with one line feed between them, come out
    as one paragraph with a [<br>] at the line feed. *)
Theorem line_feed_is_a_break :
  forall (c : code_unit) (t : jsstring) (d : code_unit) (u : jsstring),
    plainText (c :: t) = true -> plainText (d :: u) = true ->
    lineOpener c = false -> lineOpener d = false ->
    formatResponse ((c :: t) ++ [NL] ++ (d :: u))
    = lit "<p>" ++ (c :: t) ++ lit "<br>" ++ (d :: u) ++ lit "</p>".
Proof.
  intros c t d u Ht Hu Hc Hd.
  destruct (ordinary_parts _ Ht) as (_ & _ & _ & Hnl1 & Hlt1 & _).
  destruct (ordinary_parts _ Hu) as (_ & _ & _ & Hnl2 & Hlt2 & _).
  change (formatResponse ((c :: t) ++ [NL] ++ (d :: u)))
    with (markup (escapeHtml ((c :: t) ++ [NL] ++ (d :: u)))).
  unfold markup, afterCodeBlocks.
  rewrite (lines_before_breaks c t [NL] d u Ht Hu Hc Hd eq_refl).
  rewrite (one_newline (c :: t) d u Hnl1 Hnl2).
  rewrite (cleanup_line_break (c :: t) (d :: u) Hlt1 Hlt2).
  unfold wrapParagraph. rewrite <- !app_assoc. reflexivity.
Qed.

Lemma line_feed_is_a_break_witness :
  plainText (lit "one") = true /\ plainText (lit "two") = true
  /\ formatResponse (lit "one" ++ [NL] ++ lit "two") = lit "<p>one<br>two</p>".
Proof.
  split; [reflexivity|]. split; [reflexivity|].
  exact (line_feed_is_a_break 111%N (lit "ne") 116%N (lit "wo")
           eq_refl eq_refl eq_refl eq_refl).
Defined.

(** X18: two lines of text without markup, neither opening like a
    heading or a list item and neither white space only, with two line
    feeds between them, come out as two paragraphs. *)
Theorem blank_line_is_a_paragraph_break :
  forall (c : code_unit) (t : jsstring) (d : code_unit) (u : jsstring),
    plainText (c :: t) = true -> plainText (d :: u) = true ->
    lineOpener c = false -> lineOpener d = false ->
    forallb isSpace (c :: t) = false -> forallb isSpace (d :: u) = false ->
    formatResponse ((c :: t) ++ [NL; NL] ++ (d :: u))
    = lit "<p>" ++ (c :: t) ++ lit "</p><p>" ++ (d :: u) ++ lit "</p>".
Proof.
  intros c t d u Ht Hu Hc Hd Hna Hnb.
  destruct (ordinary_parts _ Ht) as (_ & _ & _ & Hnl1 & Hlt1 & _).
  destruct (ordinary_parts _ Hu) as (_ & _ & _ & Hnl2 & Hlt2 & _).
  change (formatResponse ((c :: t) ++ [NL; NL] ++ (d :: u)))
    with (markup (escapeHtml ((c :: t) ++ [NL; NL] ++ (d :: u)))).
  unfold markup, afterCodeBlocks.
  rewrite (lines_before_breaks c t [NL; NL] d u Ht Hu Hc Hd eq_refl).
  rewrite (two_newlines (c :: t) (d :: u) Hnl1 Hnl2).
  rewrite (cleanup_two_paragraphs (c :: t) (d :: u) Hlt1 Hlt2 Hna Hnb).
  unfold wrapParagraph. rewrite <- !app_assoc. reflexivity.
Qed.

Lemma blank_line_is_a_paragraph_break_witness :
  plainText (lit "one") = true /\ plainText (lit "two") = true
  /\ formatResponse (lit "one" ++ [NL; NL] ++ lit "two")
     = lit "<p>one</p><p>two</p>".
Proof.
  split; [reflexivity|]. split; [reflexivity|].
  exact (blank_line_is_a_paragraph_break 111%N (lit "ne") 116%N (lit "wo")
           eq_refl eq_refl eq_refl eq_refl eq_refl eq_refl).
Defined.

(** * Fenced blocks in their context *)

(** ** The code-block stage *)

Lemma afterTag_word (w r : jsstring) :
  forallb isWord w = true -> afterTag (w ++ NL :: r) = true.
Proof.
  unfold afterTag. induction w as [|c w IH]; intro H; [reflexivity|].
  cbn [forallb] in H. apply andb_true_iff in H. destruct H as [Hc Hw].
  cbn [app dropWhile]. rewrite Hc. apply IH, Hw.
Qed.

(** The code-block pattern matches at an opening fence only. *)
Lemma exec_opens (p : option code_unit) (s : jsstring) (st' : mstate) :
  exec re_code_block p s = Some st' -> opensFence s = true.
Proof.
  intro H. apply exec_sound in H. unfold re_code_block in H.
  apply M_seq in H. destruct H as (st1 & H1 & H).
  apply M_seq in H. destruct H as (st2 & H2 & H).
  apply M_seq in H. destruct H as (st3 & H3 & _).
  apply M_lit in H1. destruct H1 as [E1 _]. cbn [rest] in E1.
  apply M_chr in H3. destruct H3 as (c & E3 & Hc & _).
  unfold isChar in Hc. apply N.eqb_eq in Hc. subst c.
  assert (Hw : exists w, rest st1 = w ++ rest st2 /\ forallb isWord w = true).
  { inversion H2; subst.
    - exists []. split; reflexivity.
    - match goal with H : Matches (Group _ _) _ _ |- _ =>
        apply M_group_plus in H; destruct H as (c & l & E & Hc & Hl & _) end.
      exists (c :: l). split; [exact E|]. cbn [forallb]. rewrite Hc, Hl.
      reflexivity. }
  destruct Hw as (w & E2 & Hw).
  unfold opensFence. rewrite E1, E2, E3, prefixb_app.
  change 3 with (length (lit "```")). rewrite skipn_app_length.
  apply afterTag_word, Hw.
Qed.

Lemma afterTag_backtick (r y : jsstring) :
  afterTag (r ++ BACKTICK :: y) = true -> afterTag r = true.
Proof.
  unfold afterTag. induction r as [|c r IH]; cbn [app dropWhile].
  - intro H. discriminate H.
  - destruct (isWord c); [exact IH | intro H; exact H].
Qed.

(** Backticks that follow a text do not make an opening fence with the
    backticks at its end. *)
Lemma opensFence_ahead (u y : jsstring) :
  u <> [] -> opensFence (u ++ lit "```" ++ y) = true -> opensFence u = true.
Proof.
  intros Hu H. unfold opensFence in H |- *.
  apply andb_true_iff in H. destruct H as [Hp Ha].
  destruct u as [|c1 [|c2 [|c3 u]]]; [contradiction|..].
  - discriminate Ha.
  - discriminate Ha.
  - cbn [app skipn] in Ha |- *.
    change (lit "```" ++ y) with (BACKTICK :: lit "``" ++ y) in Ha.
    rewrite (afterTag_backtick _ _ Ha), andb_true_r.
    change (prefixb (lit "```"))
      with (prefixb (BACKTICK :: BACKTICK :: [BACKTICK])) in Hp |- *.
    cbn [app] in Hp. rewrite !prefixb_cons in Hp |- *.
    apply andb_true_iff in Hp. destruct Hp as [-> Hp].
    apply andb_true_iff in Hp. destruct Hp as [-> Hp].
    apply andb_true_iff in Hp. destruct Hp as [-> _]. reflexivity.
Qed.

(** Text without an opening fence is copied up to the fence that
    follows it. *)
Lemma replace_go_text (f : replacer) (y : jsstring) :
  forall t fuel p,
    fenceless t = true ->
    length (t ++ lit "```" ++ y) < fuel ->
    replace_go re_code_block f fuel p (t ++ lit "```" ++ y)
    = t ++ replace_go re_code_block f (fuel - length t) (lastOr p t)
             (lit "```" ++ y).
Proof.
  induction t as [|c t IH]; intros fuel p Ht Hf.
  - cbn [app length lastOr fold_left]. rewrite Nat.sub_0_r. reflexivity.
  - change (fenceless (c :: t))
      with (negb (opensFence (c :: t)) && fenceless t)%bool in Ht.
    apply andb_true_iff in Ht. destruct Ht as [Hc Ht].
    apply negb_true_iff in Hc.
    cbn [app length] in Hf.
    destruct fuel as [|fuel]; [lia|].
    cbn [replace_go app].
    destruct (exec re_code_block p (c :: t ++ lit "```" ++ y)) as [st'|] eqn:E.
    + exfalso. apply exec_opens in E.
      apply (opensFence_ahead (c :: t)) in E; [|discriminate].
      rewrite E in Hc. discriminate Hc.
    + rewrite (IH fuel (Some c) Ht) by lia. reflexivity.
Qed.

(** The stage renders a fenced block that follows such a text. *)
Lemma codeBlocks_fenced (pre lang code post : jsstring) :
  fenceless pre = true ->
  forallb isWord lang = true ->
  fenceFree code = true ->
  codeBlocks (pre ++ fence lang code ++ post)
  = pre ++ codeOpen (langOrText lang) ++ trim code ++ codeClose
      ++ codeBlocks post.
Proof.
  intros Hpre Hlang Hfree. unfold codeBlocks, replace_all.
  rewrite fence_unfold.
  rewrite replace_go_text by (exact Hpre || lia). f_equal.
  rewrite <- fence_unfold.
  remember (S (length (pre ++ fence lang code ++ post)) - length pre) as fuel
    eqn:Ef.
  assert (Hfuel : fuel = S (length (fence lang code ++ post))).
  { subst fuel. rewrite length_app. lia. }
  remember (replace_go re_code_block code_block_replacer
              (S (length post)) None post) as out eqn:Eout.
  rewrite Hfuel. cbn [replace_go].
  rewrite (exec_fence _ lang code post Hlang Hfree). cbn [rest caps].
  rewrite consumed_app.
  assert (Hlen : 6 <= length (fence lang code)).
  { unfold fence. rewrite !length_app. simpl. lia. }
  destruct (fence lang code) as [|x m] eqn:Em; [simpl in Hlen; lia|].
  rewrite code_block_replacer_fence, <- !app_assoc. do 3 f_equal.
  subst out.
  rewrite (replace_go_prev re_code_block code_block_replacer eq_refl _ _ None).
  apply replace_go_fuel; [rewrite length_app; simpl; lia | lia].
Qed.

(** Escaping makes no opening fence. *)
Lemma afterTag_escape (s : jsstring) :
  afterTag (flat_map escapeChar s) = afterTag s.
Proof.
  unfold afterTag. induction s as [|c s IH]; [reflexivity|].
  cbn [flat_map].
  destruct (escapeChar_cases c) as [[_ Ec]|[[-> Ec]|[[-> Ec]|[-> Ec]]]];
    rewrite Ec; try reflexivity.
  cbn [app dropWhile]. destruct (isWord c); [exact IH | reflexivity].
Qed.

Lemma opensFence_escape (s : jsstring) :
  opensFence (flat_map escapeChar s) = opensFence s.
Proof.
  unfold opensFence.
  assert (Hp : prefixb (lit "```") (flat_map escapeChar s)
               = prefixb (lit "```") s).
  { pose proof (escape_backticks_prefix (lit "```")) as H.
    specialize (H ltac:(intros c [<-|[<-|[<-|[]]]]; reflexivity) s []).
    rewrite !app_nil_r in H. exact H. }
  rewrite Hp. destruct (prefixb (lit "```") s) eqn:E; [|reflexivity].
  destruct (prefixb_true _ _ E) as (s' & ->).
  rewrite flat_map_app.
  change (flat_map escapeChar (lit "```")) with (lit "```").
  change 3 with (length (lit "```")). rewrite !skipn_app_length.
  cbn [andb]. apply afterTag_escape.
Qed.

Lemma fenceless_cons (c : code_unit) (t : jsstring) :
  fenceless (c :: t) = (negb (opensFence (c :: t)) && fenceless t)%bool.
Proof. reflexivity. Qed.

Lemma escape_fenceless (t : jsstring) :
  fenceless t = true -> fenceless (flat_map escapeChar t) = true.
Proof.
  induction t as [|c t IH]; intro H; [reflexivity|].
  rewrite fenceless_cons in H. apply andb_true_iff in H. destruct H as [Hc Ht].
  specialize (IH Ht).
  pose proof (opensFence_escape (c :: t)) as Ho. cbn [flat_map] in Ho |- *.
  destruct (escapeChar_cases c) as [[_ Ec]|[[_ Ec]|[[_ Ec]|[_ Ec]]]];
    rewrite Ec in Ho |- *.
  - cbn [app] in Ho |- *. rewrite fenceless_cons, Ho, Hc, IH. reflexivity.
  - exact IH.
  - exact IH.
  - exact IH.
Qed.

(** The stage on a text of fenced blocks: the blocks before the one
    in view are rendered, and so is the one in view. *)
Lemma codeBlocks_source (rest : jsstring) :
  forall earlier : list fenced,
    forallb fencedOk earlier = true ->
    exists a, codeBlocks (escapeHtml (source earlier ++ rest))
              = a ++ codeBlocks (escapeHtml rest).
Proof.
  induction earlier as [|f fs IH]; intro H.
  - exists []. reflexivity.
  - cbn [forallb] in H. apply andb_true_iff in H. destruct H as [Hf Hfs].
    destruct (IH Hfs) as (a & Ea).
    unfold fencedOk in Hf. apply andb_true_iff in Hf. destruct Hf as [Hf Hfree].
    apply andb_true_iff in Hf. destruct Hf as [Hless Hword].
    cbn [source flat_map]. fold (source fs). rewrite <- !app_assoc.
    rewrite (escapeHtml_fence _ _ _ _ Hword).
    rewrite codeBlocks_fenced;
      [|rewrite escapeHtml_flat_map; apply escape_fenceless, Hless
       |exact Hword
       |rewrite escapeHtml_flat_map; apply escape_fenceFree, Hfree].
    rewrite Ea. eexists. rewrite !app_assoc. reflexivity.
Qed.

(** ** Where a match can lie in a text around a block *)

(** A piece at the head of the text, in which the first code unit of
    the block does not occur, ends before the block. *)
Lemma prefix_before (a B b h v : jsstring) (c0 : code_unit) (B' : jsstring) :
  B = c0 :: B' -> ~ In c0 h ->
  a ++ B ++ b = h ++ v ->
  exists l, a = h ++ l /\ v = l ++ B ++ b.
Proof.
  intros EB Hh E. destruct (app_eq_app _ _ _ _ E) as (l & [[E1 E2]|[E1 E2]]).
  - exists l. split; assumption.
  - destruct l as [|e l].
    + exists []. rewrite app_nil_r in E1. cbn [app] in E2 |- *.
      split; [rewrite app_nil_r; symmetry; exact E1 | symmetry; exact E2].
    + exfalso. rewrite EB in E2. cbn [app] in E2. injection E2 as <- _.
      apply Hh. rewrite E1. apply in_or_app. right. left. reflexivity.
Qed.

(** A run that is followed by what cannot stand in the block ends
    before the block or holds it. *)
Lemma group_around (l B b g v : jsstring) :
  match v with [] => True | e :: _ => ~ In e B end ->
  l ++ B ++ b = g ++ v ->
  (exists l2, l = g ++ l2 /\ v = l2 ++ B ++ b) \/ within B g.
Proof.
  intros Hv E. destruct (app_eq_app _ _ _ _ E) as (l2 & [[E1 E2]|[E1 E2]]).
  - left. exists l2. split; assumption.
  - right. destruct (app_eq_app _ _ _ _ E2) as (l3 & [[E3 E4]|[E3 E4]]).
    + destruct l3 as [|e l3].
      * exists l, []. rewrite app_nil_r in E3. rewrite E1, E3, app_nil_r.
        reflexivity.
      * exfalso. rewrite E4 in Hv. cbn [app] in Hv. apply Hv. rewrite E3.
        apply in_or_app. right. left. reflexivity.
    + exists l, l3. rewrite E1, E3. reflexivity.
Qed.

Lemma notin_class (x : code_unit) (s : jsstring) :
  forallb (isNot x) s = true -> ~ In x s.
Proof.
  intros H Hin. rewrite forallb_forall in H. specialize (H x Hin).
  unfold isNot in H. rewrite N.eqb_refl in H. discriminate H.
Qed.

Lemma notin_line (e : code_unit) (s : jsstring) :
  forallb isDot s = true -> isLineTerminator e = true -> ~ In e s.
Proof.
  intros H He Hin. rewrite forallb_forall in H. specialize (H e Hin).
  unfold isDot in H. rewrite He in H. discriminate H.
Qed.

(** The next [<] of a text. *)
Lemma lt_step (x rest u v : jsstring) :
  ~ In LT x ->
  x ++ LT :: rest = u ++ LT :: v ->
  (u = x /\ v = rest) \/ (exists u', u = x ++ LT :: u' /\ rest = u' ++ LT :: v).
Proof.
  intros Hx E. destruct (app_eq_app _ _ _ _ E) as (l & [[E1 E2]|[E1 E2]]).
  - destruct l as [|e l].
    + left. rewrite app_nil_r in E1. cbn [app] in E2. injection E2 as E2.
      split; [symmetry; exact E1 | exact E2].
    + exfalso. cbn [app] in E2. injection E2 as <- _. apply Hx. rewrite E1.
      apply in_or_app. right. left. reflexivity.
  - destruct l as [|e l].
    + left. rewrite app_nil_r in E1. cbn [app] in E2. injection E2 as E2.
      split; [exact E1 | symmetry; exact E2].
    + right. cbn [app] in E2. injection E2 as <- E2. exists l.
      split; assumption.
Qed.

Lemma lt_last (x w u v : jsstring) :
  ~ In LT x ->
  x ++ w = u ++ LT :: v ->
  exists u', u = x ++ u' /\ w = u' ++ LT :: v.
Proof.
  intros Hx E. destruct (app_eq_app _ _ _ _ E) as (l & [[E1 E2]|[E1 E2]]).
  - destruct l as [|e l].
    + exists []. rewrite app_nil_r in E1 |- *. cbn [app] in E2 |- *.
      split; [symmetry; exact E1 | symmetry; exact E2].
    + exfalso. cbn [app] in E2. injection E2 as <- _. apply Hx. rewrite E1.
      apply in_or_app. right. left. reflexivity.
  - exists l. split; assumption.
Qed.

(** ** A substitution that keeps a piece of the text

    A piece [B] of the text stays in one piece under a substitution
    when no match begins inside it and every match that begins before
    it either ends before it or writes it out again. *)
Section Keeps.

Variable B : jsstring.
Variable r : regex.
Variable f : replacer.
Hypothesis Hscan :
  forall p b, exists q, scan r f p (B ++ b) = B ++ scan r f q b.
Hypothesis Hmatch :
  forall a b p st',
    a <> [] ->
    exec r p (a ++ B ++ b) = Some st' ->
    (exists a2, a = consumed (a ++ B ++ b) (rest st') ++ a2)
    \/ within B (f (consumed (a ++ B ++ b) (rest st')) (caps st')).

Lemma keeps_go :
  forall fuel a p b,
    length (a ++ B ++ b) < fuel ->
    within B (replace_go r f fuel p (a ++ B ++ b)).
Proof.
  induction fuel as [|fuel IH]; intros a p b Hf; [lia|].
  destruct a as [|x a].
  - cbn [app] in Hf |- *. destruct (Hscan p b) as (q & E). unfold scan in E.
    rewrite (replace_go_fuel r f (S fuel) (S (length (B ++ b)))) by lia.
    rewrite E. exists [], (scan r f q b). reflexivity.
  - cbn [replace_go].
    destruct (exec r p ((x :: a) ++ B ++ b)) as [st'|] eqn:E.
    + pose proof (exec_shorter _ _ _ _ E) as Es.
      destruct (Hmatch (x :: a) b p st' ltac:(discriminate) E)
        as [(a2 & Ea)|(u & v & Ef)].
      * remember (consumed ((x :: a) ++ B ++ b) (rest st')) as m eqn:Em.
        assert (Er : rest st' = a2 ++ B ++ b).
        { rewrite Ea, <- app_assoc in Es. apply app_inv_head in Es.
          symmetry. exact Es. }
        destruct m as [|c l].
        -- cbn [app] in Ea |- *.
           destruct (IH a (Some x) b) as (a' & b' & E');
             [cbn [app length] in Hf; lia|].
           rewrite E'. exists (f [] (caps st') ++ x :: a'), b'.
           rewrite <- !app_assoc. reflexivity.
        -- rewrite Er.
           destruct (IH a2 (Some (last (c :: l) 0%N)) b) as (a' & b' & E').
           { apply (f_equal (@length code_unit)) in Ea.
             rewrite !length_app in Hf |- *. rewrite length_app in Ea.
             cbn [length] in Hf, Ea. lia. }
           rewrite E'. exists (f (c :: l) (caps st') ++ a'), b'.
           rewrite <- !app_assoc. reflexivity.
      * remember (consumed ((x :: a) ++ B ++ b) (rest st')) as m eqn:Em.
        destruct m as [|c l]; rewrite Ef; eexists u, _;
          rewrite <- !app_assoc; reflexivity.
    + cbn [app].
      destruct (IH a (Some x) b) as (a' & b' & E');
        [cbn [app length] in Hf; lia|].
      rewrite E'. exists (x :: a'), b'. reflexivity.
Qed.

Lemma keeps (s : jsstring) : within B s -> within B (replace_all r f s).
Proof.
  intros (a & b & ->). unfold replace_all. apply keeps_go. lia.
Qed.

End Keeps.

(** ** The shape of the matches of the later patterns *)

Lemma wrap1_group (open close : string) (m g : jsstring) (cs : captures) :
  wrap1 open close m ((1, g) :: cs) = lit open ++ g ++ lit close.
Proof.
  unfold wrap1, tmpl. cbn [flat_map expand1 get_cap Nat.eqb].
  rewrite app_nil_r. reflexivity.
Qed.

Lemma within_wrap (B g x y : jsstring) :
  within B g -> within B (x ++ g ++ y).
Proof.
  intros (u & v & ->). exists (x ++ u), (v ++ y).
  rewrite <- !app_assoc. reflexivity.
Qed.

Lemma M_delimited (d : jsstring) (g : bool) (P : code_unit -> bool)
    (p : option code_unit) (s : jsstring) (st' : mstate) :
  exec (Seq (Lit d) (Seq (Group 1 (Plus g (Chr P))) (Lit d))) p s = Some st' ->
  exists c l, s = d ++ (c :: l) ++ d ++ rest st' /\ caps st' = [(1, c :: l)].
Proof.
  intro H. apply exec_sound in H.
  apply M_seq in H. destruct H as (st1 & H1 & H).
  apply M_seq in H. destruct H as (st2 & H2 & H3).
  apply M_lit in H1. destruct H1 as [E1 C1]. cbn [rest caps] in E1, C1.
  apply M_group_plus in H2. destruct H2 as (c & l & E2 & _ & _ & C2).
  apply M_lit in H3. destruct H3 as [E3 C3].
  exists c, l. rewrite E1, E2, E3, C3, C2, C1. split; reflexivity.
Qed.

Lemma M_line (h : jsstring) (p : option code_unit) (s : jsstring)
    (st' : mstate) :
  exec (Seq Bol (Seq (Lit h) (Seq (Group 1 (Plus true (Chr isDot))) Eol))) p s
  = Some st' ->
  exists c l, s = h ++ (c :: l) ++ rest st' /\ caps st' = [(1, c :: l)]
    /\ match rest st' with
       | [] => True
       | e :: _ => isLineTerminator e = true
       end.
Proof.
  intro H. apply exec_sound in H.
  apply M_seq in H. destruct H as (st1 & H1 & H).
  apply M_seq in H. destruct H as (st2 & H2 & H).
  apply M_seq in H. destruct H as (st3 & H3 & H4).
  apply M_bol in H1. destruct H1 as [-> _].
  apply M_lit in H2. destruct H2 as [E2 C2]. cbn [rest caps] in E2, C2.
  apply M_group_plus in H3. destruct H3 as (c & l & E3 & _ & _ & C3).
  apply M_eol in H4. destruct H4 as [-> He].
  exists c, l. rewrite E2, E3, C3, C2. repeat split.
  destruct He as [->|(e & t & -> & He)]; [exact I | exact He].
Qed.

Lemma M_numbered (p : option code_unit) (s : jsstring) (st' : mstate) :
  exec re_numbered p s = Some st' ->
  exists d ds c l,
    s = ((d :: ds) ++ lit ". ") ++ (c :: l) ++ rest st'
    /\ forallb isDigit (d :: ds) = true
    /\ caps st' = [(2, c :: l); (1, d :: ds)]
    /\ match rest st' with
       | [] => True
       | e :: _ => isLineTerminator e = true
       end.
Proof.
  intro H. apply exec_sound in H. unfold re_numbered in H.
  apply M_seq in H. destruct H as (st1 & H1 & H).
  apply M_seq in H. destruct H as (st2 & H2 & H).
  apply M_seq in H. destruct H as (st3 & H3 & H).
  apply M_seq in H. destruct H as (st4 & H4 & H5).
  apply M_bol in H1. destruct H1 as [-> _].
  apply M_group_plus in H2. destruct H2 as (d & ds & E2 & Hd & Hds & C2).
  cbn [rest caps] in E2, C2.
  apply M_lit in H3. destruct H3 as [E3 C3].
  apply M_group_plus in H4. destruct H4 as (c & l & E4 & _ & _ & C4).
  apply M_eol in H5. destruct H5 as [-> He].
  exists d, ds, c, l. rewrite E2, E3, E4, C4, C3, C2. repeat split.
  - rewrite <- !app_assoc. reflexivity.
  - cbn [forallb]. rewrite Hd, Hds. reflexivity.
  - destruct He as [->|(e & t & -> & He)]; [exact I | exact He].
Qed.

Lemma M_tags (t1 t2 : jsstring) (p : option code_unit) (s : jsstring)
    (st' : mstate) :
  exec (Seq (Lit t1) (Seq (Star true (Chr isSpace)) (Lit t2))) p s = Some st' ->
  exists ws, s = t1 ++ ws ++ t2 ++ rest st' /\ forallb isSpace ws = true.
Proof.
  intro H. apply exec_sound in H.
  apply M_seq in H. destruct H as (st1 & H1 & H).
  apply M_seq in H. destruct H as (st2 & H2 & H3).
  apply M_lit in H1. destruct H1 as [E1 _]. cbn [rest] in E1.
  apply M_star_chr in H2. destruct H2 as (ws & E2 & Hws & _).
  apply M_lit in H3. destruct H3 as [E3 _].
  exists ws. rewrite E1, E2, E3. split; [reflexivity | exact Hws].
Qed.

(** A list item ends with its closing tag, or with the line feed after
    it. *)
Lemma li_item_ends (st st' : mstate) :
  Matches li_item st st' ->
  exists y o, rest st = y ++ lit "</li>" ++ o ++ rest st'
              /\ (o = [] \/ o = [NL]).
Proof.
  intro HM. unfold li_item in HM.
  apply M_group in HM. destruct HM as (st0 & HM & -> & _).
  apply M_seq in HM. destruct HM as (st1 & H1 & HM).
  apply M_seq in HM. destruct HM as (st2 & H2 & HM).
  apply M_seq in HM. destruct HM as (st3 & H3 & H4).
  apply M_lit in H1. destruct H1 as [E1 _].
  apply M_star_chr in H2. destruct H2 as (ds & E2 & _ & _).
  apply M_lit in H3. destruct H3 as [E3 _].
  rewrite E1, E2, E3.
  inversion H4; subst.
  - exists (lit "<li>" ++ ds), []. split; [|left; reflexivity].
    rewrite <- !app_assoc. reflexivity.
  - match goal with H : Matches (Chr _) _ _ |- _ =>
      apply M_chr in H; destruct H as (c & E4 & Hc & _) end.
    unfold isChar in Hc. apply N.eqb_eq in Hc. subst c.
    exists (lit "<li>" ++ ds), [NL]. split; [|right; reflexivity].
    rewrite E4, <- !app_assoc. reflexivity.
Qed.

Lemma li_star_ends (g : bool) (st st' : mstate) :
  Matches (Star g li_item) st st' ->
  rest st = rest st'
  \/ exists y o, rest st = y ++ lit "</li>" ++ o ++ rest st'
                 /\ (o = [] \/ o = [NL]).
Proof.
  intro HM. remember (Star g li_item) as r eqn:Er.
  induction HM; try discriminate Er.
  - left. reflexivity.
  - injection Er as -> ->. right.
    apply li_item_ends in HM1. destruct HM1 as (y & o & E1 & Ho).
    destruct (IHHM2 eq_refl) as [E2|(y2 & o2 & E2 & Ho2)].
    + exists y, o. rewrite E1, E2. split; [reflexivity | exact Ho].
    + exists (y ++ lit "</li>" ++ o ++ y2), o2. rewrite E1, E2.
      split; [|exact Ho2]. rewrite <- !app_assoc. reflexivity.
Qed.

Lemma M_li_run (p : option code_unit) (s : jsstring) (st' : mstate) :
  exec re_li_run p s = Some st' ->
  exists y o, s = y ++ lit "</li>" ++ o ++ rest st' /\ (o = [] \/ o = [NL]).
Proof.
  intro H. apply exec_sound in H. unfold re_li_run in H.
  inversion H as [| | | | | | |g r st0 st1 st2 H1 H2| | | | |]; subst.
  apply li_item_ends in H1. destruct H1 as (y & o & E1 & Ho).
  cbn [rest] in E1.
  apply li_star_ends in H2. destruct H2 as [E2|(y2 & o2 & E2 & Ho2)].
  - exists y, o. rewrite E1, E2. split; [reflexivity | exact Ho].
  - exists (y ++ lit "</li>" ++ o ++ y2), o2. rewrite E1, E2.
    split; [|exact Ho2]. rewrite <- !app_assoc. reflexivity.
Qed.

(** ** The later stages keep a rendered block with inert content *)

Section KeptBlock.

Variables lang body : jsstring.
Hypothesis Hlang : forallb isWord lang = true.
Hypothesis Hbody : inert body = true.
Hypothesis Hescaped : forallb (isNot LT) body = true.

Local Abbreviation B := (renderedBlock lang body).

Lemma B_head : exists B', B = LT :: B'.
Proof. eexists. apply block_head. Qed.

Lemma B_backtick : ~ In BACKTICK B.
Proof.
  apply notin_class. destruct (inert_parts body Hbody) as (_ & Hb & _).
  apply (block_first lang body Hlang); try reflexivity. exact Hb.
Qed.

Lemma B_star : ~ In STAR B.
Proof.
  apply notin_class. destruct (inert_parts body Hbody) as (_ & _ & Hs & _).
  apply (block_first lang body Hlang); try reflexivity. exact Hs.
Qed.

Lemma B_newline : ~ In NL B.
Proof.
  apply notin_class. destruct (inert_parts body Hbody) as (_ & _ & _ & Hn).
  apply (block_first lang body Hlang); try reflexivity. exact Hn.
Qed.

Lemma B_line (e : code_unit) : isLineTerminator e = true -> ~ In e B.
Proof.
  apply notin_line, (block_isDot lang body Hlang Hbody).
Qed.

Lemma B_space (ws : jsstring) : forallb isSpace ws = true -> ~ In LT ws.
Proof.
  intro H. apply notin_class, space_not_lt, H.
Qed.

(** Where a [<] stands in the block, one of its four tags begins. *)
Lemma B_tags (w u v : jsstring) :
  B ++ w = u ++ LT :: v ->
  (exists v', v = lit "pre>" ++ v')
  \/ (exists v', v = lit "code class=" ++ v')
  \/ (exists v', v = lit "/code>" ++ v')
  \/ (exists v', v = lit "/pre>" ++ v')
  \/ (exists u', u = B ++ u').
Proof.
  intro E. rewrite (block_chunks lang body) in E |- *.
  pose proof (block_inside lang body Hlang Hescaped) as Hin.
  apply notin_class in Hin.
  set (inside := lit "code class=" ++ [DQUOTE] ++ lit "language-" ++ lang
                   ++ [DQUOTE] ++ lit ">" ++ body) in *.
  assert (Ei : exists i, inside = lit "code class=" ++ i)
    by (eexists; reflexivity).
  clearbody inside.
  rewrite <- !app_assoc in E. cbn [app] in E.
  destruct (lt_step [] _ u v ltac:(intros []) E) as [[-> ->]|(u1 & -> & E1)].
  { left. eexists. reflexivity. }
  destruct (lt_step (lit "pre>") _ u1 v ltac:(intro H; cbn in H; intuition discriminate) E1)
    as [[-> ->]|(u2 & -> & E2)].
  { right. left. destruct Ei as (i & ->). eexists.
    rewrite <- !app_assoc. reflexivity. }
  destruct (lt_step inside _ u2 v Hin E2) as [[-> ->]|(u3 & -> & E3)].
  { right. right. left. eexists. reflexivity. }
  destruct (lt_step (lit "/code>") _ u3 v ltac:(intro H; cbn in H; intuition discriminate) E3)
    as [[-> ->]|(u4 & -> & E4)].
  { right. right. right. left. eexists. reflexivity. }
  destruct (lt_last (lit "/pre>") w u4 v ltac:(intro H; cbn in H; intuition discriminate) E4)
    as (u5 & -> & _).
  right. right. right. right. exists u5.
  rewrite <- !app_assoc. reflexivity.
Qed.

(** *** Patterns between two delimiters *)

Lemma delimited_match (x : code_unit) (d : jsstring) (g : bool)
    (P : code_unit -> bool) (open close : string) :
  d <> [] -> (forall c, In c d -> c = x) -> ~ In x B ->
  forall a b p st',
    a <> [] ->
    exec (Seq (Lit d) (Seq (Group 1 (Plus g (Chr P))) (Lit d))) p (a ++ B ++ b)
    = Some st' ->
    (exists a2, a = consumed (a ++ B ++ b) (rest st') ++ a2)
    \/ within B (wrap1 open close (consumed (a ++ B ++ b) (rest st')) (caps st')).
Proof.
  intros Hd Hx HB a b p st' _ E.
  destruct (M_delimited _ _ _ _ _ _ E) as (c & l & Es & Ec).
  destruct B_head as (B' & EB).
  assert (Hlt : ~ In LT d).
  { intro H. apply HB. rewrite <- (Hx _ H), EB. left. reflexivity. }
  assert (Em : a ++ B ++ b = (d ++ (c :: l) ++ d) ++ rest st')
    by (rewrite Es, <- !app_assoc; reflexivity).
  rewrite Em, consumed_app, Ec, wrap1_group.
  destruct (prefix_before a B b d _ LT B' EB Hlt Es) as (l1 & -> & E1).
  symmetry in E1.
  assert (Hv : match d ++ rest st' with [] => True | e :: _ => ~ In e B end).
  { destruct d as [|e d']; [contradiction|]. cbn [app].
    rewrite (Hx e (or_introl eq_refl)). exact HB. }
  destruct (group_around l1 B b (c :: l) _ Hv E1) as [(l2 & -> & E2)|Hg].
  - left. symmetry in E2.
    destruct (prefix_before l2 B b d _ LT B' EB Hlt E2) as (l3 & -> & _).
    exists l3. rewrite <- !app_assoc. reflexivity.
  - right. apply within_wrap, Hg.
Qed.

Lemma delimited_keeps (x : code_unit) (d : jsstring) (g : bool)
    (P : code_unit -> bool) (open close : string) (s : jsstring) :
  d <> [] -> (forall c, In c d -> c = x) -> forallb (isNot x) B = true ->
  opensWith x (Seq (Lit d) (Seq (Group 1 (Plus g (Chr P))) (Lit d))) ->
  within B s ->
  within B (replace_all (Seq (Lit d) (Seq (Group 1 (Plus g (Chr P))) (Lit d)))
              (wrap1 open close) s).
Proof.
  intros Hd Hx HB Ho. apply keeps.
  - intros p b. eexists. apply (opens_class x _ _ Ho). exact HB.
  - apply (delimited_match x); [exact Hd | exact Hx | apply notin_class, HB].
Qed.

(** *** Patterns that take a line *)

Lemma line_around (h g : jsstring) (a b : jsstring) (st' : mstate) :
  ~ In LT h ->
  a ++ B ++ b = h ++ g ++ rest st' ->
  match rest st' with [] => True | e :: _ => isLineTerminator e = true end ->
  (exists a2, a = (h ++ g) ++ a2) \/ within B g.
Proof.
  intros Hh Es He. destruct B_head as (B' & EB).
  destruct (prefix_before a B b h _ LT B' EB Hh Es) as (l1 & -> & E1).
  symmetry in E1.
  assert (Hv : match rest st' with [] => True | e :: _ => ~ In e B end).
  { destruct (rest st') as [|e t]; [exact I | apply B_line, He]. }
  destruct (group_around l1 B b g _ Hv E1) as [(l2 & -> & _)|Hg].
  - left. exists l2. rewrite <- !app_assoc. reflexivity.
  - right. exact Hg.
Qed.

Lemma line_match (h : jsstring) (open close : string) :
  ~ In LT h ->
  forall a b p st',
    a <> [] ->
    exec (Seq Bol (Seq (Lit h) (Seq (Group 1 (Plus true (Chr isDot))) Eol))) p
         (a ++ B ++ b) = Some st' ->
    (exists a2, a = consumed (a ++ B ++ b) (rest st') ++ a2)
    \/ within B (wrap1 open close (consumed (a ++ B ++ b) (rest st')) (caps st')).
Proof.
  intros Hh a b p st' _ E.
  destruct (M_line _ _ _ _ E) as (c & l & Es & Ec & He).
  assert (Em : a ++ B ++ b = (h ++ (c :: l)) ++ rest st')
    by (rewrite Es, <- !app_assoc; reflexivity).
  rewrite Em, consumed_app, Ec, wrap1_group.
  destruct (line_around h (c :: l) a b st' Hh Es He) as [Ha|Hg].
  - left. exact Ha.
  - right. apply within_wrap, Hg.
Qed.

Lemma B_line_scan (r : regex) (f : replacer) :
  (forall p c s, lineOpener c = false -> exec (Seq Bol r) p (c :: s) = None) ->
  forall p b, exists q, scan (Seq Bol r) f p (B ++ b) = B ++ scan (Seq Bol r) f q b.
Proof.
  intros Hopener p b. pose proof (block_isDot lang body Hlang Hbody) as Hd.
  rewrite (block_head lang body) in Hd |- *. eexists.
  apply (anchored_line r f Hopener); [reflexivity | exact Hd].
Qed.

Lemma heading_keeps (hashes open close : string) (x : code_unit)
    (d s : jsstring) :
  lit hashes = x :: d -> lineOpener x = true -> ~ In LT (lit hashes) ->
  within B s ->
  within B (replace_all (re_heading hashes) (wrap1 open close) s).
Proof.
  intros Eh Hx Hlt.
  destruct (heading_needs_opener hashes x d Eh Hx) as [Hopener _].
  unfold re_heading in Hopener |- *. apply keeps.
  - apply B_line_scan. exact Hopener.
  - apply line_match. exact Hlt.
Qed.

Lemma digits_not_lt (n : jsstring) : forallb isDigit n = true -> ~ In LT n.
Proof.
  intros H Hin. rewrite forallb_forall in H. specialize (H LT Hin).
  discriminate H.
Qed.

Lemma numbered_keeps (s : jsstring) :
  within B s ->
  within B (replace_all re_numbered
              (tmpl [TLit (lit "<li>"); TGroup 2; TLit (lit "</li>")]) s).
Proof.
  assert (Hopener : forall p c t,
            lineOpener c = false -> exec re_numbered p (c :: t) = None).
  { intros p c t Hc. apply numbered_needs_digit, (lineOpener_parts c Hc). }
  unfold re_numbered in Hopener |- *. apply keeps.
  - apply B_line_scan. exact Hopener.
  - intros a b p st' _ E. fold re_numbered in E.
    destruct (M_numbered _ _ _ E) as (d & ds & c & l & Es & Hd & Ec & He).
    assert (Em : a ++ B ++ b
                 = (((d :: ds) ++ lit ". ") ++ (c :: l)) ++ rest st')
      by (rewrite Es, <- !app_assoc; reflexivity).
    rewrite Em, consumed_app, Ec.
    unfold tmpl. cbn [flat_map expand1 get_cap Nat.eqb]. rewrite app_nil_r.
    assert (Hh : ~ In LT ((d :: ds) ++ lit ". ")).
    { intro H. apply in_app_or in H. destruct H as [H|H].
      - exact (digits_not_lt _ Hd H).
      - cbn in H. intuition discriminate. }
    destruct (line_around _ (c :: l) a b st' Hh Es He) as [Ha|Hg].
    + left. exact Ha.
    + right. apply within_wrap, Hg.
Qed.

(** *** Patterns that are one literal *)

Lemma literal_keeps (x : code_unit) (d t s : jsstring) :
  forallb (isNot x) B = true -> opensWith x (Lit d) -> ~ In LT d ->
  within B s -> within B (replace_all (Lit d) (tmpl [TLit t]) s).
Proof.
  intros HB Ho Hlt. apply keeps.
  - intros p b. eexists. apply (opens_class x _ _ Ho). exact HB.
  - intros a b p st' _ E. left. apply exec_sound in E.
    apply M_lit in E. destruct E as [Es _]. cbn [rest] in Es.
    rewrite Es, consumed_app.
    destruct B_head as (B' & EB).
    destruct (prefix_before a B b d _ LT B' EB Hlt Es) as (l & -> & _).
    exists l. reflexivity.
Qed.

(** *** Patterns that join two tags *)

Lemma tags_match (t1 t2 : jsstring) :
  ~ In LT t1 -> ~ In LT t2 ->
  (forall w v, B ++ w <> (LT :: t2) ++ v) ->
  forall a b p st',
    a <> [] ->
    exec (Seq (Lit (LT :: t1)) (Seq (Star true (Chr isSpace)) (Lit (LT :: t2)))) p
         (a ++ B ++ b) = Some st' ->
    exists a2, a = consumed (a ++ B ++ b) (rest st') ++ a2.
Proof.
  intros H1 H2 Hno a b p st' Ha E.
  destruct (M_tags _ _ _ _ _ E) as (ws & Es & Hws).
  assert (Em : a ++ B ++ b = ((LT :: t1) ++ ws ++ LT :: t2) ++ rest st')
    by (rewrite Es, <- !app_assoc; reflexivity).
  rewrite Em, consumed_app.
  destruct B_head as (B' & EB).
  destruct a as [|a0 a]; [contradiction|].
  cbn [app] in Es. injection Es as -> Es.
  destruct (prefix_before a B b t1 _ LT B' EB H1 Es) as (l1 & -> & E1).
  symmetry in E1.
  destruct (prefix_before l1 B b ws _ LT B' EB (B_space ws Hws) E1)
    as (l2 & -> & E2).
  destruct l2 as [|e l2].
  - exfalso. cbn [app] in E2. symmetry in E2. exact (Hno _ _ E2).
  - cbn [app] in E2. injection E2 as <- E2. symmetry in E2.
    destruct (prefix_before l2 B b t2 _ LT B' EB H2 E2) as (l3 & -> & _).
    exists l3. cbn [app]. rewrite <- !app_assoc. reflexivity.
Qed.

Lemma B_tag_scan (r : regex) (f : replacer) :
  opensWith LT r ->
  (forall q s, exec r q (LT :: lit "pre>" ++ s) = None) ->
  (forall q s, exec r q (LT :: lit "code class=" ++ s) = None) ->
  (forall q s, exec r q (LT :: lit "/code>" ++ s) = None) ->
  (forall q s, exec r q (LT :: lit "/pre>" ++ s) = None) ->
  forall p b, exists q, scan r f p (B ++ b) = B ++ scan r f q b.
Proof.
  intros Ho H1 H2 H3 H4 p b. eexists.
  apply (block_tags lang body Hlang Hescaped r f Ho H1 H2 H3 H4).
Qed.

Lemma B_not_tag (t2 : jsstring) (c : code_unit) (t2' : jsstring) :
  t2 = c :: t2' -> c <> 112%N -> forall w v, B ++ w <> (LT :: t2) ++ v.
Proof.
  intros -> Hc w v E. rewrite (block_head lang body) in E.
  cbn [app] in E. injection E as E _. apply Hc. symmetry. exact E.
Qed.

Lemma tags_keeps (t1 t2 t s : jsstring) (c : code_unit) (t2' : jsstring) :
  ~ In LT t1 -> ~ In LT t2 -> t2 = c :: t2' -> c <> 112%N ->
  (forall q s, exec (Seq (Lit (LT :: t1)) (Seq (Star true (Chr isSpace))
                                             (Lit (LT :: t2)))) q
                 (LT :: lit "pre>" ++ s) = None) ->
  (forall q s, exec (Seq (Lit (LT :: t1)) (Seq (Star true (Chr isSpace))
                                             (Lit (LT :: t2)))) q
                 (LT :: lit "code class=" ++ s) = None) ->
  (forall q s, exec (Seq (Lit (LT :: t1)) (Seq (Star true (Chr isSpace))
                                             (Lit (LT :: t2)))) q
                 (LT :: lit "/code>" ++ s) = None) ->
  (forall q s, exec (Seq (Lit (LT :: t1)) (Seq (Star true (Chr isSpace))
                                             (Lit (LT :: t2)))) q
                 (LT :: lit "/pre>" ++ s) = None) ->
  within B s ->
  within B (replace_all
              (Seq (Lit (LT :: t1)) (Seq (Star true (Chr isSpace))
                                       (Lit (LT :: t2))))
              (tmpl [TLit t]) s).
Proof.
  intros H1 H2 E2 Hc P1 P2 P3 P4. apply keeps.
  - apply B_tag_scan; try assumption.
    apply opensWith_Seq, (opensWith_Lit LT t1).
  - intros a b p st' Ha E. left.
    exact (tags_match t1 t2 H1 H2 (B_not_tag t2 c t2' E2 Hc) a b p st' Ha E).
Qed.

(** *** The list pattern *)

Lemma closing_li_outside (a b y v : jsstring) :
  a ++ B ++ b = y ++ lit "</li>" ++ v ->
  (exists a2, a = y ++ lit "</li>" ++ a2) \/ (exists y2, y = a ++ B ++ y2).
Proof.
  intro E. destruct B_head as (B' & EB).
  destruct (app_eq_app _ _ _ _ E) as (l & [[E1 E2]|[E1 E2]]).
  - left. destruct l as [|e l].
    + exfalso. cbn [app] in E2.
      exact (B_not_tag (lit "/li>") 47%N (lit "li>") eq_refl
               ltac:(discriminate) b v (eq_sym E2)).
    + change (lit "</li>" ++ v) with (LT :: lit "/li>" ++ v) in E2.
      cbn [app] in E2. injection E2 as <- E2. symmetry in E2.
      destruct (prefix_before l B b (lit "/li>") _ LT B' EB
                  ltac:(intro H; cbn in H; intuition discriminate) E2)
        as (l3 & -> & _).
      exists l3. rewrite E1. reflexivity.
  - right.
    change (lit "</li>" ++ v) with (LT :: lit "/li>" ++ v) in E2.
    destruct (B_tags b l _ E2) as [(v' & Ev)|[(v' & Ev)|[(v' & Ev)|[(v' & Ev)|(u' & ->)]]]];
      try discriminate Ev.
    exists u'. exact E1.
Qed.

Lemma li_run_keeps (s : jsstring) :
  within B s ->
  within B (replace_all re_li_run
              (tmpl [TLit (lit "<ul>"); TMatch; TLit (lit "</ul>")]) s).
Proof.
  apply keeps.
  - apply B_tag_scan; try (intros; reflexivity). apply opensWith_li_run.
  - intros a b p st' _ E.
    destruct (M_li_run _ _ _ E) as (y & o & Es & Ho).
    assert (Em : a ++ B ++ b = (y ++ lit "</li>" ++ o) ++ rest st')
      by (rewrite Es, <- !app_assoc; reflexivity).
    rewrite Em, consumed_app.
    unfold tmpl. cbn [flat_map expand1]. rewrite app_nil_r.
    destruct (closing_li_outside a b y _ Es) as [(a2 & Ea)|(y2 & ->)].
    + left. subst a. rewrite <- !app_assoc in Es.
      apply app_inv_head in Es. apply app_inv_head in Es.
      destruct Ho as [->| ->].
      * exists a2. rewrite app_nil_r, <- !app_assoc. reflexivity.
      * destruct B_head as (B' & EB).
        destruct (prefix_before a2 B b [NL] _ LT B' EB
                    ltac:(intro H; cbn in H; intuition discriminate) Es)
          as (l & -> & _).
        exists l. rewrite <- !app_assoc. reflexivity.
    + right. exists (lit "<ul>" ++ a), (y2 ++ lit "</li>" ++ o ++ lit "</ul>").
      rewrite <- !app_assoc. reflexivity.
Qed.

(** *** All the stages after the code blocks *)

Lemma afterCodeBlocks_keeps (s : jsstring) :
  within B s -> within B (afterCodeBlocks s).
Proof.
  intro H. unfold afterCodeBlocks.
  pose proof (inert_parts body Hbody) as (_ & Hb & Hs & Hn).
  assert (Hbt : forallb (isNot BACKTICK) B = true)
    by (apply (block_first lang body Hlang); try reflexivity; exact Hb).
  assert (Hst : forallb (isNot STAR) B = true)
    by (apply (block_first lang body Hlang); try reflexivity; exact Hs).
  assert (Hnl : forallb (isNot NL) B = true)
    by (apply (block_first lang body Hlang); try reflexivity; exact Hn).
  assert (One : forall x c : code_unit, In c [x] -> c = x)
    by (intros x c [<-|[]]; reflexivity).
  assert (Two : forall x c : code_unit, In c [x; x] -> c = x)
    by (intros x c [<-|[<-|[]]]; reflexivity).
  assert (NoLt : forall h : string,
            forallb (isNot LT) (lit h) = true -> ~ In LT (lit h))
    by (intros h Hh; apply notin_class, Hh).
  unfold cleanup.
  apply (tags_keeps (lit "/ul>") (lit "/p>") (lit "</ul>") _ 47%N (lit "p>"));
    try reflexivity; try discriminate; try (intros q t; reflexivity);
    try (apply NoLt; reflexivity).
  apply (tags_keeps (lit "p>") (lit "ul>") (lit "<ul>") _ 117%N (lit "l>"));
    try reflexivity; try discriminate; try (intros q t; reflexivity);
    try (apply NoLt; reflexivity).
  apply (tags_keeps (lit "p>") (lit "/p>") [] _ 47%N (lit "p>"));
    try reflexivity; try discriminate; try (intros q t; reflexivity);
    try (apply NoLt; reflexivity).
  unfold wrapParagraph. apply within_wrap.
  unfold lineBreaks.
  apply (literal_keeps NL [NL] (lit "<br>") _ Hnl (opensWith_Lit NL []));
    [intro X; cbn in X; intuition discriminate|].
  apply (literal_keeps NL [NL; NL] (lit "</p><p>") _ Hnl (opensWith_Lit NL [NL]));
    [intro X; cbn in X; intuition discriminate|].
  unfold emphasis.
  apply (delimited_keeps STAR [STAR] false isDot "<em>" "</em>");
    [discriminate | apply One | exact Hst
    |apply opensWith_Seq, (opensWith_Lit STAR []) |].
  apply (delimited_keeps STAR [STAR; STAR] false isDot "<strong>" "</strong>");
    [discriminate | apply Two | exact Hst
    |apply opensWith_Seq, (opensWith_Lit STAR [STAR]) |].
  unfold wrapLists. apply li_run_keeps.
  unfold listItems. apply numbered_keeps.
  apply (heading_keeps "- " "<li>" "</li>" 45%N (lit " ") _ eq_refl eq_refl
           (NoLt "- "%string eq_refl)).
  unfold headings.
  apply (heading_keeps "# " "<h2>" "</h2>" 35%N (lit " ") _ eq_refl eq_refl
           (NoLt "# "%string eq_refl)).
  apply (heading_keeps "## " "<h3>" "</h3>" 35%N (lit "# ") _ eq_refl eq_refl
           (NoLt "## "%string eq_refl)).
  apply (heading_keeps "### " "<h4>" "</h4>" 35%N (lit "## ") _ eq_refl eq_refl
           (NoLt "### "%string eq_refl)).
  unfold inlineCode.
  apply (delimited_keeps BACKTICK [BACKTICK] true (isNot BACKTICK)
           "<code>" "</code>");
    [discriminate | apply One | exact Hbt
    |apply opensWith_Seq, (opensWith_Lit BACKTICK []) |].
  exact H.
Qed.

End KeptBlock.

(** ** A fenced block in its context through [formatResponse] *)

Lemma contains_within (b s : jsstring) : within b s -> contains b s = true.
Proof.
  intros (x & y & ->). induction x as [|c x IH].
  - cbn [app]. destruct (b ++ y) as [|c t] eqn:E; cbn [contains];
      rewrite <- E, prefixb_app; reflexivity.
  - cbn [app contains]. rewrite IH. apply orb_true_r.
Qed.

Lemma formatResponse_nonempty (s : jsstring) :
  s <> [] -> formatResponse s = afterCodeBlocks (codeBlocks (escapeHtml s)).
Proof.
  destruct s as [|c s]; [contradiction | reflexivity].
Qed.

Lemma fence_nonempty (x lang code y : jsstring) : x ++ fence lang code ++ y <> [].
Proof.
  intro E. apply (f_equal (@length code_unit)) in E.
  unfold fence in E. rewrite !length_app in E. cbn [length lit] in E.
  simpl in E. lia.
Qed.

(** The code-block stage leaves the rendered block in the text. *)
Lemma codeBlocks_within (earlier : list fenced) (pre lang code post : jsstring) :
  forallb fencedOk earlier = true ->
  fenceless pre = true ->
  forallb isWord lang = true ->
  fenceFree code = true ->
  within (renderedBlock (langOrText lang) (trim (escapeHtml code)))
    (codeBlocks (escapeHtml (source earlier ++ pre ++ fence lang code ++ post))).
Proof.
  intros Hearlier Hpre Hlang Hfree.
  destruct (codeBlocks_source (pre ++ fence lang code ++ post) earlier Hearlier)
    as (a & ->).
  rewrite (escapeHtml_fence _ _ _ _ Hlang).
  rewrite codeBlocks_fenced;
    [|rewrite escapeHtml_flat_map; apply escape_fenceless, Hpre
     |exact Hlang
     |rewrite escapeHtml_flat_map; apply escape_fenceFree, Hfree].
  exists (a ++ escapeHtml pre), (codeBlocks (escapeHtml post)).
  rewrite renderedBlock_tags, <- !app_assoc. reflexivity.
Qed.

(** C1, amended: take a fenced block (a tag of word characters or
    none, content up to the first closing fence) that stands after text
    and fenced blocks in which no opening fence is left open.  The
    code-block substitution writes it as the opening tags with the tag
    (or [text]), the escaped and trimmed content, the closing tags.
    When that content has no line terminator, backtick or asterisk, the
    block is in the output just so, its content unaltered, whatever
    stands before and after it; and when the input is the block alone
    the output is the block inside the paragraph. *)
Theorem fenced_block_is_rendered :
  forall (earlier : list fenced) (pre lang code post : jsstring),
    forallb fencedOk earlier = true ->
    fenceless pre = true ->
    forallb isWord lang = true ->
    fenceFree code = true ->
    let input := source earlier ++ pre ++ fence lang code ++ post in
    let block :=
      codeOpen (langOrText lang) ++ trim (escapeHtml code) ++ codeClose in
    contains block (codeBlocks (escapeHtml input)) = true
    /\ (inert (trim (escapeHtml code)) = true ->
        contains block (formatResponse input) = true
        /\ formatResponse (fence lang code) = lit "<p>" ++ block ++ lit "</p>").
Proof.
  intros earlier pre lang code post Hearlier Hpre Hlang Hfree input block.
  assert (Hword : forallb isWord (langOrText lang) = true)
    by (apply langOrText_word, Hlang).
  assert (Hlt : forallb (isNot LT) (trim (escapeHtml code)) = true)
    by (apply forallb_trim, escape_no_lt).
  pose proof (codeBlocks_within earlier pre lang code post Hearlier Hpre Hlang
                Hfree) as Hstage.
  unfold block, input. rewrite <- !renderedBlock_tags.
  split; [apply contains_within, Hstage|].
  intro Hinert. split.
  - apply contains_within.
    rewrite formatResponse_nonempty
      by (rewrite app_assoc; apply fence_nonempty).
    apply (afterCodeBlocks_keeps _ _ Hword Hinert Hlt), Hstage.
  - pose proof (formatResponse_fence [] lang code [] eq_refl Hlang Hfree) as H.
    rewrite app_nil_r in H. cbn [app] in H. rewrite H.
    change (escapeHtml []) with (@nil code_unit).
    change (codeBlocks []) with (@nil code_unit).
    cbn [app]. rewrite app_nil_r, <- !renderedBlock_tags.
    apply afterCodeBlocks_block; assumption.
Qed.

Lemma fenced_block_is_rendered_witness :
  let earlier :=
    [{| before := lit "run "; tag := lit "sh"; content := lit "ls" ++ [NL] |}] in
  let pre := lit " then `try` " in
  let code := lit "x < 1;" ++ [NL] in
  let post := lit " and *stop*" in
  forallb fencedOk earlier = true
  /\ fenceless pre = true
  /\ forallb isWord (lit "js") = true
  /\ fenceFree code = true
  /\ inert (trim (escapeHtml code)) = true
  /\ contains (codeOpen (lit "js") ++ lit "x &lt; 1;" ++ codeClose)
       (formatResponse (source earlier ++ pre ++ fence (lit "js") code ++ post))
     = true.
Proof.
  intros earlier pre code post.
  repeat (split; [reflexivity|]).
  exact (proj1 (proj2 (fenced_block_is_rendered earlier pre (lit "js") code post
                         eq_refl eq_refl eq_refl eq_refl) eq_refl)).
Defined.
